(* ===== verification/_CoqProject ===== *)
-Q . S2P
Prelude.v
Py.v
Float64.v
Paths.v
Frame.v
Infer.v
Genanki.v
Guid.v
TableReader.v
Dedup.v
HeaderDedup.v
CsvReader.v
Converter.v
Cli.v
