(* ===== verification/Prelude.v ===== *)
(** * A verification development of [csv2apkg] (src/genanki/csv2apkg.py)

    ** The program

    [csv2apkg(filename, title=None, sep=',', mode='double')] turns a CSV
    file of question/answer pairs into an Anki package.  It parses the
    file name as a [pathlib.Path] and asserts the [.csv] suffix (lines
    29-32), derives the deck title (34-39) and the output path
    [parent / (stem + ".apkg")] (43), reads the table with
    [pandas.read_csv] (46-52; in single mode with [header=None,
    names=["question"]] and then a constant [answer] column of one
    space), creates a [genanki.Deck] whose id is the current second
    (55-58), walks the rows with a tqdm progress bar, making one
    [genanki.Note] of the constant [MODEL] (10-25) per row that has the
    labels [question] and [answer] and printing a message for the others
    (61-78), writes [genanki.Package(deck)] (81) and prints the output path
    (83).  [main] (85-90) hands the function to [fire], which binds the
    command-line words to its parameters.

    ** The library, in dependency order

    - [Prelude] (this file): the [py_scope] notation scope, the Python
      string operations used by the model ([split], [join], slices,
      [rfind], [startswith], [endswith], [all(...)]) with their lemmas,
      the rewrite database [pyrw] and the tactics [ascii_cases] and
      [nat_bools].
    - [Py]: Python values as the command line produces them ([pyval],
      [truthy], [is_str]), the exceptions, and [PyM], a state-and-exception
      monad in which an exception keeps the effects before it.
    - [Float64] ([Module Float64]): binary64 numbers (Stdlib's
      [SpecFloat] at 53 bits of precision), the conversion of an integer
      to a [double], [int()] of a [double] (truncation), and [str] of an [int] and of a [float]: CPython's
      [repr], the shortest decimal that reads back as the same number,
      computed exactly with integers, in fixed or exponent notation.
    - [Paths] ([Module PurePosixPath]): [Path(...)], [.name], [.suffix],
      [.stem], [.parent], [/] and [str] of CPython 3.12's [PurePosixPath],
      and [apkg_path_of], line 43.
    - [Frame] ([Module Frame]): the pandas [DataFrame]/[Series] operations
      used: [df[col] = v], [len(df)], [iterrows], [k in row], [row[k]],
      and [str] of a cell; cells are texts, [NaN], [int64], [float64] or
      [bool] values, and [iterrows] gives each row in the common dtype of
      the columns (integers become floats beside a float column).
    - [Infer] ([Module Infer]): pandas' conversion of a column of fields
      ([parsers.pyx], [_convert_tokens]): [int64] by [str_to_int64] with
      its overflow guards, upcast to [float64] when a value is missing,
      else [float64] by [precise_xstrtod], else [bool], else text; the
      missing-value strings.
    - [Genanki] ([Module Genanki]): [MODEL], notes, decks, [add_note] and
      the checks genanki makes when it writes a package.
    - [Guid] ([Module Guid]): the GUID genanki computes for each note
      when it writes the package ([genanki.util.guid_for] of the
      fields) and the [guid] column of the package's notes
      ([deck_guids]), for any digest function.
    - [TableReader]: the interface between the converter and the CSV
      reader (a [Class] and its laws); the converter is proved against it.
    - [Dedup] ([Module Dedup]): [pandas.io.common.dedup_names], the
      renaming of repeated labels that pandas applies last.
    - [HeaderDedup] ([Module HeaderDedup]): the C parser's own renaming
      of the header row ([parsers.pyx], [TextReader._get_header]):
      [Unnamed: i] for empty labels, then repeated labels mangled,
      skipping names the header already has.
    - [CsvReader] ([Module CsvReader]): the reader itself, after pandas' C
      tokenizer (a state machine over characters, after the byte-order
      mark is skipped), the header renamed by
      [HeaderDedup] and then [Dedup], the implicit index, and each column
      converted by [Infer]; it is an instance of the interface and
      discharges its laws.
    - [Converter] ([Module Converter]): [csv2apkg] over a world of files
      (a [gmap] from path strings), a clock and console events.
    - [Cli] ([Module Fire], [Module Cli]): [fire.Fire(csv2apkg)]: the
      binding of [sys.argv[1:]] to the parameters (flags in their
      spellings, positional words, defaults, a missing file name), the
      reading of each word as a Python literal, [main] composed with
      [csv2apkg], and the exit status.

    ** What is proved

    - The converter (C1-C10): a run on a parsable [.csv] file writes
      exactly the package at the output path, holding one note per
      accepted row in row order, and prints its events in order (C1, a
      refinement of [csv2apkg] to [expected_deck]); a run that raises has
      written nothing (C2); each error path (C5-C8); the acceptance test
      of line 64 accepts every row or none (C3); single mode gives one
      note per line with a non-empty front and a one-space back (C4,
      C10; [str] of a number is never empty); the title (C9).
    - [iterrows] and [str] (C11): integer questions beside float answers
      are printed as floats, [1] as [1.0].
    - Paths (C12, C13): the output path is beside the input with the same
      stem and suffix [.apkg], and never the input itself.
    - Double mode end to end, composing the tokenizer, the header
      renaming, the column conversion, [iterrows] and [str]: a file of
      text questions and [int64] answers gives notes whose back is [str]
      of the integer (C14); an unquoted comma in the first question moves
      the text before it into the row index (C20); a header
      [question,question] makes every row a skipped one (C22); one
      missing answer turns every integer answer into a float, printed
      [4.0], and the missing ones into [nan] (C23); a file that Python's
      [csv] module wrote with every field quoted, with or without a
      byte-order mark, gives one note per record with the record's
      fields (C24, a round trip).
    - Single mode end to end: blank lines and lines of blanks are skipped
      (C21).
    - The command line (C15-C18): quoted values are passed through as
      the strings they quote (a round trip), the three spellings of a
      flag are equivalent, a title of digits arrives as an [int] and is
      ignored, and a missing file name is a usage error with exit status
      2 before anything happens.
    - Effects over time (C19): every progress bar a run opens is closed,
      also when the run raises.
    - The GUIDs of the package's notes (C25, C26): computing them always
      returns, for every note of the package a run writes, a GUID of at
      most ten base-91 characters that reads back as the first 8 bytes of
      the digest of the note's fields joined by ['__'] (C26); so the
      records [(a__b, c)] and [(a, b__c)] give a package of two notes
      with one GUID (C25).
    - Lemmas of the components, used by these: pandas' [str_to_int64]
      and its overflow guards, the column conversion, the tokenizer's
      invariant and its round trip with Python's [csv] writer, the
      byte-order mark, both header renamings (they return, give distinct
      labels and agree on dot-free labels), [str] and parsing of paths
      as inverses.  The deck id is computed as CPython does; the example
      [deck_id_rounds_up] shows it is the next second when the clock is
      within half a microsecond of it.

    ** Bounds and fuel

    The loops that are not structural are pandas' two [while] loops of
    the header renaming.  The fuel of [Dedup]'s is the number of keys of
    the counter map; that of [HeaderDedup]'s is [len(this_header) + 1],
    enough because each iteration either moves to a mangled name that is
    in the header (distinct names, so at most [len(this_header)] of them)
    or stops; both are proved to return.  [fire]'s loop over the words
    is structural, with a flag for a word taken as a value.  genanki's
    base-91 [while] loop has the fuel 11: the hash integer is below
    [2^64 < 91^10], so ten rounds take its digits and the eleventh stops
    (C26).  The tokenizer is structural on the input; pandas'
    backtracking over a line of blanks is modelled by carrying the blanks
    in the state [WhitespaceLine].  The clock is an integer number of
    nanoseconds; [int(time.time())] is CPython's
    [_PyTime_AsSecondsDouble], a whole second converted exactly and any
    other clock converted to a [double] and divided by [1e9] in binary64,
    then truncated.  The search for the shortest decimal of a float
    tries 1 to 17 digits, and 17 always suffice for binary64;
    [precise_xstrtod] keeps at most 17 digits, as pandas does.

    ** Not modelled

    [fire]'s help screens, its own flags after [--], words left over once
    the parameters are bound (reported after the call), and words outside
    the decided literal fragment (lists, tuples, exponents, ...), all
    reported as [Unmodelled]; the package's binary format (a written
    package is the deck value, its notes' GUIDs a function of it);
    [hashlib.sha256], a library [guid_for] only calls (the GUID theorems
    hold for any digest);
    genanki's sort fields and HTML warnings; Anki's
    rendering of the templates; the progress bar's drawing and the text of
    the skip message (the events carry the row); pandas' [uint64]
    conversion of integers above the [int64] range (reported as
    [Unmodelled]: pandas' [_try_uint64] and its rules for columns that
    mix signs are not followed), the exact line numbers of parser
    errors, and the python engine (separators other than one character,
    reported as [Unmodelled]).  The numbers [precise_xstrtod] reads are
    computed with binary64 operations in the order of the C code; the
    theorems about floats are about the conversion of integers and the
    printing of floats, not about the accuracy of that reading. *)

From stdpp Require Export base list strings gmap pretty.
From Stdlib Require Export Ascii String ZArith Lia.

(** ** Notation scope of the development *)

(** [String] is loaded after the lists; [length] keeps denoting the
    length of a list, [String.length] that of a string. *)
Abbreviation length := List.length (only parsing).

(** stdpp makes [String.append] opaque to [simpl]; the string lemmas
    below compute with it, so it is made to reduce on a constructor. *)
#[global] Arguments String.append : simpl nomatch.

Declare Scope py_scope.
Delimit Scope py_scope with py.

(** ** Python [str] operations used throughout

    Python strings are modelled as [string] (sequences of bytes as
    [ascii]).  The operations below are the Python methods the program
    and its libraries apply to strings: [s.split(c)], [c.join(l)]
    (Stdlib's [String.concat]), slicing [s[:n]] / [s[n:]], [s.rfind(c)]
    and [s.lstrip(c)]. *)

(** [s.split(c)] for a one-character separator: never empty. *)
Fixpoint str_split (c : ascii) (s : string) : list string :=
  match s with
  | EmptyString => [EmptyString]
  | String a s' =>
      let r := str_split c s' in
      if Ascii.eqb a c then EmptyString :: r
      else match r with
           | h :: t => String a h :: t
           | [] => [String a EmptyString]
           end
  end.

(** [s[:n]] *)
Fixpoint str_take (n : nat) (s : string) : string :=
  match n, s with
  | O, _ | _, EmptyString => EmptyString
  | S n', String a s' => String a (str_take n' s')
  end.

(** [s[n:]] *)
Fixpoint str_drop (n : nat) (s : string) : string :=
  match n, s with
  | O, _ => s
  | _, EmptyString => EmptyString
  | S n', String _ s' => str_drop n' s'
  end.

(** [s.rfind(c)]; [None] stands for Python's [-1]. *)
Fixpoint str_rfind (c : ascii) (s : string) : option nat :=
  match s with
  | EmptyString => None
  | String a s' =>
      match str_rfind c s' with
      | Some i => Some (S i)
      | None => if Ascii.eqb a c then Some 0 else None
      end
  end.

(** [s.lstrip(c)] for one character. *)
Fixpoint str_lstrip (c : ascii) (s : string) : string :=
  match s with
  | String a s' => if Ascii.eqb a c then str_lstrip c s' else s
  | EmptyString => EmptyString
  end.

(** The newline character, as a string. *)
Definition nl : string := String (ascii_of_nat 10) EmptyString.

(** [all(f(c) for c in s)] *)
Fixpoint str_forall (f : ascii -> bool) (s : string) : bool :=
  match s with
  | EmptyString => true
  | String c s' => f c && str_forall f s'
  end.

(** [c in s] for one character. *)
Definition str_has (c : ascii) (s : string) : bool :=
  match str_rfind c s with Some _ => true | None => false end.

(** ** Automation *)

Create HintDb pydb.
Create Rewrite HintDb pyrw.

(** Case analysis on the character tests of the string functions. *)
Ltac ascii_cases :=
  repeat match goal with
  | |- context [Ascii.eqb ?a ?b] =>
      let E := fresh "E" in
      destruct (Ascii.eqb_spec a b) as [E|E]; [subst|]
  | H : context [Ascii.eqb ?a ?b] |- _ =>
      let E := fresh "E" in
      destruct (Ascii.eqb_spec a b) as [E|E]; [subst|]
  end.

(** Turns the boolean comparisons of naturals in the hypotheses into the
    propositions [lia] reads. *)
Ltac nat_bools :=
  repeat match goal with
  | H : (_ && _) = true |- _ => apply andb_true_iff in H as [? ?]
  | H : (_ && _) = false |- _ => apply andb_false_iff in H as [?|?]
  | H : (_ <=? _) = true |- _ => apply Nat.leb_le in H
  | H : (_ <=? _) = false |- _ => apply Nat.leb_gt in H
  | H : (_ <? _) = true |- _ => apply Nat.ltb_lt in H
  | H : (_ <? _) = false |- _ => apply Nat.ltb_ge in H
  end.

(** ** Decimal digits *)

(** The character [pretty] writes for a digit below 10 has the ASCII code
    [48 + y]. *)
Lemma pretty_N_char_code (y : N) :
  (y < 10)%N -> 48 <= nat_of_ascii (pretty_N_char y) <= 57 /\
  (Z.of_nat (nat_of_ascii (pretty_N_char y)) - 48 = Z.of_N y)%Z.
Proof.
  intros Hy. assert (y = 0 \/ y = 1 \/ y = 2 \/ y = 3 \/ y = 4 \/ y = 5 \/ y = 6
                     \/ y = 7 \/ y = 8 \/ y = 9)%N as Hc by lia.
  repeat destruct Hc as [->|Hc]; try subst y; split; vm_compute; (reflexivity || lia).
Qed.

(** ** Generic lemmas on lists *)

Lemma list_lookup_map {A B} (g : A -> B) (l : list A) (i : nat) (x : A) :
  l !! i = Some x -> List.map g l !! i = Some (g x).
Proof. revert i. induction l as [|y l IH]; intros [|i] H; simpl in *; congruence || auto. Qed.

(** ** Generic lemmas on strings *)

Lemma str_forall_app (f : ascii -> bool) (s t : string) :
  str_forall f (s +:+ t) = str_forall f s && str_forall f t.
Proof. induction s as [|a s IH]; simpl; [reflexivity|]. now rewrite IH, andb_assoc. Qed.

Lemma str_append_nil_r (s : string) : (s +:+ EmptyString)%string = s.
Proof. induction s; simpl; congruence. Qed.

Lemma str_append_assoc (s1 s2 s3 : string) :
  (s1 +:+ (s2 +:+ s3))%string = ((s1 +:+ s2) +:+ s3)%string.
Proof. induction s1; simpl; congruence. Qed.

Lemma str_length_append (s1 s2 : string) :
  String.length (s1 +:+ s2) = String.length s1 + String.length s2.
Proof. induction s1; simpl; lia. Qed.

#[export] Hint Rewrite str_append_nil_r str_length_append : pyrw.

Lemma str_split_nonempty (c : ascii) (s : string) : str_split c s <> [].
Proof.
  destruct s as [|a s]; simpl; [discriminate|].
  destruct (Ascii.eqb a c); [discriminate|]. destruct (str_split c s); discriminate.
Qed.

Lemma str_take_drop (n : nat) (s : string) :
  (str_take n s +:+ str_drop n s)%string = s.
Proof.
  revert s; induction n as [|n IH]; intros [|a s]; simpl; try reflexivity.
  now rewrite IH.
Qed.

Lemma str_take_length (n : nat) (s : string) :
  n <= String.length s -> String.length (str_take n s) = n.
Proof.
  revert s; induction n as [|n IH]; intros [|a s]; simpl; intros H; try lia.
  rewrite IH; lia.
Qed.

Lemma str_drop_length (n : nat) (s : string) :
  String.length (str_drop n s) = String.length s - n.
Proof. revert s; induction n as [|n IH]; intros [|a s]; simpl; auto. Qed.

Lemma str_take_app (s1 s2 : string) :
  str_take (String.length s1) (s1 +:+ s2) = s1.
Proof. induction s1; simpl; congruence. Qed.

Lemma str_drop_app (s1 s2 : string) :
  str_drop (String.length s1) (s1 +:+ s2) = s2.
Proof. induction s1; simpl; auto. Qed.

#[export] Hint Rewrite str_take_app str_drop_app : pyrw.

Lemma str_rfind_bound (c : ascii) (s : string) (i : nat) :
  str_rfind c s = Some i -> i < String.length s.
Proof.
  revert i; induction s as [|a s IH]; simpl; intros i H; [discriminate|].
  destruct (str_rfind c s) as [j|] eqn:E.
  - injection H as <-. specialize (IH j eq_refl). lia.
  - destruct (Ascii.eqb a c); [injection H as <-; lia | discriminate].
Qed.

(** [str_rfind] finds the character at the returned position and none
    after it: its position splits the string as [pre ++ c :: post] with
    [c] not in [post]. *)
Lemma str_rfind_split (c : ascii) (s : string) (i : nat) :
  str_rfind c s = Some i ->
  s = (str_take i s +:+ String c (str_drop (S i) s))%string /\
  str_has c (str_drop (S i) s) = false.
Proof.
  unfold str_has.
  revert i; induction s as [|a s IH]; simpl; intros i H; [discriminate|].
  destruct (str_rfind c s) as [j|] eqn:E.
  - injection H as <-. destruct (IH j eq_refl) as [H1 H2]. simpl.
    split; [now f_equal|exact H2].
  - ascii_cases; [|discriminate]. injection H as <-. simpl. now rewrite E.
Qed.

Lemma str_rfind_none (c : ascii) (s : string) :
  str_rfind c s = None <-> str_has c s = false.
Proof. unfold str_has. destruct (str_rfind c s); split; congruence. Qed.

Lemma str_has_app (c : ascii) (s1 s2 : string) :
  str_has c (s1 +:+ s2) = str_has c s1 || str_has c s2.
Proof.
  unfold str_has. induction s1 as [|a s1 IH]; simpl; [reflexivity|].
  destruct (str_rfind c (s1 +:+ s2)), (str_rfind c s1), (str_rfind c s2);
    ascii_cases; simpl in *; try congruence; try discriminate.
Qed.

Lemma str_has_cons (c a : ascii) (s : string) :
  str_has c (String a s) = Ascii.eqb a c || str_has c s.
Proof.
  unfold str_has; simpl. destruct (str_rfind c s); ascii_cases; reflexivity.
Qed.

#[export] Hint Rewrite str_has_app str_has_cons : pyrw.

(** Splitting a joined list gives the list back when no element holds the
    separator. *)
Lemma str_split_concat (c : ascii) (l : list string) :
  l <> [] -> Forall (fun p => str_has c p = false) l ->
  str_split c (String.concat (String c EmptyString) l) = l.
Proof.
  induction l as [|p l IH]; intros Hne Hall; [congruence|].
  inversion Hall as [|? ? Hp Hl]; subst.
  assert (Hp_split : forall t, str_split c (p +:+ String c t)%string
                               = p :: str_split c t).
  { intros t. clear -Hp. induction p as [|a p IHp]; simpl.
    - now rewrite Ascii.eqb_refl.
    - rewrite str_has_cons in Hp. apply orb_false_iff in Hp as [Ha Hp'].
      rewrite Ha, IHp by exact Hp'. reflexivity. }
  destruct l as [|q l].
  - simpl. clear -Hp. induction p as [|a p IHp]; simpl; [reflexivity|].
    rewrite str_has_cons in Hp. apply orb_false_iff in Hp as [Ha Hp'].
    rewrite Ha, IHp by exact Hp'. reflexivity.
  - change (String.concat (String c EmptyString) (p :: q :: l))
      with (p +:+ String c (String.concat (String c EmptyString) (q :: l)))%string.
    rewrite Hp_split, IH by (discriminate || exact Hl). reflexivity.
Qed.

(** The other direction: joining the pieces of a split gives the string. *)
Lemma str_concat_split (c : ascii) (s : string) :
  String.concat (String c EmptyString) (str_split c s) = s.
Proof.
  induction s as [|a s IH]; simpl; [reflexivity|].
  destruct (str_split c s) as [|h t] eqn:E; [now apply str_split_nonempty in E|].
  ascii_cases; simpl in *.
  - destruct t; simpl in *; subst; reflexivity.
  - destruct t; simpl in *; subst; reflexivity.
Qed.

(** ** Generic lemmas on lists and options *)

Lemma Forall_filter_keep {A} (f : A -> bool) (l : list A) :
  Forall (fun x => f x = true) l -> List.filter f l = l.
Proof.
  induction 1 as [|x l Hx _ IH]; simpl; [reflexivity|].
  rewrite Hx; f_equal; exact IH.
Qed.

Lemma list_filter_all {A} (P : A -> Prop) `{!forall x, Decision (P x)} (l : list A) :
  Forall P l -> filter P l = l.
Proof.
  induction 1 as [|x l Hx _ IH]; [reflexivity|].
  rewrite filter_cons, decide_True by exact Hx. f_equal; exact IH.
Qed.

Lemma list_filter_none {A} (P : A -> Prop) `{!forall x, Decision (P x)} (l : list A) :
  Forall (fun x => ~ P x) l -> filter P l = [].
Proof.
  induction 1 as [|x l Hx _ IH]; [reflexivity|].
  rewrite filter_cons, decide_False by exact Hx. exact IH.
Qed.

(** Splitting at a separator that joins two strings. *)
Lemma str_split_app_sep (c : ascii) (a b : string) :
  str_split c (a +:+ String c b)%string = str_split c a ++ str_split c b.
Proof.
  induction a as [|x a IH]; simpl.
  - now rewrite Ascii.eqb_refl.
  - rewrite IH. destruct (Ascii.eqb x c); [reflexivity|].
    destruct (str_split c a) as [|h t] eqn:E; [now apply str_split_nonempty in E|].
    reflexivity.
Qed.

Lemma str_split_no_sep (c : ascii) (s : string) :
  str_has c s = false -> str_split c s = [s].
Proof.
  induction s as [|a s IH]; simpl; [reflexivity|].
  rewrite str_has_cons. intros H. apply orb_false_iff in H as [Ha Hs].
  rewrite Ha, IH by exact Hs. reflexivity.
Qed.

(** The last occurrence of [c] in [s ++ c :: t], when [t] has none. *)
Lemma str_rfind_app_last (c : ascii) (s t : string) :
  str_has c t = false -> str_rfind c (s +:+ String c t)%string = Some (String.length s).
Proof.
  intros Ht. apply str_rfind_none in Ht.
  induction s as [|a s IH]; simpl.
  - now rewrite Ht, Ascii.eqb_refl.
  - now rewrite IH.
Qed.

(** [s.startswith(c)] and [s.endswith(c)] for one character. *)
Definition str_starts_with (c : ascii) (s : string) : bool :=
  match s with String a _ => Ascii.eqb a c | EmptyString => false end.

Fixpoint str_ends_with (c : ascii) (s : string) : bool :=
  match s with
  | EmptyString => false
  | String a EmptyString => Ascii.eqb a c
  | String _ s' => str_ends_with c s'
  end.

Lemma str_ends_with_app (c : ascii) (s t : string) :
  t <> EmptyString -> str_ends_with c (s +:+ t)%string = str_ends_with c t.
Proof.
  intros Ht. induction s as [|a s IH]; simpl; [reflexivity|].
  rewrite IH. destruct s, t; simpl; congruence.
Qed.

Lemma str_ends_with_has (c : ascii) (s : string) :
  str_ends_with c s = true -> str_has c s = true.
Proof.
  induction s as [|a s IH]; simpl; [discriminate|].
  rewrite str_has_cons. destruct s as [|b s].
  - intros ->. reflexivity.
  - intros H. rewrite (IH H). apply orb_true_r.
Qed.

Lemma str_has_take (c : ascii) (n : nat) (s : string) :
  str_has c s = false -> str_has c (str_take n s) = false.
Proof.
  rewrite <- (str_take_drop n s) at 1. rewrite str_has_app.
  intros H. apply orb_false_iff in H. apply H.
Qed.

Lemma str_take_nonempty (n : nat) (s : string) :
  0 < n -> n <= String.length s -> str_take n s <> EmptyString.
Proof.
  intros Hn Hl He. pose proof (str_take_length n s Hl) as E. rewrite He in E.
  simpl in E. lia.
Qed.

Lemma str_split_parts (c : ascii) (s : string) :
  List.Forall (fun x => str_has c x = false) (str_split c s).
Proof.
  induction s as [|a s IH]; simpl; [repeat constructor|].
  destruct (Ascii.eqb a c) eqn:Ea; [constructor; [reflexivity|exact IH]|].
  destruct (str_split c s) as [|h t]; inversion IH as [|? ? Hh Ht]; subst;
    constructor; try rewrite str_has_cons, Ea; auto.
Qed.

Lemma str_starts_with_app (c : ascii) (s t : string) :
  s <> EmptyString -> str_starts_with c (s +:+ t)%string = str_starts_with c s.
Proof. destruct s; simpl; congruence. Qed.

Lemma str_ends_with_cons (c a : ascii) (t : string) :
  t <> EmptyString -> str_ends_with c (String a t) = str_ends_with c t.
Proof. destruct t; simpl; congruence. Qed.

Lemma str_append_nonempty_l (s t : string) :
  s <> EmptyString -> (s +:+ t)%string <> EmptyString.
Proof. destruct s; simpl; congruence. Qed.

Lemma str_has_not_starts (c : ascii) (s : string) :
  str_has c s = false -> str_starts_with c s = false.
Proof.
  destruct s as [|a s]; [reflexivity|]. rewrite str_has_cons. simpl.
  now intros [-> _]%orb_false_iff.
Qed.
