(* ===== verification/Py.v ===== *)
(** * Py: the Python runtime conventions of the model

    Python values that reach the program from the command line, the
    exceptions the program and its libraries raise, and [PyM], the
    state-and-exception monad in which the effectful code is written: a
    computation maps a world to a result (an exception or a value) and
    the world after it, so an exception keeps every effect that happened
    before it was raised, as in Python. *)

From S2P Require Import Prelude.

(** ** Values *)

(** The Python values the command line can produce for an argument
    ([fire] parses each argument with [ast.literal_eval]).  A float is
    kept as [m * 10^e]. *)
Inductive pyval :=
| PNone
| PBool (b : bool)
| PInt (z : Z)
| PFloat (m : Z) (e : Z)
| PStr (s : string).

#[export] Instance pyval_eq_dec : EqDecision pyval.
Proof. solve_decision. Defined.

(** [bool(v)] *)
Definition truthy (v : pyval) : bool :=
  match v with
  | PNone => false
  | PBool b => b
  | PInt z => negb (Z.eqb z 0)
  | PFloat m _ => negb (Z.eqb m 0)
  | PStr s => negb (String.eqb s EmptyString)
  end.

(** [isinstance(v, str)] *)
Definition is_str (v : pyval) : bool :=
  match v with PStr _ => true | _ => false end.

(** ** Exceptions *)

Inductive exn :=
| AssertionError (msg : string)
| ValueError (msg : string)
| TypeError (msg : string)
| KeyError (key : string)
| FileNotFoundError (path : string)
| UnicodeDecodeError
| ParserError (msg : string)
| EmptyDataError (msg : string)
(** a usage error of the command line, reported by [fire] with exit status 2 *)
| FireError (msg : string)
(** a library behaviour outside the modelled fragment (for instance a
    multi-character CSV separator, which switches pandas to its
    regular-expression engine) *)
| Unmodelled (what : string).

#[export] Instance exn_eq_dec : EqDecision exn.
Proof. solve_decision. Defined.

(** ** The state-and-exception monad *)

Definition PyM (W A : Type) : Type := W -> (exn + A) * W.

Definition py_ret {W A} (a : A) : PyM W A := fun w => (inr a, w).

Definition py_bind {W A B} (m : PyM W A) (k : A -> PyM W B) : PyM W B :=
  fun w => match m w with
           | (inl e, w') => (inl e, w')
           | (inr a, w') => k a w'
           end.

Definition py_raise {W A} (e : exn) : PyM W A := fun w => (inl e, w).

Definition py_get {W} : PyM W W := fun w => (inr w, w).

Definition py_modify {W} (f : W -> W) : PyM W unit := fun w => (inr tt, f w).

(** A pure computation that may fail. *)
Definition py_lift {W A} (r : exn + A) : PyM W A := fun w => (r, w).

(** [assert b, msg] *)
Definition py_assert {W} (b : bool) (msg : string) : PyM W unit :=
  if b then py_ret tt else py_raise (AssertionError msg).

(** [try: m finally: fin]: [fin] runs whatever [m] did; an exception of
    [fin] replaces the outcome of [m]. *)
Definition py_finally {W A} (m : PyM W A) (fin : PyM W unit) : PyM W A :=
  fun w => match m w with
           | (r, w1) =>
               match fin w1 with
               | (inl e, w2) => (inl e, w2)
               | (inr _, w2) => (r, w2)
               end
           end.

Notation "x <- m ;; k" := (py_bind m (fun x => k))
  (at level 100, m at next level, right associativity) : py_scope.
Notation "m ;; k" := (py_bind m (fun _ => k))
  (at level 100, right associativity) : py_scope.

(** ** Laws, stated pointwise on a world *)

Lemma py_bind_ret_l {W A B} (a : A) (k : A -> PyM W B) (w : W) :
  py_bind (py_ret a) k w = k a w.
Proof. reflexivity. Qed.

Lemma py_bind_raise {W A B} (e : exn) (k : A -> PyM W B) (w : W) :
  py_bind (py_raise e) k w = (inl e, w).
Proof. reflexivity. Qed.

Lemma py_bind_assoc {W A B C} (m : PyM W A) (f : A -> PyM W B)
      (g : B -> PyM W C) (w : W) :
  py_bind (py_bind m f) g w = py_bind m (fun x => py_bind (f x) g) w.
Proof. unfold py_bind. destruct (m w) as [[e|a] w']; reflexivity. Qed.

Lemma py_bind_modify {W B} (f : W -> W) (k : unit -> PyM W B) (w : W) :
  py_bind (py_modify f) k w = k tt (f w).
Proof. reflexivity. Qed.

Lemma py_bind_get {W B} (k : W -> PyM W B) (w : W) :
  py_bind py_get k w = k w w.
Proof. reflexivity. Qed.

Lemma py_bind_lift_inl {W A B} (e : exn) (k : A -> PyM W B) (w : W) :
  py_bind (py_lift (inl e)) k w = (inl e, w).
Proof. reflexivity. Qed.

Lemma py_bind_lift_inr {W A B} (a : A) (k : A -> PyM W B) (w : W) :
  py_bind (py_lift (inr a)) k w = k a w.
Proof. reflexivity. Qed.

(** Binding a computation whose run is known. *)
Lemma py_bind_run {W A B} (m : PyM W A) (k : A -> PyM W B) (w w' : W) r :
  m w = (r, w') ->
  py_bind m k w = match r with inl e => (inl e, w') | inr a => k a w' end.
Proof. intros H. unfold py_bind. rewrite H. destruct r; reflexivity. Qed.

#[export] Hint Rewrite @py_bind_ret_l @py_bind_raise @py_bind_assoc
  @py_bind_modify @py_bind_get @py_bind_lift_inl @py_bind_lift_inr : pyrw.

(** Unfold the monad on a concrete world. *)
Ltac py_run := repeat (autorewrite with pyrw; cbn [py_assert py_finally]).
