(* ===== verification/Float64.v ===== *)
(** * Float64: binary64 numbers and Python's [str] of numbers

    pandas stores a numeric column as [int64] or [float64], and the
    program prints cells with [str] (lines 66-67).  This file holds the
    numbers of the model:

    - binary64 is Stdlib's [SpecFloat.spec_float] with [prec = 53] and
      [emax = 1024]; its operations ([SFadd], [SFmul], [SFdiv]) round to
      nearest, ties to even, as the C code of pandas' parser does;
    - [of_Z] is the conversion of an integer to [double] (C's cast,
      numpy's [astype(float64)]);
    - [int_str] is [str] of an [int] ([numpy.int64]);
    - [float_repr] is [str] / [repr] of a [float] ([numpy.float64]):
      the shortest decimal that reads back as the same binary64 (the
      closest one if there are two, then the even one), written in fixed
      notation when the decimal point is at position [-3 .. 16] and in
      exponent notation otherwise, with [.0] added to an integral value,
      as CPython's [float_repr] ([format_float_short], mode ['r']) and
      numpy's scalar [str] do.

    The search for the shortest decimal is exact, with integers: the
    decimals that read back as [v] are those inside the rounding interval
    of [v], half-way to its neighbours, the ends included when the
    mantissa is even; with [k] significant digits, the candidates are the
    two [k]-digit decimals around [v]; 17 digits always suffice. *)

From S2P Require Import Prelude.
From Stdlib Require Import Floats.SpecFloat.

Module Float64.

Definition prec : Z := 53.
Definition emax : Z := 1024.

Abbreviation float := spec_float.

#[export] Instance float_eq_dec : EqDecision spec_float.
Proof. solve_decision. Defined.

(** [(double) z] *)
Definition of_Z (z : Z) : float := binary_normalize prec emax z 0 false.

Definition fadd (x y : float) : float := SFadd prec emax x y.
Definition fmul (x y : float) : float := SFmul prec emax x y.
Definition fdiv (x y : float) : float := SFdiv prec emax x y.
Definition fopp (x : float) : float := SFopp x.

(** [int(x)] of a float: truncation toward zero.  [int] raises for an
    infinity or a NaN, which the clock never gives; the model returns 0
    there. *)
Definition trunc (x : float) : Z :=
  match x with
  | S754_finite s m e =>
      let v := if (0 <=? e)%Z then (Zpos m * 2 ^ e)%Z else (Zpos m / 2 ^ (- e))%Z in
      if s then (- v)%Z else v
  | _ => 0%Z
  end.

(** ** [str] of an integer *)

Definition int_str (z : Z) : string := pretty z.

(** ** [repr] of a float *)

(** The decimal digits of a positive integer. *)
Definition digits (n : Z) : string := pretty (Z.to_N n).

Definition ndigits (n : Z) : Z := Z.of_nat (String.length (digits n)).

(** [x * b^k] as a fraction [(num, den)], [den > 0]. *)
Definition scaled (x b k : Z) : Z * Z :=
  if (0 <=? k)%Z then (x * b ^ k, 1)%Z else (x, b ^ (- k))%Z.

Definition qlt (p q : Z * Z) : bool := (fst p * snd q <? fst q * snd p)%Z.
Definition qle (p q : Z * Z) : bool := (fst p * snd q <=? fst q * snd p)%Z.

(** The exponent [E] with [10^E <= m 2^e < 10^(E+1)]. *)
Definition dec_exponent (m e : Z) : Z :=
  let '(n, d) := scaled m 2 e in
  if (d <=? n)%Z then ndigits (n / d) - 1
  else
    let c := ((d + n - 1) / n)%Z in
    let j := ndigits c in
    if (10 ^ (j - 1) =? c)%Z then - (j - 1) else - j.

(** The rounding interval of [m 2^e] (a binary64 with [m] its canonical
    mantissa): half-way to the neighbours; below a power of two that is
    not the smallest normal number the lower neighbour is twice closer. *)
Definition interval (m e : Z) : (Z * Z) * (Z * Z) :=
  let halved := (m =? 2 ^ (prec - 1))%Z && (SpecFloat.emin prec emax <? e)%Z in
  (scaled (4 * m - (if halved then 1 else 2)) 2 (e - 2), scaled (4 * m + 2) 2 (e - 2)).

Definition inside (incl : bool) (lo hi x : Z * Z) : bool :=
  if incl then qle lo x && qle x hi else qlt lo x && qlt x hi.

(** The [k]-digit decimal [d 10^q] closest to [m 2^e] among those that
    read back as it, if any. *)
Definition candidate (m e : Z) (k : Z) : option (Z * Z) :=
  let q := (dec_exponent m e - k + 1)%Z in
  let '(vn, vd) := scaled m 2 e in
  let '(tn, td) := scaled 1 10 q in
  let dlo := ((vn * td) / (vd * tn))%Z in
  let '(lo, hi) := interval m e in
  let incl := Z.even m in
  let ok d := inside incl lo hi (scaled d 10 q) in
  match ok dlo, ok (dlo + 1)%Z with
  | true, true =>
      (* the closer one; the even one when both are as close *)
      let c := Z.compare (2 * vn * td) ((2 * dlo + 1) * tn * vd) in
      match c with
      | Lt => Some (dlo, q)
      | Gt => Some (dlo + 1, q)%Z
      | Eq => if Z.even dlo then Some (dlo, q) else Some (dlo + 1, q)%Z
      end
  | true, false => Some (dlo, q)
  | false, true => Some (dlo + 1, q)%Z
  | false, false => None
  end.

Fixpoint shortest_go (m e : Z) (ks : list Z) : option (Z * Z) :=
  match ks with
  | [] => None
  | k :: ks' => match candidate m e k with Some r => Some r | None => shortest_go m e ks' end
  end.

(** The shortest decimal [d 10^q] that reads back as [m 2^e]. *)
Definition shortest (m e : Z) : Z * Z :=
  match shortest_go m e (map Z.of_nat (seq 1 17)) with
  | Some r => r
  | None => (m, 0%Z)
  end.

Fixpoint strip_zeros_rev (l : list ascii) : list ascii :=
  match l with
  | "0"%char :: l' => strip_zeros_rev l'
  | _ => l
  end.

(** The digits of [d] without the trailing zeros. *)
Definition sig_digits (d : Z) : string :=
  string_of_list_ascii (rev (strip_zeros_rev (rev (list_ascii_of_string (digits d))))).

Definition zeros (n : Z) : string := string_of_list_ascii (repeat "0"%char (Z.to_nat n)).

(** The exponent of the exponent notation: a sign and two digits at least. *)
Definition exp_str (x : Z) : string :=
  (if (x <? 0)%Z then "-" else "+") +:+
  (if (Z.abs x <? 10)%Z then "0" +:+ digits (Z.abs x) else digits (Z.abs x)).

(** [format_float_short] in mode ['r'] with [Py_DTSF_ADD_DOT_0], for the
    digits [D] and the decimal point position [decpt] (the value is
    [0.D * 10^decpt]). *)
Definition format_r (D : string) (decpt : Z) : string :=
  let n := Z.of_nat (String.length D) in
  if (decpt <=? -4)%Z || (16 <? decpt)%Z then
    match D with
    | String c rest =>
        String c ((if (1 <? n)%Z then "." +:+ rest else EmptyString) +:+ "e" +:+ exp_str (decpt - 1))
    | EmptyString => EmptyString
    end
  else if (decpt <=? 0)%Z then "0." +:+ zeros (- decpt) +:+ D
  else if (n <=? decpt)%Z then D +:+ zeros (decpt - n) +:+ ".0"
  else str_take (Z.to_nat decpt) D +:+ "." +:+ str_drop (Z.to_nat decpt) D.

(** [repr(x)] *)
Definition float_repr (x : float) : string :=
  match x with
  | S754_zero s => if s then "-0.0" else "0.0"
  | S754_infinity s => if s then "-inf" else "inf"
  | S754_nan => "nan"
  | S754_finite s m e =>
      let '(d, q) := shortest (Zpos m) e in
      (if s then "-" else EmptyString) +:+ format_r (sig_digits d) (q + ndigits d)
  end.

(** ** [str] of a number is never empty *)

Lemma pretty_N_go_length (x : N) (s : string) :
  String.length s <= String.length (pretty_N_go x s).
Proof.
  revert s. induction (N.lt_wf_0 x) as [x _ IH]; intros s.
  destruct (decide (x = 0%N)) as [->|Hx]; [now rewrite pretty_N_go_0|].
  rewrite pretty_N_go_step by lia. etrans; [|apply IH, N.div_lt; lia]. simpl. lia.
Qed.

Lemma pretty_N_nonempty (x : N) : pretty x <> EmptyString.
Proof.
  unfold pretty, pretty_N. case_decide as Hx; [discriminate|].
  rewrite pretty_N_go_step by lia. intros H.
  pose proof (pretty_N_go_length (x `div` 10) (String (pretty_N_char (x `mod` 10)) EmptyString)) as L.
  rewrite H in L. simpl in L. lia.
Qed.

Lemma int_str_nonempty (z : Z) : int_str z <> EmptyString.
Proof. unfold int_str, pretty, pretty_Z. destruct z; [discriminate|apply pretty_N_nonempty|discriminate]. Qed.

(** The decimal digits of a positive number are not all zeros. *)
Lemma pretty_N_go_not_zeros (x : N) (s : string) :
  (0 < x)%N -> ~ Forall (fun c => c = "0"%char) (list_ascii_of_string (pretty_N_go x s)).
Proof.
  revert s. induction (N.lt_wf_0 x) as [x _ IH]; intros s Hx.
  rewrite pretty_N_go_step by lia.
  destruct (decide (x `div` 10 = 0)%N) as [Hd|Hd];
    [|apply IH; [apply N.div_lt; lia|now apply N.neq_0_lt_0]].
  rewrite Hd, pretty_N_go_0. cbn [list_ascii_of_string]. intros Hz. inversion Hz as [|? ? Hc _]; subst.
  change "0"%char with (pretty_N_char 0) in Hc.
  apply pretty_N_char_inj in Hc; [|apply N.mod_lt; lia|lia].
  rewrite (N.div_mod x 10), Hd, Hc in Hx by discriminate. discriminate.
Qed.

Lemma strip_zeros_rev_nil (l : list ascii) :
  strip_zeros_rev l = [] -> Forall (fun c => c = "0"%char) l.
Proof.
  induction l as [|c l IH]; [constructor|]. cbn [strip_zeros_rev].
  destruct (Ascii.eqb_spec c "0"%char) as [->|Hc]; [intros H; constructor; auto|].
  destruct c as [[] [] [] [] [] [] [] []]; try discriminate; contradiction.
Qed.

Lemma sig_digits_nonempty (d : Z) : (0 < d)%Z -> sig_digits d <> EmptyString.
Proof.
  intros Hd. unfold sig_digits, digits.
  destruct (strip_zeros_rev (rev (list_ascii_of_string (pretty (Z.to_N d))))) as [|c l] eqn:E;
    [|cbn [rev]; destruct (rev l); discriminate].
  apply strip_zeros_rev_nil, List.Forall_rev in E. rewrite rev_involutive in E. exfalso.
  revert E. unfold pretty, pretty_N. case_decide; [lia|]. apply pretty_N_go_not_zeros. lia.
Qed.

Lemma scaled_pos (x b k : Z) :
  (0 < b)%Z -> ((0 < fst (scaled x b k))%Z <-> (0 < x)%Z) /\ (0 < snd (scaled x b k))%Z.
Proof.
  intros Hb. unfold scaled. destruct (Z.leb_spec 0 k); simpl.
  - pose proof (Z.pow_pos_nonneg b k Hb ltac:(lia)). split; [split; intros; nia|lia].
  - pose proof (Z.pow_pos_nonneg b (- k) Hb ltac:(lia)). lia.
Qed.

Lemma inside_pos (incl : bool) (lo hi x : Z * Z) :
  (0 < fst lo)%Z -> (0 < snd lo)%Z -> (0 < snd x)%Z -> inside incl lo hi x = true -> (0 < fst x)%Z.
Proof.
  intros H1 H2 H3. unfold inside, qle, qlt.
  destruct incl; rewrite andb_true_iff, ?Z.leb_le, ?Z.ltb_lt; intros [H _]; nia.
Qed.

(** The decimal chosen for a positive number is positive. *)
Lemma candidate_pos (m e k d q : Z) : (0 < m)%Z -> candidate m e k = Some (d, q) -> (0 < d)%Z.
Proof.
  intros Hm. unfold candidate.
  destruct (scaled m 2 e) as [vn vd]. destruct (scaled 1 10 _) as [tn td].
  destruct (interval m e) as [lo hi] eqn:Ei.
  assert (Hlo : (0 < fst lo)%Z /\ (0 < snd lo)%Z).
  { unfold interval in Ei. injection Ei as <- _.
    match goal with |- context [scaled ?a 2 ?b] => destruct (scaled_pos a 2 b ltac:(lia)) as [[_ Hp] Hd] end.
    split; [apply Hp; destruct (_ && _); lia|exact Hd]. }
  set (dlo := ((vn * td) / (vd * tn))%Z).
  set (q0 := (dec_exponent m e - k + 1)%Z).
  assert (Hok : forall d', inside (Z.even m) lo hi (scaled d' 10 q0) = true -> (0 < d')%Z).
  { intros d' Hin. apply (scaled_pos d' 10 q0 ltac:(lia)).
    refine (inside_pos _ lo hi _ (proj1 Hlo) (proj2 Hlo) _ Hin). apply (scaled_pos d' 10 q0). lia. }
  destruct (inside (Z.even m) lo hi (scaled dlo 10 q0)) eqn:E1,
    (inside (Z.even m) lo hi (scaled (dlo + 1) 10 q0)) eqn:E2; try discriminate;
    [destruct (Z.compare _ _); [destruct (Z.even dlo)| |]| |];
    intros [= <- _]; eauto.
Qed.

Lemma shortest_pos (m e : Z) : (0 < m)%Z -> (0 < fst (shortest m e))%Z.
Proof.
  intros Hm. unfold shortest.
  induction (map Z.of_nat (seq 1 17)) as [|k ks IH]; [exact Hm|]. cbn [shortest_go].
  destruct (candidate m e k) as [[d q]|] eqn:E; [exact (candidate_pos m e k d q Hm E)|exact IH].
Qed.

(** [str(x)] of a float is never empty. *)
Lemma float_repr_nonempty (x : float) : float_repr x <> EmptyString.
Proof.
  destruct x as [[]|[]| |s m e]; try discriminate. unfold float_repr.
  pose proof (shortest_pos (Zpos m) e eq_refl) as Hd.
  destruct (shortest (Zpos m) e) as [d q]. simpl in Hd.
  pose proof (sig_digits_nonempty d Hd) as HD.
  destruct s; [discriminate|]. unfold format_r. cbn [String.append].
  destruct (_ || _); [destruct (sig_digits d); [contradiction|discriminate]|].
  destruct (_ <=? 0)%Z; [discriminate|].
  destruct (_ <=? _)%Z; [destruct (sig_digits d); [contradiction|discriminate]|].
  destruct (str_take _ _); discriminate.
Qed.

End Float64.
