(* ===== verification/Paths.v ===== *)
(** * Paths: the [pathlib.Path] operations of [csv2apkg]

    [csv2apkg] builds [csv_path = Path(filename)] (line 29), tests
    [csv_path.suffix] (line 32), reads [csv_path.stem] (lines 36-37) and
    computes [apkg_path = csv_path.parent / (csv_path.stem + ".apkg")]
    (line 43), which it prints with [str] (line 83).  This file models
    those operations of CPython 3.12's [PurePosixPath]: a path is its
    root and its list of parts ([_tail]); parsing splits at ['/'] and drops
    empty and ["."] parts; [str] joins them back. *)

From S2P Require Import Prelude.

Module PurePosixPath.

Definition slash : ascii := "/"%char.
Definition dot : ascii := "."%char.

(** A parsed path: [_root] and [_tail] of [PurePath] (no drive on POSIX). *)
Record path := mk_path { root : string; tail : list string }.

#[export] Instance path_eq_dec : EqDecision path.
Proof. solve_decision. Defined.

(** [posixpath.splitroot]: one or three-and-more leading slashes give the
    root ["/"], exactly two give ["//"]. *)
Definition splitroot (p : string) : string * string :=
  match p with
  | String a p1 =>
      if Ascii.eqb a slash then
        match p1 with
        | String b p2 =>
            if Ascii.eqb b slash then
              match p2 with
              | String c _ =>
                  if Ascii.eqb c slash then ("/", str_lstrip slash p)
                  else ("//", p2)
              | EmptyString => ("//", p2)
              end
            else ("/", str_lstrip slash p)
        | EmptyString => ("/", str_lstrip slash p)
        end
      else (EmptyString, p)
  | EmptyString => (EmptyString, p)
  end.

(** A part kept by [_parse_path]: [x and x != '.']. *)
Definition keep_part (x : string) : bool :=
  negb (String.eqb x EmptyString) && negb (String.eqb x ".").

(** [PurePath._parse_path] *)
Definition parse_path (s : string) : path :=
  let '(r, rel) := splitroot s in
  mk_path r (List.filter keep_part (str_split slash rel)).

(** [PurePath._format_parsed_parts]: the string before the ['.'] fallback. *)
Definition path_format (p : path) : string :=
  (root p +:+ String.concat "/" (tail p))%string.

(** [str(path)] *)
Definition path_str (p : path) : string :=
  let s := path_format p in if String.eqb s EmptyString then "." else s.

(** [path.name] *)
Definition name (p : path) : string :=
  match last (tail p) with Some n => n | None => EmptyString end.

(** The test [0 < i < len(name) - 1] shared by [suffix] and [stem]. *)
Definition dot_index (nm : string) : option nat :=
  match str_rfind dot nm with
  | Some i => if (0 <? i) && (i <? String.length nm - 1) then Some i else None
  | None => None
  end.

(** [path.suffix] *)
Definition suffix (p : path) : string :=
  match dot_index (name p) with
  | Some i => str_drop i (name p)
  | None => EmptyString
  end.

(** [path.stem] *)
Definition stem (p : path) : string :=
  match dot_index (name p) with
  | Some i => str_take i (name p)
  | None => name p
  end.

(** [path.parent]: a path without parts is its own parent. *)
Definition parent (p : path) : path :=
  match tail p with
  | [] => p
  | _ => mk_path (root p) (removelast (tail p))
  end.

(** [posixpath.join(a, b)] for one component:
    [if b.startswith(sep): path = b
     elif not path or path.endswith(sep): path += b
     else: path += sep + b]. *)
Definition posix_join (a b : string) : string :=
  if str_starts_with slash b then b
  else if String.eqb a EmptyString || str_ends_with slash a then (a +:+ b)%string
  else (a +:+ String slash b)%string.

(** [path / key]: the raw string of [path] (its formatted parts) joined
    with [key], parsed again. *)
Definition path_div (p : path) (key : string) : path :=
  parse_path (posix_join (path_format p) key).

(** ** Well-formed paths: what parsing produces *)

Definition root_ok (r : string) : bool :=
  String.eqb r EmptyString || String.eqb r "/" || String.eqb r "//".

Definition part_ok (x : string) : bool := keep_part x && negb (str_has slash x).

Definition path_wf (p : path) : bool :=
  root_ok (root p) && forallb part_ok (tail p).


(** ** The program's output path (line 43) *)

(** [csv_path.parent / (csv_path.stem + ".apkg")] *)
Definition apkg_path_of (csv_path : path) : path :=
  path_div (parent csv_path) (stem csv_path +:+ ".apkg").

(** ** Lemmas *)

Lemma splitroot_root_ok (s : string) : root_ok (fst (splitroot s)) = true.
Proof. unfold splitroot. repeat case_match; reflexivity. Qed.

Lemma part_ok_split (l : list string) :
  forallb part_ok l = true ->
  List.Forall (fun x => keep_part x = true) l /\
  List.Forall (fun x => str_has slash x = false) l.
Proof.
  rewrite forallb_forall, !List.Forall_forall. unfold part_ok.
  intros H; split; intros x Hx; specialize (H x Hx);
    apply andb_prop in H as [H1 H2]; [exact H1|now apply negb_true_iff].
Qed.

Lemma keep_part_long (x : string) : 1 < String.length x -> keep_part x = true.
Proof.
  unfold keep_part. intros H.
  destruct (String.eqb_spec x EmptyString), (String.eqb_spec x "."); subst; simpl in *;
    try lia; reflexivity.
Qed.

Lemma part_ok_nonempty (x : string) : part_ok x = true -> x <> EmptyString.
Proof. intros H ->. discriminate. Qed.

Lemma part_ok_no_slash (x : string) : part_ok x = true -> str_has slash x = false.
Proof. unfold part_ok. intros [_ H]%andb_prop. now apply negb_true_iff. Qed.

Lemma part_ok_start (x : string) : part_ok x = true -> str_starts_with slash x = false.
Proof.
  intros H. pose proof (part_ok_no_slash x H) as Hs. destruct x as [|a x]; [reflexivity|].
  rewrite str_has_cons in Hs. simpl. now apply orb_false_iff in Hs as [-> _].
Qed.

(** The joined parts of a well-formed path neither start nor end with a
    slash, and are not empty. *)
Lemma concat_parts (l : list string) :
  forallb part_ok l = true -> l <> [] ->
  String.concat "/" l <> EmptyString /\
  str_starts_with slash (String.concat "/" l) = false /\
  str_ends_with slash (String.concat "/" l) = false.
Proof.
  induction l as [|x l IH]; intros Hl Hne; [congruence|].
  simpl in Hl. apply andb_prop in Hl as [Hx Hl].
  pose proof (part_ok_nonempty x Hx) as Hxne.
  destruct l as [|y l].
  - simpl. split; [exact Hxne|split; [now apply part_ok_start|]].
    destruct (str_ends_with slash x) eqn:E; [|reflexivity].
    apply str_ends_with_has in E. now rewrite (part_ok_no_slash x Hx) in E.
  - destruct (IH Hl ltac:(discriminate)) as (H1 & H2 & H3).
    change (String.concat "/" (x :: y :: l))
      with (x +:+ String slash (String.concat "/" (y :: l)))%string.
    split; [now apply str_append_nonempty_l|].
    rewrite str_starts_with_app by exact Hxne. split; [now apply part_ok_start|].
    rewrite str_ends_with_app, str_ends_with_cons by (exact H1 || discriminate).
    exact H3.
Qed.

Lemma splitroot_app (r rel : string) :
  root_ok r = true -> str_starts_with slash rel = false ->
  splitroot (r +:+ rel)%string = (r, rel).
Proof.
  unfold root_ok. intros Hr Hrel.
  repeat (apply orb_true_iff in Hr as [Hr|Hr]); apply String.eqb_eq in Hr; subst;
    destruct rel as [|b rel]; simpl in *; rewrite ?Hrel; reflexivity.
Qed.

Lemma split_format (l : list string) :
  forallb part_ok l = true ->
  List.filter keep_part (str_split slash (String.concat "/" l)) = l.
Proof.
  intros H. destruct (part_ok_split l H) as [Hk Hs]. destruct l as [|x l]; [reflexivity|].
  rewrite (str_split_concat slash) by (discriminate || exact Hs).
  now apply Forall_filter_keep.
Qed.

(** Rewrite with [splitroot_app] at a literal root, where [simpl] has
    already computed the concatenation. *)
Ltac splitroot_lit r rel :=
  let E := fresh "E" in
  pose proof (splitroot_app r rel eq_refl ltac:(assumption)) as E;
  simpl in E; rewrite E; clear E.

Lemma parse_relative (key : string) :
  str_starts_with slash key = false ->
  parse_path key = mk_path EmptyString (List.filter keep_part (str_split slash key)).
Proof.
  intros H. unfold parse_path. now splitroot_lit EmptyString key.
Qed.


(** ** Theorems *)

(** Parsing always yields a well-formed path. *)
Theorem parse_path_wf (s : string) : path_wf (parse_path s) = true.
Proof.
  unfold parse_path. pose proof (splitroot_root_ok s) as Hr.
  destruct (splitroot s) as [r rel]. unfold path_wf; simpl in *. rewrite Hr; simpl.
  apply forallb_forall. intros x [Hin Hk]%filter_In. unfold part_ok. rewrite Hk.
  pose proof (str_split_parts slash rel) as HF. rewrite List.Forall_forall in HF.
  now rewrite (HF x Hin).
Qed.

Lemma parse_path_str (p : path) :
  path_wf p = true -> parse_path (path_str p) = p.
Proof.
  destruct p as [r t]. unfold path_wf; simpl. intros [Hr Ht]%andb_prop.
  destruct t as [|x t].
  - unfold root_ok in Hr. repeat (apply orb_true_iff in Hr as [Hr|Hr]);
      apply String.eqb_eq in Hr; subst; reflexivity.
  - destruct (concat_parts (x :: t) Ht ltac:(discriminate)) as (Hne & Hs & _).
    unfold path_str, path_format; simpl root; simpl tail.
    destruct (String.eqb_spec (r +:+ String.concat "/" (x :: t)) EmptyString) as [E|_].
    { exfalso. destruct r; simpl in E; [exact (Hne E)|discriminate]. }
    unfold parse_path. rewrite splitroot_app by assumption.
    f_equal. now apply split_format.
Qed.

(** Joining to a bare root concatenates. *)
Lemma posix_join_root (r key : string) :
  root_ok r = true -> str_starts_with slash key = false ->
  posix_join r key = (r +:+ key)%string.
Proof.
  unfold root_ok, posix_join. intros Hr Hk. rewrite Hk.
  repeat (apply orb_true_iff in Hr as [Hr|Hr]); apply String.eqb_eq in Hr; subst;
    reflexivity.
Qed.

(** [p / key] for a relative [key] appends the parts of [key]. *)
Theorem path_div_relative (p : path) (key : string) :
  path_wf p = true -> str_starts_with slash key = false ->
  path_div p key = mk_path (root p) (tail p ++ tail (parse_path key)).
Proof.
  destruct p as [r t]. unfold path_wf; simpl. intros [Hr Ht]%andb_prop Hk.
  rewrite parse_relative by exact Hk. unfold path_div, path_format. simpl root; simpl tail.
  destruct t as [|x t].
  - change (String.concat "/" []) with EmptyString. rewrite str_append_nil_r.
    rewrite posix_join_root by assumption. unfold parse_path.
    now rewrite splitroot_app.
  - destruct (concat_parts (x :: t) Ht ltac:(discriminate)) as (Hne & Hs & He).
    set (C := String.concat "/" (x :: t)) in *. unfold posix_join. rewrite Hk.
    destruct (String.eqb_spec (r +:+ C) EmptyString) as [E|_].
    { exfalso. destruct r; simpl in E; [exact (Hne E)|discriminate]. }
    rewrite str_ends_with_app, He by exact Hne. simpl.
    rewrite <- str_append_assoc. unfold parse_path.
    rewrite splitroot_app by (rewrite ?str_starts_with_app; auto).
    f_equal. rewrite str_split_app_sep, List.filter_app. unfold C.
    now rewrite split_format.
Qed.

(** [str(p)] is injective on well-formed paths. *)
Lemma path_str_inj (p q : path) :
  path_wf p = true -> path_wf q = true -> path_str p = path_str q -> p = q.
Proof.
  intros Hp Hq E. rewrite <- (parse_path_str p Hp), <- (parse_path_str q Hq).
  now rewrite E.
Qed.


(** ** The output path *)

Lemma dot_index_spec (nm : string) (i : nat) :
  dot_index nm = Some i ->
  str_rfind dot nm = Some i /\ 0 < i /\ i < String.length nm - 1.
Proof.
  unfold dot_index. destruct (str_rfind dot nm) as [j|]; [|discriminate].
  destruct (0 <? j) eqn:E1, (j <? String.length nm - 1) eqn:E2;
    simpl; intros H; try discriminate.
  injection H as <-. apply Nat.ltb_lt in E1, E2. auto.
Qed.

(** The shape of a path with a non-empty suffix: its last part is
    [stem ++ suffix], the stem is not empty and holds no slash. *)
Lemma suffix_shape (p : path) :
  path_wf p = true -> suffix p <> EmptyString ->
  exists l, tail p = l ++ [name p] /\ forallb part_ok l = true /\
    (stem p +:+ suffix p)%string = name p /\ stem p <> EmptyString /\
    str_has slash (stem p) = false /\ 0 < String.length (stem p).
Proof.
  intros Hwf Hs. unfold suffix, stem in *.
  destruct (dot_index (name p)) as [i|] eqn:Ei; [|congruence].
  destruct (dot_index_spec _ _ Ei) as (_ & Hi0 & Hi1).
  unfold name in *. destruct (last (tail p)) as [nm|] eqn:El.
  2: { simpl in Hi1. lia. }
  apply last_Some in El as [l Hl]. exists l.
  unfold path_wf in Hwf. apply andb_prop in Hwf as [_ Ht].
  rewrite Hl, forallb_app in Ht. simpl in Ht. rewrite andb_true_r in Ht.
  apply andb_prop in Ht as [Hl' Hnm].
  repeat split; auto.
  - apply str_take_drop.
  - apply str_take_nonempty; lia.
  - apply str_has_take, part_ok_no_slash, Hnm.
  - rewrite str_take_length; lia.
Qed.

(** [csv_path.parent / (csv_path.stem + ".apkg")] replaces the last part
    of the path by [stem + ".apkg"]. *)
Lemma apkg_path_shape (p : path) :
  path_wf p = true -> suffix p <> EmptyString ->
  exists l, tail p = l ++ [name p] /\
    apkg_path_of p = mk_path (root p) (l ++ [stem p +:+ ".apkg"]).
Proof.
  intros Hwf Hs. destruct (suffix_shape p Hwf Hs) as (l & Ht & Hl & _ & Hne & Hsl & _).
  exists l. split; [exact Ht|].
  assert (Hpar : parent p = mk_path (root p) l).
  { unfold parent. rewrite Ht, removelast_last. destruct l; reflexivity. }
  assert (Hkey : str_has slash (stem p +:+ ".apkg") = false).
  { rewrite str_has_app, Hsl. reflexivity. }
  assert (Hpk : keep_part (stem p +:+ ".apkg") = true).
  { apply keep_part_long. rewrite str_length_append. simpl. lia. }
  unfold apkg_path_of. rewrite Hpar.
  rewrite path_div_relative.
  2: { unfold path_wf in *; simpl. apply andb_prop in Hwf as [-> _]. exact Hl. }
  2: { now apply str_has_not_starts. }
  rewrite parse_relative by now apply str_has_not_starts.
  simpl. rewrite str_split_no_sep by exact Hkey. simpl. now rewrite Hpk.
Qed.

(** C12: The package is written beside the CSV file, under the name
    [stem + ".apkg"]: same root and parent, same stem, suffix [".apkg"]. *)
Theorem apkg_path_spec (p : path) :
  path_wf p = true -> suffix p = ".csv" ->
  root (apkg_path_of p) = root p /\ parent (apkg_path_of p) = parent p /\
  name (apkg_path_of p) = (stem p +:+ ".apkg")%string /\
  stem (apkg_path_of p) = stem p /\ suffix (apkg_path_of p) = ".apkg".
Proof.
  intros Hwf Hcsv. assert (Hs : suffix p <> EmptyString) by (rewrite Hcsv; discriminate).
  destruct (suffix_shape p Hwf Hs) as (_ & _ & _ & _ & _ & _ & Hlen).
  destruct (apkg_path_shape p Hwf Hs) as (l & Ht & ->).
  assert (Hname : name (mk_path (root p) (l ++ [stem p +:+ ".apkg"]))
                  = (stem p +:+ ".apkg")%string).
  { unfold name. simpl. now rewrite last_snoc. }
  assert (Hdot : dot_index (stem p +:+ ".apkg") = Some (String.length (stem p))).
  { unfold dot_index. rewrite str_rfind_app_last by reflexivity.
    rewrite str_length_append. simpl.
    replace (0 <? String.length (stem p)) with true by (symmetry; apply Nat.ltb_lt; lia).
    replace (String.length (stem p) <? String.length (stem p) + 5 - 1) with true
      by (symmetry; apply Nat.ltb_lt; lia). reflexivity. }
  set (a := mk_path (root p) (l ++ [stem p +:+ ".apkg"])) in *.
  assert (Hstem : stem a = stem p).
  { unfold stem at 1. rewrite Hname, Hdot. apply str_take_app. }
  assert (Hsuf : suffix a = ".apkg").
  { unfold suffix. rewrite Hname, Hdot. apply str_drop_app. }
  repeat split; auto. unfold a, parent. simpl. rewrite Ht, !removelast_last. destruct l; reflexivity.
Qed.

(** C13: The package never overwrites the CSV file it was made from. *)
Theorem apkg_path_differs (p : path) :
  path_wf p = true -> suffix p = ".csv" ->
  path_str (apkg_path_of p) <> path_str p.
Proof.
  intros Hwf Hcsv E. assert (Hs : suffix p <> EmptyString) by (rewrite Hcsv; discriminate).
  apply path_str_inj in E; [|unfold apkg_path_of, path_div; apply parse_path_wf|exact Hwf].
  destruct (apkg_path_shape p Hwf Hs) as (l & Ht & Ha).
  destruct (suffix_shape p Hwf Hs) as (_ & _ & _ & Hname & _).
  rewrite Ha in E. apply (f_equal tail) in E. simpl in E. rewrite Ht in E.
  apply app_inj_tail in E as [_ E]. rewrite <- Hname, Hcsv in E.
  apply (inj (String.append (stem p))) in E. discriminate.
Qed.

(** [Path(str(p)) == p] for every well-formed path. *)
Lemma path_str_roundtrip (p : path) :
  path_wf p = true -> parse_path (path_str p) = p.
Proof. exact (parse_path_str p). Qed.

(** ** Witnesses *)

Lemma apkg_path_spec_witness :
  root (apkg_path_of (parse_path "decks/cards.csv")) = root (parse_path "decks/cards.csv") /\
  parent (apkg_path_of (parse_path "decks/cards.csv")) = parent (parse_path "decks/cards.csv") /\
  name (apkg_path_of (parse_path "decks/cards.csv")) = (stem (parse_path "decks/cards.csv") +:+ ".apkg")%string /\
  stem (apkg_path_of (parse_path "decks/cards.csv")) = stem (parse_path "decks/cards.csv") /\
  suffix (apkg_path_of (parse_path "decks/cards.csv")) = ".apkg".
Proof. apply apkg_path_spec; vm_compute; reflexivity. Defined.

Lemma apkg_path_differs_witness :
  path_str (apkg_path_of (parse_path "cards.csv")) <> path_str (parse_path "cards.csv").
Proof. apply apkg_path_differs; vm_compute; reflexivity. Defined.

Example path_str_roundtrip_example :
  parse_path (path_str (mk_path "//" ["a"; "b.csv"])) = mk_path "//" ["a"; "b.csv"].
Proof. apply path_str_roundtrip. vm_compute. reflexivity. Qed.

(** The output path of the spec's example: [cards.csv] gives [cards.apkg]. *)
Example apkg_path_cards : path_str (apkg_path_of (parse_path "cards.csv")) = "cards.apkg".
Proof. vm_compute. reflexivity. Qed.

End PurePosixPath.
