(* ===== verification/Frame.v ===== *)
(** * Frame: the pandas [DataFrame] and [Series] operations of [csv2apkg]

    The program reads the CSV file into a [DataFrame] (lines 46-49), adds
    a constant column in single mode ([df['answer'] = " "], line 50),
    takes [len(df)] (line 61), iterates with [df.iterrows()] (line 62) and,
    on each row [Series], tests [ 'question' in row ] (line 64) and reads
    [row['question']] (lines 66-67) before applying [str].

    A frame is its column labels and its rows of cells.  A cell is a
    string, a missing value ([NaN]), an integer, a binary64 float or a
    boolean, as pandas' parser produces them in object, [int64],
    [float64] and [bool] columns; the row index is not modelled (the
    program discards it, [for _, row]).  A column's dtype is read off its
    cells.  [iterrows] yields the rows of [df.values], whose dtype is the
    common type of the columns: when every column is numeric and one is
    [float64], the integers of a row are converted to floats.  A
    [Series] produced by [iterrows] carries the frame's labels as its
    index, which is what [in] tests: membership of a label, not the
    presence of a value. *)

From S2P Require Import Prelude Py Float64.
Import Float64.

Module Frame.

(** A cell: a string, a missing value, an [int64], a [float64] or a
    [bool]. *)
Inductive cell := CStr (s : string) | CNaN | CInt (z : Z) | CFloat (x : float) | CBool (b : bool).

#[export] Instance cell_eq_dec : EqDecision cell.
Proof. solve_decision. Defined.

(** [str(value)]: a missing value is the float [nan]. *)
Definition cell_str (c : cell) : string :=
  match c with
  | CStr s => s
  | CNaN => "nan"
  | CInt z => int_str z
  | CFloat x => float_repr x
  | CBool b => if b then "True" else "False"
  end.

(** The dtypes of the columns the parser makes. *)
Inductive dtype := DInt | DFloat | DBool | DObject.

#[export] Instance dtype_eq_dec : EqDecision dtype.
Proof. solve_decision. Defined.

Definition is_int_cell (c : cell) : bool := match c with CInt _ => true | _ => false end.
Definition is_float_cell (c : cell) : bool :=
  match c with CFloat _ | CNaN => true | _ => false end.
Definition is_bool_cell (c : cell) : bool := match c with CBool _ => true | _ => false end.

(** The dtype of a column, read off its cells. *)
Definition column_dtype (col : list cell) : dtype :=
  if forallb is_int_cell col then DInt
  else if forallb is_float_cell col then DFloat
  else if forallb is_bool_cell col then DBool
  else DObject.

(** [numpy.find_common_type] of the columns' dtypes. *)
Definition common_dtype (ds : list dtype) : dtype :=
  if forallb (fun d => bool_decide (d = DInt)) ds then DInt
  else if forallb (fun d => bool_decide (d = DInt) || bool_decide (d = DFloat)) ds then DFloat
  else if forallb (fun d => bool_decide (d = DBool)) ds then DBool
  else DObject.

(** An integer cell of a [float64] array. *)
Definition to_float_cell (c : cell) : cell :=
  match c with CInt z => CFloat (of_Z z) | _ => c end.

Record frame := mk_frame { columns : list string; rows : list (list cell) }.

(** Position of a label in an index (the first one). *)
Fixpoint col_index (k : string) (cols : list string) : option nat :=
  match cols with
  | [] => None
  | c :: cs => if String.eqb c k then Some 0 else option_map S (col_index k cs)
  end.

(** [len(df)] *)
Definition frame_len (f : frame) : nat := length (rows f).

(** [df[col] = v] with a scalar [v]: an existing column is overwritten in
    place, a new one is appended after the others. *)
Definition setitem (col : string) (v : cell) (f : frame) : frame :=
  match col_index col (columns f) with
  | Some i => mk_frame (columns f) (map (fun r => <[i := v]> r) (rows f))
  | None => mk_frame (columns f ++ [col]) (map (fun r => r ++ [v]) (rows f))
  end.

(** A row as [iterrows] yields it. *)
Record series := mk_series { s_index : list string; s_values : list cell }.

(** The [j]-th column. *)
Definition column (f : frame) (j : nat) : list cell := map (fun r => nth j r CNaN) (rows f).

(** [df.values]: the rows in the columns' common dtype. *)
Definition values (f : frame) : list (list cell) :=
  match common_dtype (map (fun j => column_dtype (column f j)) (seq 0 (length (columns f)))) with
  | DFloat => map (map to_float_cell) (rows f)
  | _ => rows f
  end.

(** [df.iterrows()], index dropped. *)
Definition iterrows (f : frame) : list series :=
  map (mk_series (columns f)) (values f).

(** [k in row]: membership in the row's index. *)
Definition series_contains (s : series) (k : string) : bool :=
  match col_index k (s_index s) with Some _ => true | None => false end.

(** [row[k]]: [KeyError] for a label not in the index. *)
Definition series_getitem (s : series) (k : string) : exn + cell :=
  match col_index k (s_index s) with
  | Some i => match s_values s !! i with
              | Some v => inr v
              | None => inl (KeyError k)
              end
  | None => inl (KeyError k)
  end.

(** ** Well-formed frames: distinct labels, every row as wide as the
    header. *)
Definition frame_wf (f : frame) : Prop :=
  NoDup (columns f) /\ Forall (fun r => length r = length (columns f)) (rows f).

#[export] Instance frame_wf_dec (f : frame) : Decision (frame_wf f).
Proof. unfold frame_wf. apply _. Defined.

(** ** Lemmas *)

Lemma col_index_lt (k : string) (cols : list string) (i : nat) :
  col_index k cols = Some i -> i < length cols.
Proof.
  revert i; induction cols as [|c cs IH]; simpl; intros i H; [discriminate|].
  destruct (String.eqb c k); [injection H as <-; lia|].
  destruct (col_index k cs) as [j|]; simpl in H; [|discriminate].
  injection H as <-. specialize (IH j eq_refl). lia.
Qed.

Lemma col_index_Some (k : string) (cols : list string) (i : nat) :
  col_index k cols = Some i -> cols !! i = Some k.
Proof.
  revert i; induction cols as [|c cs IH]; simpl; intros i H; [discriminate|].
  destruct (String.eqb_spec c k) as [->|_]; [now injection H as <-|].
  destruct (col_index k cs) as [j|]; simpl in H; [|discriminate].
  injection H as <-. now apply IH.
Qed.

Lemma col_index_elem (k : string) (cols : list string) :
  (exists i, col_index k cols = Some i) <-> k ∈ cols.
Proof.
  induction cols as [|c cs IH]; simpl.
  - split; [intros [? ?]; discriminate|intros H; inversion H].
  - rewrite elem_of_cons. destruct (String.eqb_spec c k) as [->|Hne].
    + split; [intros _; now left|eauto].
    + rewrite <- IH. split.
      * intros [i Hi]. right. destruct (col_index k cs); [eauto|discriminate].
      * intros [->|[i Hi]]; [congruence|]. rewrite Hi. eauto.
Qed.

Lemma col_index_snoc_new (k : string) (cols : list string) :
  col_index k cols = None -> col_index k (cols ++ [k]) = Some (length cols).
Proof.
  induction cols as [|c cs IH]; simpl; intros H.
  - now rewrite String.eqb_refl.
  - destruct (String.eqb c k); [discriminate|].
    destruct (col_index k cs); [discriminate|]. now rewrite IH.
Qed.

Lemma in_iterrows (f : frame) (s : series) :
  In s (iterrows f) <-> exists r, s = mk_series (columns f) r /\ In r (values f).
Proof.
  unfold iterrows. rewrite in_map_iff.
  split; [intros (r & <- & Hr)|intros (r & -> & Hr)]; exists r; auto.
Qed.

(** A property of rows that the conversion to floats keeps holds of the
    rows of [df.values]. *)
Lemma Forall_values (P : list cell -> Prop) (f : frame) :
  (forall r, P r -> P (map to_float_cell r)) -> Forall P (rows f) -> Forall P (values f).
Proof.
  intros HP Hr. unfold values. repeat case_match;
    first [exact Hr|apply List.Forall_map; eapply List.Forall_impl; [|exact Hr]; exact HP].
Qed.

Lemma length_values (f : frame) : length (values f) = length (rows f).
Proof. unfold values. repeat case_match; now rewrite ?List.length_map. Qed.

(** A row's values, read at a label of the index, exist when the row is as
    wide as the index. *)
(** [str] of a cell is empty only for an empty text. *)
Lemma cell_str_nonempty (c : cell) : c <> CStr EmptyString -> cell_str c <> EmptyString.
Proof.
  destruct c as [t| |z|x|[]]; simpl; try discriminate; intros Hc;
    first [apply int_str_nonempty|apply float_repr_nonempty|intros ->; now apply Hc].
Qed.

Lemma getitem_in_range (cols : list string) (r : list cell) (k : string) (i : nat) :
  length r = length cols -> col_index k cols = Some i ->
  exists v, r !! i = Some v /\ series_getitem (mk_series cols r) k = inr v.
Proof.
  intros Hlen Hi. pose proof (col_index_lt _ _ _ Hi) as Hlt.
  destruct (lookup_lt_is_Some_2 r i) as [v Hv]; [lia|].
  exists v. unfold series_getitem; simpl. now rewrite Hi, Hv.
Qed.

(** ** Theorems *)

(** [df[col] = v] keeps a frame well-formed. *)
Theorem setitem_wf (col : string) (v : cell) (f : frame) :
  frame_wf f -> frame_wf (setitem col v f).
Proof.
  intros [Hnd Hrows]. unfold setitem.
  destruct (col_index col (columns f)) as [i|] eqn:Ei; split; simpl.
  - exact Hnd.
  - apply List.Forall_map. eapply List.Forall_impl; [|exact Hrows].
    intros r Hr. now rewrite length_insert.
  - apply NoDup_app. split; [exact Hnd|split; [|apply NoDup_singleton]].
    intros x Hx ->%list_elem_of_singleton. apply (proj2 (col_index_elem col _)) in Hx.
    destruct Hx as [j Hj]. congruence.
  - apply List.Forall_map. eapply List.Forall_impl; [|exact Hrows].
    intros r Hr. simpl in Hr. rewrite !length_app. simpl. lia.
Qed.

(** After [df[col] = v] every row holds [v] under [col] (a value that the
    conversion to floats leaves alone). *)
Theorem setitem_getitem (col : string) (v : cell) (f : frame) (s : series) :
  frame_wf f -> to_float_cell v = v -> In s (iterrows (setitem col v f)) ->
  series_contains s col = true /\ series_getitem s col = inr v.
Proof.
  intros [_ Hrows] Hv Hs. apply in_iterrows in Hs as [r' [-> Hr']].
  assert (Hidx : exists i, col_index col (columns (setitem col v f)) = Some i /\
                   Forall (fun r => r !! i = Some v) (rows (setitem col v f))).
  { unfold setitem. destruct (col_index col (columns f)) as [i|] eqn:Ei; simpl.
    - exists i. split; [exact Ei|]. apply List.Forall_map.
      eapply List.Forall_impl; [|exact Hrows]. intros r Hr.
      rewrite list_lookup_insert_eq; [reflexivity|]. pose proof (col_index_lt _ _ _ Ei). simpl in Hr. lia.
    - exists (length (columns f)). split; [now apply col_index_snoc_new|].
      apply List.Forall_map. eapply List.Forall_impl; [|exact Hrows]. intros r Hr.
      simpl in Hr. rewrite lookup_app_r by lia. now rewrite Hr, Nat.sub_diag. }
  destruct Hidx as (i & Hi & Hall).
  assert (Hall' : Forall (fun r => r !! i = Some v) (values (setitem col v f))).
  { apply Forall_values; [|exact Hall]. intros r Hr. rewrite <- Hv. now apply list_lookup_map. }
  rewrite List.Forall_forall in Hall'. specialize (Hall' r' Hr').
  unfold series_contains, series_getitem; simpl. now rewrite Hi, Hall'.
Qed.

(** In a well-formed frame, [row[k]] never raises for a label [k in row]. *)
Theorem getitem_contains (f : frame) (s : series) (k : string) :
  frame_wf f -> In s (iterrows f) -> series_contains s k = true ->
  exists v, series_getitem s k = inr v.
Proof.
  intros [_ Hrows] Hs Hk. apply in_iterrows in Hs as [r [-> Hr]].
  assert (Hv : Forall (fun r => length r = length (columns f)) (values f)).
  { apply Forall_values; [|exact Hrows]. intros r' Hr'. now rewrite List.length_map. }
  rewrite List.Forall_forall in Hv. unfold series_contains in Hk; simpl in Hk.
  destruct (col_index k (columns f)) as [i|] eqn:Ei; [|discriminate].
  destruct (getitem_in_range (columns f) r k i (Hv r Hr) Ei) as [v [_ Hv']].
  eauto.
Qed.

(** ** Witnesses *)

Example setitem_wf_example :
  frame_wf (setitem "answer" (CStr " ") (mk_frame ["question"] [[CStr "Hello"]; [CNaN]])).
Proof.
  apply setitem_wf. apply (bool_decide_unpack _). vm_compute. reflexivity.
Qed.

End Frame.
