(* ===== verification/Infer.v ===== *)
(** * Infer: pandas' conversion of a parsed column to [int64], [float64], [bool] or strings

    After tokenizing, pandas' C parser converts each column
    ([pandas/_libs/parsers.pyx], [TextReader._convert_tokens]): it tries
    the dtypes [int64], [float64], [bool] and [object] in this order and
    keeps the first that reads every field.  A field spelled as a missing
    value ([STR_NA_VALUES]) is [NaN] in every dtype; a column of integers
    or booleans that has a missing value is upcast ([_maybe_upcast]): the
    integers become floats, the booleans objects.

    - [str_to_int64] is [str_to_int64] of [pandas/_libs/src/parser/
      tokenizer.c]: blanks, a sign, digits and blanks, accumulated with
      the overflow guards [pre_min] / [pre_max] of the code, so that a
      value outside [[-2^63, 2^63 - 1]] is [ERROR_OVERFLOW];
    - [precise_xstrtod] is the default float converter of the C parser:
      up to 17 significant digits are accumulated in a [double] (further
      integer digits only raise the exponent, further decimals are
      dropped), then the [double] is multiplied or divided by the
      [double] nearest to [10^k] ([e[k]] in the code); every operation is
      binary64 arithmetic ([Float64]); [try_double] then accepts the
      field if nothing is left after it, or if it spells an infinity
      ([inf], [Infinity], with a sign, in any case);
    - [to_boolean] accepts [true] and [false] in any case.

    The column conversion [convert_column] returns [Unmodelled] when the
    first field that is not an [int64] overflows it: pandas then tries
    [uint64] ([_try_uint64]), which the model does not follow.  The
    exponent of [precise_xstrtod] is an [int] in C; the model computes it
    as an integer, which is the C behaviour for the exponents of at most
    nine digits that a file of numbers holds.

    The theorems: the conversion keeps the number of fields and never
    gives a text spelled as a missing value; a column of text fields is
    kept as it is; [str_to_int64] reads back [str(z)] for exactly the
    integers of the [int64] range and returns only numbers of that
    range, whatever the text; a column of [int64] texts is read as
    [int64], and as [float64] when one of its fields is missing, which
    [Converter] applies to the answers of a double-mode file. *)

From S2P Require Import Prelude Py Float64 Frame.
From Stdlib Require Import Floats.SpecFloat.
Import Float64 Frame.

Module Infer.

(** pandas' [STR_NA_VALUES] *)
Definition na_values : list string :=
  [EmptyString; "#N/A"; "#N/A N/A"; "#NA"; "-1.#IND"; "-1.#QNAN"; "-NaN"; "-nan"; "1.#IND";
   "1.#QNAN"; "<NA>"; "N/A"; "NA"; "NULL"; "NaN"; "None"; "n/a"; "nan"; "null"].

Definition is_na (s : string) : bool := bool_decide (s ∈ na_values).

(** [isspace_ascii]: blank, tab, line feed, vertical tab, form feed,
    carriage return. *)
Definition isspace_ascii (c : ascii) : bool :=
  let n := nat_of_ascii c in (n =? 32) || ((9 <=? n) && (n <=? 13)).

(** [isdigit_ascii] *)
Definition isdigit_ascii (c : ascii) : bool :=
  let n := nat_of_ascii c in (48 <=? n) && (n <=? 57).

Definition digit_value (c : ascii) : Z := Z.of_nat (nat_of_ascii c - 48).

Fixpoint skip_spaces (p : list ascii) : list ascii :=
  match p with
  | c :: p' => if isspace_ascii c then skip_spaces p' else p
  | [] => []
  end.

(** ** [str_to_int64] *)

Inductive int_error := ERROR_NO_DIGITS | ERROR_OVERFLOW | ERROR_INVALID_CHARS.

#[export] Instance int_error_eq_dec : EqDecision int_error.
Proof. solve_decision. Defined.

Definition INT64_MIN : Z := (- 2 ^ 63)%Z.
Definition INT64_MAX : Z := (2 ^ 63 - 1)%Z.

(** The digits of a negative number: [pre_min = int_min / 10] and
    [dig_pre_min = -(int_min % 10)], with C's division. *)
Fixpoint int_digits_neg (p : list ascii) (number : Z) : int_error + (Z * list ascii) :=
  match p with
  | d :: p' =>
      if isdigit_ascii d then
        let pre_min := Z.quot INT64_MIN 10 in
        let dig_pre_min := (- Z.rem INT64_MIN 10)%Z in
        if (pre_min <? number)%Z || ((number =? pre_min)%Z && (digit_value d <=? dig_pre_min)%Z)
        then int_digits_neg p' (number * 10 - digit_value d)%Z
        else inl ERROR_OVERFLOW
      else inr (number, p)
  | [] => inr (number, [])
  end.

(** The digits of a non-negative number: [pre_max = int_max / 10] and
    [dig_pre_max = int_max % 10]. *)
Fixpoint int_digits_pos (p : list ascii) (number : Z) : int_error + (Z * list ascii) :=
  match p with
  | d :: p' =>
      if isdigit_ascii d then
        let pre_max := Z.quot INT64_MAX 10 in
        let dig_pre_max := Z.rem INT64_MAX 10 in
        if (number <? pre_max)%Z || ((number =? pre_max)%Z && (digit_value d <=? dig_pre_max)%Z)
        then int_digits_pos p' (number * 10 + digit_value d)%Z
        else inl ERROR_OVERFLOW
      else inr (number, p)
  | [] => inr (number, [])
  end.

(** The optional sign. *)
Definition parse_sign (p : list ascii) : bool * list ascii :=
  match p with
  | "-"%char :: p' => (true, p')
  | "+"%char :: p' => (false, p')
  | _ => (false, p)
  end.

Definition str_to_int64 (s : string) : int_error + Z :=
  let '(isneg, p) := parse_sign (skip_spaces (list_ascii_of_string s)) in
  match p with
  | d :: _ =>
      if isdigit_ascii d then
        match (if isneg then int_digits_neg p 0 else int_digits_pos p 0) with
        | inl e => inl e
        | inr (number, rest) =>
            match skip_spaces rest with
            | [] => inr number
            | _ => inl ERROR_INVALID_CHARS
            end
        end
      else inl ERROR_NO_DIGITS
  | [] => inl ERROR_NO_DIGITS
  end.

(** ** [precise_xstrtod] *)

(** [e[k]], the [double] nearest to [10^k]. *)
Definition e10 (k : Z) : float := of_Z (10 ^ k).

Definition max_digits : Z := 17.

(** The integer digits: [number = number * 10. + digit] for the first
    17 digits, [++exponent] for the others. *)
Fixpoint int_part (p : list ascii) (number : float) (num_digits exponent : Z)
  : float * Z * Z * list ascii :=
  match p with
  | c :: p' =>
      if isdigit_ascii c then
        if (num_digits <? max_digits)%Z
        then int_part p' (fadd (fmul number (of_Z 10)) (of_Z (digit_value c))) (num_digits + 1) exponent
        else int_part p' number num_digits (exponent + 1)
      else (number, num_digits, exponent, p)
  | [] => (number, num_digits, exponent, [])
  end.

(** The decimals, while fewer than 17 digits have been read. *)
Fixpoint frac_part (p : list ascii) (number : float) (num_digits num_decimals : Z)
  : float * Z * Z * list ascii :=
  match p with
  | c :: p' =>
      if (num_digits <? max_digits)%Z && isdigit_ascii c
      then frac_part p' (fadd (fmul number (of_Z 10)) (of_Z (digit_value c))) (num_digits + 1) (num_decimals + 1)
      else (number, num_digits, num_decimals, p)
  | [] => (number, num_digits, num_decimals, [])
  end.

Fixpoint skip_digits (p : list ascii) : list ascii :=
  match p with
  | c :: p' => if isdigit_ascii c then skip_digits p' else p
  | [] => []
  end.

(** The digits of the exponent, at most 17. *)
Fixpoint exp_part (p : list ascii) (n num_digits : Z) : Z * Z * list ascii :=
  match p with
  | c :: p' =>
      if (num_digits <? max_digits)%Z && isdigit_ascii c
      then exp_part p' (n * 10 + digit_value c) (num_digits + 1)
      else (n, num_digits, p)
  | [] => (n, num_digits, [])
  end.

Definition is_e (c : ascii) : bool := Ascii.eqb c "e"%char || Ascii.eqb c "E"%char.

(** [precise_xstrtod(str, &endptr, '.', 'E', '\0', 1, &error, NULL)]: the
    number, whether [error] is set, and what follows the number. *)
Definition precise_xstrtod (s : string) : float * bool * list ascii :=
  let p := skip_spaces (list_ascii_of_string s) in
  let '(negative, p) :=
    match p with
    | "-"%char :: p' => (true, p')
    | "+"%char :: p' => (false, p')
    | _ => (false, p)
    end in
  let '(number, num_digits, exponent, p) := int_part p (of_Z 0) 0 0 in
  let '(number, num_digits, exponent, p) :=
    match p with
    | "."%char :: p' =>
        let '(number, num_digits', num_decimals, p'') := frac_part p' number num_digits 0 in
        let p''' := if (max_digits <=? num_digits')%Z then skip_digits p'' else p'' in
        (number, num_digits', (exponent - num_decimals)%Z, p''')
    | _ => (number, num_digits, exponent, p)
    end in
  if (num_digits =? 0)%Z then (of_Z 0, true, p)
  else
    let number := if negative then fopp number else number in
    let '(exponent, p) :=
      match p with
      | c :: p1 =>
          if is_e c then
            let '(eneg, p2) :=
              match p1 with
              | "-"%char :: p2 => (true, p2)
              | "+"%char :: p2 => (false, p2)
              | _ => (false, p1)
              end in
            let '(n, nd, p3) := exp_part p2 0 0 in
            let exponent := if eneg then (exponent - n)%Z else (exponent + n)%Z in
            (* no digit after the [e]: the last character read is given back *)
            let p4 := if (nd =? 0)%Z then (if Nat.eqb (length p2) (length p1) then c :: p1 else p1)
                      else p3 in
            (exponent, p4)
          else (exponent, p)
      | [] => (exponent, p)
      end in
    if (308 <? exponent)%Z then (S754_infinity false, true, p)
    else
      let number :=
        if (0 <? exponent)%Z then fmul number (e10 exponent)
        else if (exponent <? -308)%Z then
          if (exponent <? -616)%Z then of_Z 0
          else fdiv (fdiv number (e10 (-308 - exponent))) (e10 308)
        else fdiv number (e10 (- exponent)) in
      let error := match number with S754_infinity _ => true | _ => false end in
      (number, error, skip_spaces p).

(** [strcasecmp(a, b) == 0] *)
Definition lower (c : ascii) : ascii :=
  let n := nat_of_ascii c in if (65 <=? n) && (n <=? 90) then ascii_of_nat (n + 32) else c.

Definition str_lower (s : string) : string := string_of_list_ascii (map lower (list_ascii_of_string s)).

Definition strcaseeq (a b : string) : bool := String.eqb (str_lower a) (str_lower b).

(** [_try_double] for one field that is not a missing value. *)
Definition try_double (s : string) : option float :=
  let '(x, error, rest) := precise_xstrtod s in
  if negb error && bool_decide (rest = []) then Some x
  else if strcaseeq s "inf" || strcaseeq s "+inf" || strcaseeq s "Infinity" || strcaseeq s "+Infinity"
  then Some (S754_infinity false)
  else if strcaseeq s "-inf" || strcaseeq s "-Infinity" then Some (S754_infinity true)
  else None.

(** [to_boolean] *)
Definition to_boolean (s : string) : option bool :=
  if strcaseeq s "TRUE" then Some true else if strcaseeq s "FALSE" then Some false else None.

(** ** The conversion of a column *)

(** [_try_int64]: the first field in error decides. *)
Fixpoint try_int64 (col : list string) : int_error + list (option Z) :=
  match col with
  | [] => inr []
  | s :: col' =>
      if is_na s then match try_int64 col' with inl e => inl e | inr r => inr (None :: r) end
      else match str_to_int64 s with
           | inl e => inl e
           | inr z => match try_int64 col' with inl e => inl e | inr r => inr (Some z :: r) end
           end
  end.

Fixpoint try_float64 (col : list string) : option (list cell) :=
  match col with
  | [] => Some []
  | s :: col' =>
      match (if is_na s then Some CNaN else option_map CFloat (try_double s)), try_float64 col' with
      | Some c, Some r => Some (c :: r)
      | _, _ => None
      end
  end.

Fixpoint try_bool (col : list string) : option (list cell) :=
  match col with
  | [] => Some []
  | s :: col' =>
      match (if is_na s then Some CNaN else option_map CBool (to_boolean s)), try_bool col' with
      | Some c, Some r => Some (c :: r)
      | _, _ => None
      end
  end.

Definition object_cell (s : string) : cell := if is_na s then CNaN else CStr s.

(** [_convert_tokens] with no dtype given: [int64] (upcast to [float64]
    when a value is missing), [float64], [bool], strings. *)
Definition convert_column (col : list string) : exn + list cell :=
  match try_int64 col with
  | inr zs =>
      if forallb (fun o => bool_decide (o <> None)) zs
      then inr (map (fun o => match o with Some z => CInt z | None => CNaN end) zs)
      else inr (map (fun o => match o with Some z => CFloat (of_Z z) | None => CNaN end) zs)
  | inl ERROR_OVERFLOW => inl (Unmodelled "an integer out of the int64 range (uint64 conversion)")
  | inl _ =>
      match try_float64 col with
      | Some cs => inr cs
      | None =>
          match try_bool col with
          | Some cs => inr cs
          | None => inr (map object_cell col)
          end
      end
  end.

Fixpoint convert_columns (cols : list (list string)) : exn + list (list cell) :=
  match cols with
  | [] => inr []
  | col :: cols' =>
      match convert_column col with
      | inl e => inl e
      | inr c => match convert_columns cols' with inl e => inl e | inr cs => inr (c :: cs) end
      end
  end.

(** A field that every dtype but [object] rejects: not a missing value,
    not an [int64] (nor one too large for it), not a float, not a
    boolean. *)
Definition is_text (s : string) : bool :=
  negb (is_na s) &&
  match str_to_int64 s with inl ERROR_OVERFLOW | inr _ => false | inl _ => true end &&
  match try_double s with None => true | Some _ => false end &&
  match to_boolean s with None => true | Some _ => false end.

(** A text cell is not spelled as a missing value. *)
Definition cell_not_na (c : cell) : Prop := forall t, c = CStr t -> t ∉ na_values.

(** The number a run of digits denotes, read after [n] as the loops of
    [str_to_int64] read it. *)
Definition digits_value (l : list ascii) (n : Z) : Z :=
  fold_left (fun acc d => acc * 10 + digit_value d)%Z l n.
Definition digits_value_neg (l : list ascii) (n : Z) : Z :=
  fold_left (fun acc d => acc * 10 - digit_value d)%Z l n.

(** ** Lemmas *)

Lemma INT64_guards :
  Z.quot INT64_MAX 10 = 922337203685477580%Z /\ Z.rem INT64_MAX 10 = 7%Z /\
  Z.quot INT64_MIN 10 = (-922337203685477580)%Z /\ (- Z.rem INT64_MIN 10)%Z = 8%Z.
Proof. vm_compute. repeat split. Qed.

Lemma digit_value_bound (d : ascii) : isdigit_ascii d = true -> (0 <= digit_value d <= 9)%Z.
Proof. unfold isdigit_ascii, digit_value. intros H. nat_bools. lia. Qed.

(** The guard of [int_digits_pos]: the next number stays below [INT64_MAX]. *)
Lemma pos_guard (n d : Z) : (0 <= n)%Z -> (0 <= d <= 9)%Z ->
  ((n <? Z.quot INT64_MAX 10)%Z || ((n =? Z.quot INT64_MAX 10)%Z && (d <=? Z.rem INT64_MAX 10)%Z))
  = (n * 10 + d <=? INT64_MAX)%Z.
Proof.
  destruct INT64_guards as (-> & -> & _). unfold INT64_MAX. intros Hn Hd.
  destruct (Z.ltb_spec n 922337203685477580), (Z.eqb_spec n 922337203685477580),
    (Z.leb_spec d 7), (Z.leb_spec (n * 10 + d) (2 ^ 63 - 1)); simpl; lia.
Qed.

Lemma neg_guard (n d : Z) : (n <= 0)%Z -> (0 <= d <= 9)%Z ->
  ((Z.quot INT64_MIN 10 <? n)%Z || ((n =? Z.quot INT64_MIN 10)%Z && (d <=? - Z.rem INT64_MIN 10)%Z))
  = (INT64_MIN <=? n * 10 - d)%Z.
Proof.
  destruct INT64_guards as (_ & _ & -> & ->). unfold INT64_MIN. intros Hn Hd.
  destruct (Z.ltb_spec (-922337203685477580) n), (Z.eqb_spec n (-922337203685477580)),
    (Z.leb_spec d 8), (Z.leb_spec (- 2 ^ 63) (n * 10 - d)); simpl; lia.
Qed.

Lemma digits_value_ge (l : list ascii) (n : Z) :
  Forall (fun d => isdigit_ascii d = true) l -> (0 <= n)%Z -> (n <= digits_value l n)%Z.
Proof.
  revert n. induction l as [|d l IH]; intros n Hl Hn; [simpl; lia|]. inversion Hl; subst.
  pose proof (digit_value_bound d ltac:(assumption)). cbn [digits_value fold_left].
  etrans; [|apply IH; [assumption|lia]]. lia.
Qed.

Lemma digits_value_neg_le (l : list ascii) (n : Z) :
  Forall (fun d => isdigit_ascii d = true) l -> (n <= 0)%Z -> (digits_value_neg l n <= n)%Z.
Proof.
  revert n. induction l as [|d l IH]; intros n Hl Hn; [simpl; lia|]. inversion Hl; subst.
  pose proof (digit_value_bound d ltac:(assumption)). cbn [digits_value_neg fold_left].
  etrans; [apply IH; [assumption|lia]|]. lia.
Qed.

Lemma digits_value_neg_opp (l : list ascii) (n : Z) :
  digits_value_neg l (- n) = (- digits_value l n)%Z.
Proof.
  revert n. induction l as [|d l IH]; intros n; [reflexivity|]. cbn [digits_value_neg digits_value fold_left].
  rewrite <- IH. f_equal. lia.
Qed.

Lemma digit_not_space (d : ascii) : isdigit_ascii d = true -> isspace_ascii d = false.
Proof.
  unfold isdigit_ascii, isspace_ascii. cbv zeta. intros H. nat_bools.
  destruct (Nat.eqb_spec (nat_of_ascii d) 32); [lia|].
  destruct (Nat.leb_spec 9 (nat_of_ascii d)), (Nat.leb_spec (nat_of_ascii d) 13); simpl; lia.
Qed.

Lemma parse_sign_digit (d : ascii) (p : list ascii) :
  isdigit_ascii d = true -> parse_sign (d :: p) = (false, d :: p).
Proof. destruct d as [[] [] [] [] [] [] [] []]; (discriminate || reflexivity). Qed.

Lemma pretty_N_char_isdigit (k : N) :
  (k < 10)%N -> isdigit_ascii (pretty_N_char k) = true /\ digit_value (pretty_N_char k) = Z.of_N k.
Proof.
  intros Hk. destruct (pretty_N_char_code k Hk) as [Hr Hv].
  unfold isdigit_ascii, digit_value. cbv zeta.
  split; [apply andb_true_iff; split; apply Nat.leb_le; lia|lia].
Qed.

(** The text [pretty_N_go] prepends is the digits of its number. *)
Lemma pretty_N_go_ascii_digits (x : N) (s : string) :
  exists l, list_ascii_of_string (pretty_N_go x s) = l ++ list_ascii_of_string s /\
    Forall (fun d => isdigit_ascii d = true) l /\ digits_value l 0 = Z.of_N x /\ ((0 < x)%N -> l <> []).
Proof.
  revert s. induction (N.lt_wf_0 x) as [x _ IH]; intros s.
  destruct (decide (x = 0%N)) as [->|Hx]; [exists []; rewrite pretty_N_go_0; repeat split; auto; lia|].
  rewrite pretty_N_go_step by lia.
  destruct (IH (x `div` 10)%N ltac:(apply N.div_lt; lia) (String (pretty_N_char (x `mod` 10)) s))
    as (l & Hs & Hd & Hv & _).
  destruct (pretty_N_char_isdigit (x `mod` 10)) as [Hcd Hcv]; [apply N.mod_lt; lia|].
  exists (l ++ [pretty_N_char (x `mod` 10)]). rewrite Hs, <- app_assoc. split; [reflexivity|].
  split; [apply List.Forall_app; split; [exact Hd|constructor; [exact Hcd|constructor]]|].
  split; [|intros _; destruct l; discriminate].
  unfold digits_value in *. rewrite fold_left_app. cbn [fold_left]. rewrite Hv, Hcv.
  pose proof (N.div_mod x 10 ltac:(discriminate)) as Hdm.
  remember (x `div` 10)%N as q. remember (x `mod` 10)%N as r. lia.
Qed.

(** A run of digits is read whole, unless its value leaves [int64]. *)
Lemma int_digits_pos_digits (l : list ascii) (n : Z) :
  Forall (fun d => isdigit_ascii d = true) l -> (0 <= n <= INT64_MAX)%Z ->
  int_digits_pos l n =
    if (digits_value l n <=? INT64_MAX)%Z then inr (digits_value l n, []) else inl ERROR_OVERFLOW.
Proof.
  revert n. induction l as [|d l IH]; intros n Hl Hn.
  - simpl. now rewrite (proj2 (Z.leb_le n INT64_MAX)) by lia.
  - inversion Hl as [|? ? Hd Hl']; subst. pose proof (digit_value_bound d Hd).
    cbn [int_digits_pos digits_value fold_left]. rewrite Hd. cbv zeta. rewrite pos_guard by lia.
    destruct (Z.leb_spec (n * 10 + digit_value d) INT64_MAX) as [Hle|Hgt].
    + rewrite IH; [reflexivity|assumption|lia].
    + pose proof (digits_value_ge l (n * 10 + digit_value d) Hl' ltac:(lia)).
      unfold digits_value in *. now rewrite (proj2 (Z.leb_gt _ INT64_MAX)) by lia.
Qed.

Lemma int_digits_neg_digits (l : list ascii) (n : Z) :
  Forall (fun d => isdigit_ascii d = true) l -> (INT64_MIN <= n <= 0)%Z ->
  int_digits_neg l n =
    if (INT64_MIN <=? digits_value_neg l n)%Z then inr (digits_value_neg l n, []) else inl ERROR_OVERFLOW.
Proof.
  revert n. induction l as [|d l IH]; intros n Hl Hn.
  - simpl. now rewrite (proj2 (Z.leb_le INT64_MIN n)) by lia.
  - inversion Hl as [|? ? Hd Hl']; subst. pose proof (digit_value_bound d Hd).
    cbn [int_digits_neg digits_value_neg fold_left]. rewrite Hd. cbv zeta. rewrite neg_guard by lia.
    destruct (Z.leb_spec INT64_MIN (n * 10 - digit_value d)) as [Hle|Hgt].
    + rewrite IH; [reflexivity|assumption|lia].
    + pose proof (digits_value_neg_le l (n * 10 - digit_value d) Hl' ltac:(lia)).
      unfold digits_value_neg in *. now rewrite (proj2 (Z.leb_gt INT64_MIN _)) by lia.
Qed.


Lemma try_int64_length (col : list string) (zs : list (option Z)) :
  try_int64 col = inr zs -> length zs = length col.
Proof.
  revert zs. induction col as [|s col IH]; intros zs H; simpl in H; [now injection H as <-|].
  destruct (is_na s); [|destruct (str_to_int64 s); [discriminate|]];
    destruct (try_int64 col) eqn:E; try discriminate; injection H as <-; simpl; now rewrite (IH _ eq_refl).
Qed.

Lemma try_float64_length (col : list string) (cs : list cell) :
  try_float64 col = Some cs -> length cs = length col /\ Forall cell_not_na cs.
Proof.
  revert cs. induction col as [|s col IH]; intros cs H; simpl in H; [injection H as <-; auto|].
  destruct (if is_na s then _ else _) as [c|] eqn:Ec; [|discriminate].
  destruct (try_float64 col) as [r|]; [|discriminate]. injection H as <-.
  destruct (IH r eq_refl) as [Hl Hn]. split; [simpl; lia|constructor; [|exact Hn]].
  intros t ->. destruct (is_na s); [discriminate|]. now destruct (try_double s).
Qed.

Lemma try_bool_length (col : list string) (cs : list cell) :
  try_bool col = Some cs -> length cs = length col /\ Forall cell_not_na cs.
Proof.
  revert cs. induction col as [|s col IH]; intros cs H; simpl in H; [injection H as <-; auto|].
  destruct (if is_na s then _ else _) as [c|] eqn:Ec; [|discriminate].
  destruct (try_bool col) as [r|]; [|discriminate]. injection H as <-.
  destruct (IH r eq_refl) as [Hl Hn]. split; [simpl; lia|constructor; [|exact Hn]].
  intros t ->. destruct (is_na s); [discriminate|]. now destruct (to_boolean s).
Qed.

Lemma object_cell_not_na (s : string) : cell_not_na (object_cell s).
Proof.
  intros t. unfold object_cell, is_na. case_bool_decide as Hs; [discriminate|]. now intros [= <-].
Qed.

(** The conversion keeps the fields' number, and its text cells are not
    missing-value spellings. *)
Lemma convert_column_spec (col : list string) (cs : list cell) :
  convert_column col = inr cs -> length cs = length col /\ Forall cell_not_na cs.
Proof.
  unfold convert_column. destruct (try_int64 col) as [e|zs] eqn:Ei.
  - assert (Hobj : @inr exn _ (map object_cell col) = inr cs -> length cs = length col /\ Forall cell_not_na cs).
    { intros [= <-]. rewrite List.length_map. split; [reflexivity|].
      apply List.Forall_map, List.Forall_forall; intros; apply object_cell_not_na. }
    destruct e; [| discriminate |];
      (destruct (try_float64 col) as [r|] eqn:Ef; [intros [= <-]; now apply try_float64_length|]);
      (destruct (try_bool col) as [r|] eqn:Eb; [intros [= <-]; now apply try_bool_length|exact Hobj]).
  - apply try_int64_length in Ei.
    destruct (forallb _ zs); intros [= <-]; rewrite List.length_map; (split; [exact Ei|]);
      apply List.Forall_map, List.Forall_forall; intros [z|] _ t; discriminate.
Qed.

Lemma convert_columns_spec (cols : list (list string)) (cs : list (list cell)) :
  convert_columns cols = inr cs ->
  Forall2 (fun col c => length c = length col /\ Forall cell_not_na c) cols cs.
Proof.
  revert cs. induction cols as [|col cols IH]; intros cs H; simpl in H; [injection H as <-; constructor|].
  destruct (convert_column col) as [e|c] eqn:Ec; [discriminate|].
  destruct (convert_columns cols) as [e|r]; [discriminate|]. injection H as <-.
  constructor; [now apply convert_column_spec|]. now apply IH.
Qed.

(** A column of text fields is kept as its strings. *)
Lemma convert_column_text (col : list string) :
  Forall (fun s => is_text s = true) col -> convert_column col = inr (map CStr col).
Proof.
  destruct col as [|s col]; [reflexivity|]. intros Hall. inversion Hall as [|? ? Hs Hrest]; subst.
  unfold is_text in Hs. destruct (is_na s) eqn:Ena; [discriminate|].
  destruct (str_to_int64 s) as [e|z] eqn:Ez; [|discriminate].
  destruct (try_double s) eqn:Ed; [destruct e; discriminate|].
  destruct (to_boolean s) eqn:Eb; [destruct e; discriminate|].
  assert (He : e <> ERROR_OVERFLOW) by (intros ->; discriminate).
  assert (Hobj : map object_cell col = map CStr col).
  { apply List.map_ext_in; intros t Ht; rewrite List.Forall_forall in Hrest.
    specialize (Hrest t Ht). unfold object_cell, is_text in *. now destruct (is_na t). }
  unfold convert_column. cbn [try_int64 try_float64 try_bool]. rewrite Ena, Ez, Ed, Eb.
  cbn [option_map map]. rewrite Hobj. unfold object_cell. rewrite Ena.
  destruct e; [reflexivity|contradiction|reflexivity].
Qed.

Lemma pretty_pos_digits (p : positive) :
  exists d l, list_ascii_of_string (pretty (Npos p)) = d :: l /\
    Forall (fun c => isdigit_ascii c = true) (d :: l) /\ digits_value (d :: l) 0 = Zpos p.
Proof.
  unfold pretty, pretty_N. rewrite decide_False by discriminate.
  destruct (pretty_N_go_ascii_digits (Npos p) EmptyString) as (l & Hs & Hd & Hv & Hne).
  rewrite app_nil_r in Hs. destruct l as [|d l]; [now destruct Hne|]. eauto.
Qed.

Lemma int_digits_pos_range (l rest : list ascii) (n v : Z) :
  (0 <= n <= INT64_MAX)%Z -> int_digits_pos l n = inr (v, rest) -> (0 <= v <= INT64_MAX)%Z.
Proof.
  revert n. induction l as [|d l IH]; intros n Hn; simpl; [intros [= <- _]; exact Hn|].
  destruct (isdigit_ascii d) eqn:Hd; [|intros [= <- _]; exact Hn].
  pose proof (digit_value_bound d Hd). rewrite pos_guard by lia.
  destruct (Z.leb_spec (n * 10 + digit_value d) INT64_MAX); [|discriminate]. apply IH. lia.
Qed.

Lemma int_digits_neg_range (l rest : list ascii) (n v : Z) :
  (INT64_MIN <= n <= 0)%Z -> int_digits_neg l n = inr (v, rest) -> (INT64_MIN <= v <= 0)%Z.
Proof.
  revert n. induction l as [|d l IH]; intros n Hn; simpl; [intros [= <- _]; exact Hn|].
  destruct (isdigit_ascii d) eqn:Hd; [|intros [= <- _]; exact Hn].
  pose proof (digit_value_bound d Hd). rewrite neg_guard by lia.
  destruct (Z.leb_spec INT64_MIN (n * 10 - digit_value d)); [|discriminate]. apply IH. lia.
Qed.

Lemma int_str_read (z : Z) :
  str_to_int64 (int_str z) =
    if bool_decide (INT64_MIN <= z <= INT64_MAX)%Z then inr z else inl ERROR_OVERFLOW.
Proof.
  destruct z as [|p|p]; [reflexivity| |].
  - destruct (pretty_pos_digits p) as (d & l & Hs & Hd & Hv).
    inversion Hd as [|? ? Hd0 _]; subst.
    unfold str_to_int64, int_str, pretty at 1, pretty_Z.
    change (pretty p) with (pretty (N.pos p)). rewrite Hs. cbn [skip_spaces]. rewrite (digit_not_space d Hd0), parse_sign_digit, Hd0 by exact Hd0.
    rewrite int_digits_pos_digits, Hv by (assumption || (unfold INT64_MAX; lia)).
    destruct (Z.leb_spec (Zpos p) INT64_MAX); [rewrite bool_decide_eq_true_2|rewrite bool_decide_eq_false_2];
      try reflexivity; unfold INT64_MIN in *; lia.
  - destruct (pretty_pos_digits p) as (d & l & Hs & Hd & Hv).
    inversion Hd as [|? ? Hd0 _]; subst.
    unfold str_to_int64, int_str, pretty at 1, pretty_Z.
    change (pretty p) with (pretty (N.pos p)).
    cbn [list_ascii_of_string String.append]. rewrite Hs. cbn [skip_spaces].
    change (isspace_ascii "-") with false. cbn [parse_sign]. rewrite Hd0.
    rewrite int_digits_neg_digits by (assumption || (unfold INT64_MIN; lia)).
    rewrite <- (Z.opp_0), digits_value_neg_opp, Hv. change (- Z.pos p)%Z with (Z.neg p).
    destruct (Z.leb_spec INT64_MIN (Zneg p)); [rewrite bool_decide_eq_true_2|rewrite bool_decide_eq_false_2];
      try reflexivity; unfold INT64_MAX in *; lia.
Qed.

(** The missing-value strings are not integers. *)
Lemma na_not_int (s : string) : s ∈ na_values -> exists e, str_to_int64 s = inl e.
Proof.
  rewrite list_elem_of_In. simpl. intros H. repeat destruct H as [<-|H]; try contradiction;
    eexists; vm_compute; reflexivity.
Qed.

Lemma int_str_not_na (z : Z) : (INT64_MIN <= z <= INT64_MAX)%Z -> is_na (int_str z) = false.
Proof.
  intros Hz. unfold is_na. apply bool_decide_eq_false_2. intros Hna.
  destruct (na_not_int _ Hna) as [e He]. rewrite int_str_read, bool_decide_eq_true_2 in He by exact Hz.
  discriminate.
Qed.

(** The text of an optional integer, [None] written as an empty field. *)
Lemma try_int64_ints (ozs : list (option Z)) :
  Forall (fun o => match o with Some z => (INT64_MIN <= z <= INT64_MAX)%Z | None => True end) ozs ->
  try_int64 (map (fun o => match o with Some z => int_str z | None => EmptyString end) ozs) = inr ozs.
Proof.
  induction 1 as [|[z|] ozs Hz _ IH]; [reflexivity| |]; cbn [map try_int64].
  - rewrite int_str_not_na, int_str_read, bool_decide_eq_true_2 by exact Hz. now rewrite IH.
  - change (is_na EmptyString) with true. now rewrite IH.
Qed.

(** ** Theorems *)

(** pandas' [str_to_int64] reads back the decimal text [str(z)] of
    every integer of the [int64] range, and reports an overflow for every
    integer outside it: its guards [pre_max], [dig_pre_max], [pre_min]
    and [dig_pre_min] are exactly the bounds of [int64]. *)
Lemma str_to_int64_int_str (z : Z) :
  str_to_int64 (int_str z) =
    if (INT64_MIN <=? z)%Z && (z <=? INT64_MAX)%Z then inr z else inl ERROR_OVERFLOW.
Proof.
  rewrite int_str_read. destruct (Z.leb_spec INT64_MIN z), (Z.leb_spec z INT64_MAX); simpl;
    [rewrite bool_decide_eq_true_2|rewrite bool_decide_eq_false_2..]; (reflexivity || lia).
Qed.

(** A column of [int64] texts is read as integers, the column's
    [int64] dtype; when one of its fields is empty (a missing value) the
    whole column is read as floats, each integer [z] as the [double]
    nearest to it, printed [z.0], and the missing field as [NaN]. *)
Lemma convert_column_ints (ozs : list (option Z)) :
  Forall (fun o => match o with Some z => (INT64_MIN <= z <= INT64_MAX)%Z | None => True end) ozs ->
  convert_column (map (fun o => match o with Some z => int_str z | None => EmptyString end) ozs) =
  inr (if forallb (fun o => bool_decide (o <> None)) ozs
       then map (fun o => match o with Some z => CInt z | None => CNaN end) ozs
       else map (fun o => match o with Some z => CFloat (of_Z z) | None => CNaN end) ozs).
Proof.
  intros Hr. unfold convert_column. rewrite try_int64_ints by exact Hr.
  now destruct (forallb _ ozs).
Qed.

Example convert_column_ints_example :
  Forall (fun o => match o with Some z => (INT64_MIN <= z <= INT64_MAX)%Z | None => True end)
    [Some 4%Z; None] /\
  convert_column ["4"; EmptyString] = inr [CFloat (of_Z 4); CNaN] /\
  map cell_str [CFloat (of_Z 4); CNaN] = ["4.0"; "nan"].
Proof.
  assert (Hr : Forall (fun o => match o with Some z => (INT64_MIN <= z <= INT64_MAX)%Z | None => True end)
                 [Some 4%Z; None]) by (repeat constructor; unfold INT64_MIN, INT64_MAX; lia).
  split; [exact Hr|]. split; [|vm_compute; reflexivity].
  exact (convert_column_ints [Some 4%Z; None] Hr).
Qed.

(** Whatever the text, a number [str_to_int64] returns is in
    the [int64] range. *)
Theorem str_to_int64_range (s : string) (z : Z) :
  str_to_int64 s = inr z -> (INT64_MIN <= z <= INT64_MAX)%Z.
Proof.
  unfold str_to_int64. destruct (parse_sign _) as [isneg p]. destruct p as [|d p]; [discriminate|].
  destruct (isdigit_ascii d); [|discriminate].
  destruct isneg; [destruct (int_digits_neg _ 0) as [e|[v rest]] eqn:E
                  |destruct (int_digits_pos _ 0) as [e|[v rest]] eqn:E]; try discriminate;
    (destruct (skip_spaces rest); [intros [= <-]|discriminate]).
  - apply int_digits_neg_range in E; unfold INT64_MIN, INT64_MAX in *; lia.
  - apply int_digits_pos_range in E; unfold INT64_MIN, INT64_MAX in *; lia.
Qed.

Example str_to_int64_range_example :
  str_to_int64 " -9223372036854775808 " = inr INT64_MIN /\ (INT64_MIN <= INT64_MIN <= INT64_MAX)%Z.
Proof.
  assert (H : str_to_int64 " -9223372036854775808 " = inr INT64_MIN) by (vm_compute; reflexivity).
  split; [exact H|exact (str_to_int64_range _ _ H)].
Qed.

(** ** Examples *)

(** Leading zeros and blanks around an integer are dropped, [true] and
    [FALSE] are booleans, and an exponent makes a float. *)
Example convert_column_examples :
  convert_column ["007"; " 12 "] = inr [CInt 7; CInt 12] /\
  convert_column ["true"; "FALSE"] = inr [CBool true; CBool false] /\
  convert_column ["1e3"; "-0"] = inr [CFloat (of_Z 1000); CFloat (fopp (of_Z 0))] /\
  convert_column ["1e400"; "2"] = inr [CStr "1e400"; CStr "2"] /\
  convert_column ["9223372036854775807"] = inr [CInt INT64_MAX].
Proof. vm_compute. repeat split. Qed.

End Infer.
