(* ===== verification/Genanki.v ===== *)
(** * Genanki: the note model [MODEL] and the genanki objects [csv2apkg] builds

    [MODEL] (lines 10-25) is the one [genanki.Model] of the program: two
    fields, [Front] and [Back], one card template and a stylesheet.  The
    program builds a [genanki.Deck] (lines 55-58), one [genanki.Note] per
    accepted row (lines 69-72), appends it with [deck.add_note] (line 74)
    and writes [genanki.Package(deck)] (line 81).  This file models those
    objects and the checks genanki performs when it writes a package:
    [Deck.write_to_db] requires an [int] id and a [str] name, and
    [Note.write_to_db] requires as many fields as the model has. *)

From S2P Require Import Prelude Py.

Module Genanki.

Record field := mk_field { field_name : string; field_font : string }.

Record template := mk_template { template_name : string; qfmt : string; afmt : string }.

Record model := mk_model {
  model_id : Z;
  model_name : string;
  model_fields : list field;
  model_templates : list template;
  model_css : string
}.

(** [MODEL = genanki.Model(2559383000, 'Basic (zhaisilong)', ...)] *)
Definition MODEL : model :=
  mk_model 2559383000 "Basic (zhaisilong)"
    [mk_field "Front" "Arial"; mk_field "Back" "Arial"]
    [mk_template "ZCard-1" "{{Front}}"
       ("{{FrontSide}}" +:+ nl +:+ nl +:+ "<hr id=answer>" +:+ nl +:+ nl +:+ "{{Back}}")]
    (".card {" +:+ nl +:+ " font-family: Arial;" +:+ nl +:+ " font-size: 20px;" +:+ nl
       +:+ " text-align: center;" +:+ nl +:+ " color: black;" +:+ nl
       +:+ " background-color: white;" +:+ nl +:+ "}" +:+ nl).

(** [genanki.Note(model=..., fields=[...])] *)
Record note := mk_note { note_model : model; note_fields : list string }.

(** [genanki.Deck(deck_id=..., name=...)]: the name is whatever Python
    value the program passes. *)
Record deck := mk_deck { deck_id : Z; deck_name : pyval; deck_notes : list note }.

Definition new_deck (id : Z) (name : pyval) : deck := mk_deck id name [].

(** [deck.add_note(note)]: appends. *)
Definition add_note (d : deck) (n : note) : deck :=
  mk_deck (deck_id d) (deck_name d) (deck_notes d ++ [n]).

(** [Note._check_number_model_fields_matches_num_fields] *)
Definition note_check (n : note) : exn + unit :=
  if length (model_fields (note_model n)) =? length (note_fields n) then inr tt
  else inl (ValueError "Number of fields in Model does not match number of fields in Note").

Fixpoint notes_check (ns : list note) : exn + unit :=
  match ns with
  | [] => inr tt
  | n :: ns' => match note_check n with inl e => inl e | inr _ => notes_check ns' end
  end.

(** The checks of [Package.write_to_file] before the file is created:
    [Deck.write_to_db] tests the name's type, then writes each note. *)
Definition package_check (d : deck) : exn + unit :=
  if is_str (deck_name d) then notes_check (deck_notes d)
  else inl (TypeError "Deck .name must be a string").

(** ** Lemmas *)

Lemma notes_check_ok (ns : list note) :
  Forall (fun n => length (note_fields n) = length (model_fields (note_model n))) ns ->
  notes_check ns = inr tt.
Proof.
  induction 1 as [|n ns Hn _ IH]; simpl; [reflexivity|].
  unfold note_check. rewrite Hn, Nat.eqb_refl. exact IH.
Qed.

Lemma notes_check_app (ns1 ns2 : list note) :
  notes_check (ns1 ++ ns2) =
  match notes_check ns1 with inl e => inl e | inr _ => notes_check ns2 end.
Proof.
  induction ns1 as [|n ns1 IH]; simpl; [reflexivity|].
  destruct (note_check n); [reflexivity|exact IH].
Qed.

End Genanki.
