(* ===== verification/Guid.v ===== *)
(** * Guid: the GUID genanki gives each note of the package

    The program creates its notes without a [guid] (lines 69-72), so
    [Note.guid] is computed, when [genanki.Package(deck).write_to_file]
    writes the note (line 81), by [genanki.util.guid_for] applied to the
    note's fields:
    the fields are joined with ['__'], encoded in UTF-8 and hashed with
    [hashlib.sha256]; the first 8 bytes of the digest, read as a
    big-endian integer, are written in Anki's base 91 ([BASE91_TABLE]),
    most significant digit first.  [Note.write_to_db] stores this GUID in
    the [guid] column of the package's [notes] table ([deck_guids]), and
    Anki identifies notes by it when it imports a package.

    [hashlib] is a library the code only calls, so the digest is a
    variable of [Section Digest] and every theorem holds for any digest
    (for the round trip: any that returns at least 8 bytes), SHA-256
    included.  Strings are byte strings in the whole development, so the
    UTF-8 encoding is [list_byte_of_string].  The [while] loop of the
    base-91 conversion runs with fuel [guid_fuel]: ten digits hold any
    64-bit integer, since [2^64 < 91^10], and one more round sees that
    nothing is left.

    The lemmas: [guid_for] always returns, a string of at most ten
    characters of the table; reading the GUID back in base 91 and
    writing it as 8 bytes gives the first 8 bytes of the digest; and the
    GUID depends on the fields only through their ['__']-join.
    [Converter] applies them to the package [csv2apkg] writes. *)

From S2P Require Import Prelude Genanki.
From Stdlib Require Import Strings.Byte.
Import Genanki.

Module Guid.

(** [BASE91_TABLE] of [genanki/util.py]: letters, digits and 29 signs. *)
Definition BASE91_TABLE : list ascii :=
  list_ascii_of_string
    "abcdefghijklmnopqrstuvwxyzABCDEFGHIJKLMNOPQRSTUVWXYZ0123456789!#$%&()*+,-./:;<=>?@[]^_`{|}~".

(** ['__'.join(str(val) for val in values)] *)
Definition hash_str (values : list string) : string := String.concat "__" values.

(** [hash_str.encode('utf-8')] *)
Definition encode_utf8 (s : string) : list byte := list_byte_of_string s.

(** [for b in hash_bytes: hash_int <<= 8; hash_int += b] *)
Definition bytes_to_int (bs : list byte) : Z :=
  fold_left (fun acc b => Z.shiftl acc 8 + Z.of_N (Byte.to_N b))%Z bs 0%Z.

(** [BASE91_TABLE[i]] *)
Definition base91_char (i : Z) : ascii := nth (Z.to_nat i) BASE91_TABLE "a"%char.

(** [while hash_int > 0: rv_reversed.append(BASE91_TABLE[hash_int % len(BASE91_TABLE)]);
    hash_int //= len(BASE91_TABLE)] *)
Fixpoint base91_loop (fuel : nat) (hash_int : Z) (rv_reversed : list ascii) : option (list ascii) :=
  match fuel with
  | O => None
  | S fuel' =>
      if (0 <? hash_int)%Z then
        let len := Z.of_nat (length BASE91_TABLE) in
        base91_loop fuel' (hash_int / len) (rv_reversed ++ [base91_char (hash_int mod len)])
      else Some rv_reversed
  end.

(** Ten rounds that take a digit and the one that stops. *)
Definition guid_fuel : nat := 11.

Section Digest.
(** [hashlib.sha256(m).digest()] *)
Context (sha256 : list byte -> list byte).

(** [genanki.util.guid_for], called with the values as its arguments *)
Definition guid_for (values : list string) : option string :=
  let hash_bytes := take 8 (sha256 (encode_utf8 (hash_str values))) in
  let hash_int := bytes_to_int hash_bytes in
  match base91_loop guid_fuel hash_int [] with
  | Some rv_reversed => Some (string_of_list_ascii (rev rv_reversed))
  | None => None
  end.

(** [Note.guid] of a note created without a guid, as the program's are. *)
Definition note_guid (n : note) : option string := guid_for (note_fields n).

(** The [guid] column of the [notes] table [Package.write_to_file] writes
    for a deck: [Note.write_to_db] stores [self.guid] for each note of
    [deck.notes], in order. *)
Definition deck_guids (d : deck) : list (option string) := map note_guid (deck_notes d).

End Digest.

(** ** Reading a GUID back *)

Fixpoint index_of (c : ascii) (l : list ascii) : nat :=
  match l with
  | [] => 0
  | d :: l' => if Ascii.eqb c d then 0 else S (index_of c l')
  end.

(** The value of base-91 digits, least significant first. *)
Fixpoint base91_value (ds : list ascii) : Z :=
  match ds with
  | [] => 0
  | d :: ds' => Z.of_nat (index_of d BASE91_TABLE) + 91 * base91_value ds'
  end.

(** A GUID read as a base-91 number, most significant digit first. *)
Definition base91_decode (g : string) : Z := base91_value (rev (list_ascii_of_string g)).

(** [n.to_bytes(k, 'big')] for [0 <= n < 256^k]. *)
Fixpoint int_to_bytes (k : nat) (n : Z) : list byte :=
  match k with
  | O => []
  | S k' => int_to_bytes k' (n / 256) ++
              [match Byte.of_N (Z.to_N (n mod 256)) with Some b => b | None => Byte.x00 end]
  end.

(** ** Lemmas *)

Lemma length_table : length BASE91_TABLE = 91.
Proof. reflexivity. Qed.

Lemma index_of_char (i : Z) :
  (0 <= i < 91)%Z -> Z.of_nat (index_of (base91_char i) BASE91_TABLE) = i.
Proof.
  intros Hi.
  assert (Hall : forallb (fun k => Nat.eqb (index_of (nth k BASE91_TABLE "a"%char) BASE91_TABLE) k)
                   (seq 0 91) = true) by (vm_compute; reflexivity).
  rewrite forallb_forall in Hall. specialize (Hall (Z.to_nat i)).
  rewrite Nat.eqb_eq in Hall. unfold base91_char. rewrite Hall; [lia|].
  apply in_seq. lia.
Qed.

Lemma base91_char_in (i : Z) : (0 <= i < 91)%Z -> base91_char i ∈ BASE91_TABLE.
Proof.
  intros Hi. apply list_elem_of_In, nth_In. rewrite length_table. lia.
Qed.

Lemma base91_loop_step (fuel : nat) (n : Z) (rv : list ascii) :
  base91_loop (S fuel) n rv
  = if (0 <? n)%Z then base91_loop fuel (n / 91) (rv ++ [base91_char (n mod 91)]) else Some rv.
Proof. reflexivity. Qed.

(** The loop, given enough fuel, writes the digits of its argument. *)
Lemma base91_loop_spec (k : nat) (n : Z) (rv : list ascii) :
  (0 <= n < 91 ^ Z.of_nat k)%Z ->
  exists ds, base91_loop (S k) n rv = Some (rv ++ ds) /\ base91_value ds = n /\
             length ds <= k /\ Forall (fun c => c ∈ BASE91_TABLE) ds.
Proof.
  revert n rv. induction k as [|k IH]; intros n rv Hn.
  - assert (n = 0)%Z as -> by (simpl in Hn; lia).
    exists []. simpl. rewrite app_nil_r. auto.
  - rewrite base91_loop_step. destruct (Z.ltb_spec 0 n) as [Hpos|Hz].
    + rewrite Nat2Z.inj_succ, Z.pow_succ_r in Hn by lia.
      destruct (IH (n / 91)%Z (rv ++ [base91_char (n mod 91)])) as (ds & Hrun & Hval & Hlen & Hin).
      { split; [apply Z.div_pos; lia|]. apply Z.div_lt_upper_bound; lia. }
      exists (base91_char (n mod 91) :: ds). rewrite Hrun, <- app_assoc. split; [reflexivity|].
      split; [|split; [simpl; lia|constructor; [apply base91_char_in|]; auto]].
      * cbn [base91_value]. rewrite index_of_char, Hval by (apply Z.mod_pos_bound; lia).
        pose proof (Z.div_mod n 91). lia.
      * apply Z.mod_pos_bound. lia.
    + exists []. rewrite app_nil_r. split; [reflexivity|]. simpl. split; [lia|split; [lia|constructor]].
Qed.

Lemma bytes_to_int_snoc (bs : list byte) (b : byte) :
  bytes_to_int (bs ++ [b]) = (bytes_to_int bs * 256 + Z.of_N (Byte.to_N b))%Z.
Proof.
  unfold bytes_to_int. rewrite fold_left_app. cbn [fold_left].
  rewrite Z.shiftl_mul_pow2 by lia. reflexivity.
Qed.

Lemma byte_bound (b : byte) : (0 <= Z.of_N (Byte.to_N b) < 256)%Z.
Proof. pose proof (Byte.to_N_bounded b). lia. Qed.

(** The integer of [k] bytes is below [256^k]. *)
Lemma bytes_to_int_bound (bs : list byte) :
  (0 <= bytes_to_int bs < 2 ^ (8 * Z.of_nat (length bs)))%Z.
Proof.
  induction bs as [|b bs IH] using rev_ind; [split; reflexivity|].
  rewrite bytes_to_int_snoc, length_app, Nat2Z.inj_add, Z.mul_add_distr_l, Z.pow_add_r by lia.
  pose proof (byte_bound b). change (2 ^ (8 * Z.of_nat (length [b])))%Z with 256%Z. nia.
Qed.

(** Writing the integer of [k] bytes as [k] bytes gives them back. *)
Lemma int_to_bytes_of (bs : list byte) : int_to_bytes (length bs) (bytes_to_int bs) = bs.
Proof.
  induction bs as [|b bs IH] using rev_ind; [reflexivity|].
  rewrite length_app, Nat.add_1_r. cbn [int_to_bytes]. rewrite bytes_to_int_snoc.
  pose proof (byte_bound b).
  set (n := (bytes_to_int bs * 256 + Z.of_N (Byte.to_N b))%Z).
  rewrite <- (Z.div_unique_pos n 256 (bytes_to_int bs) (Z.of_N (Byte.to_N b))) by (unfold n; lia).
  rewrite <- (Z.mod_unique_pos n 256 (bytes_to_int bs) (Z.of_N (Byte.to_N b))) by (unfold n; lia).
  now rewrite IH, N2Z.id, Byte.of_to_N.
Qed.

Lemma length_string_of_list_ascii (l : list ascii) :
  String.length (string_of_list_ascii l) = length l.
Proof. induction l as [|c l IH]; simpl; congruence. Qed.

(** The hash integer of [guid_for] has at most ten base-91 digits. *)
Lemma hash_int_bound (bs : list byte) : (0 <= bytes_to_int (take 8 bs) < 91 ^ Z.of_nat 10)%Z.
Proof.
  pose proof (bytes_to_int_bound (take 8 bs)) as [H0 H1]. split; [exact H0|].
  eapply Z.lt_le_trans; [exact H1|].
  transitivity (2 ^ 64)%Z; [|vm_compute; discriminate].
  apply Z.pow_le_mono_r; [lia|]. rewrite length_take. lia.
Qed.

(** The run of the loop in [guid_for]. *)
Lemma guid_for_run (sha256 : list byte -> list byte) (values : list string) :
  exists ds, guid_for sha256 values = Some (string_of_list_ascii (rev ds)) /\
    base91_value ds = bytes_to_int (take 8 (sha256 (encode_utf8 (hash_str values)))) /\
    length ds <= 10 /\ Forall (fun c => c ∈ BASE91_TABLE) ds.
Proof.
  destruct (base91_loop_spec 10 (bytes_to_int (take 8 (sha256 (encode_utf8 (hash_str values))))) [])
    as (ds & Hrun & Hval & Hlen & Hin).
  { apply hash_int_bound. }
  exists ds. unfold guid_for, guid_fuel. rewrite Hrun. auto.
Qed.

(** ** The GUID of a note *)

(** [guid_for] always returns (its [while] loop ends within the fuel
    [guid_fuel]), and the GUID is a string of at most ten characters of
    [BASE91_TABLE], whatever the fields and the digest. *)
Lemma guid_for_total (sha256 : list byte -> list byte) (values : list string) :
  exists g, guid_for sha256 values = Some g /\ String.length g <= 10 /\
    Forall (fun c => c ∈ BASE91_TABLE) (list_ascii_of_string g).
Proof.
  destruct (guid_for_run sha256 values) as (ds & Hg & _ & Hlen & Hin).
  exists (string_of_list_ascii (rev ds)). split; [exact Hg|].
  rewrite length_string_of_list_ascii, length_rev, list_ascii_of_string_of_list_ascii.
  split; [exact Hlen|]. now apply Forall_rev.
Qed.

(** Reading a note's GUID back in base 91 and writing the number as 8
    bytes gives the first 8 bytes of the digest of the fields
    joined by ['__']: the GUID loses nothing of the 64-bit hash. *)
Lemma guid_for_roundtrip (sha256 : list byte -> list byte) (values : list string) (g : string) :
  (forall m, 8 <= length (sha256 m)) -> guid_for sha256 values = Some g ->
  int_to_bytes 8 (base91_decode g) = take 8 (sha256 (encode_utf8 (hash_str values))).
Proof.
  intros Hsha Hg. destruct (guid_for_run sha256 values) as (ds & Hrun & Hval & _ & _).
  rewrite Hrun in Hg. injection Hg as <-.
  unfold base91_decode. rewrite list_ascii_of_string_of_list_ascii, rev_involutive, Hval.
  assert (H8 : length (take 8 (sha256 (encode_utf8 (hash_str values)))) = 8).
  { rewrite length_take. specialize (Hsha (encode_utf8 (hash_str values))). lia. }
  rewrite <- H8 at 1. apply int_to_bytes_of.
Qed.

(** The GUID depends on a note's fields only through their
    ['__']-join: the notes of the rows [(a__b, c)] and [(a, b__c)] get
    the same GUID, whatever the digest, so Anki takes them for one
    note. *)
Lemma note_guid_join_collision (sha256 : list byte -> list byte) (a b c : string) :
  note_guid sha256 (mk_note MODEL [a +:+ "__" +:+ b; c])
  = note_guid sha256 (mk_note MODEL [a; b +:+ "__" +:+ c]).
Proof.
  unfold note_guid, guid_for, hash_str. cbn [note_fields String.concat].
  now rewrite !str_append_assoc.
Qed.

(** ** An example *)

(** With a digest that pads the message with zeros, the GUID of the
    note [What is 2+2?, 4] reads back as its first 8 bytes. *)
Example guid_for_roundtrip_example :
  int_to_bytes 8 (base91_decode "o%Hie~#B{{")
  = take 8 ((fun m => m ++ repeat Byte.x00 8) (encode_utf8 (hash_str ["What is 2+2?"; "4"]))).
Proof.
  apply (guid_for_roundtrip (fun m => m ++ repeat Byte.x00 8)).
  - intros m. rewrite length_app, repeat_length. lia.
  - vm_compute. reflexivity.
Qed.

End Guid.
