(* ===== verification/TableReader.v ===== *)
(** * TableReader: what [csv2apkg] requires of [pandas.read_csv]

    The program calls [pd.read_csv(csv_path, sep=sep)] in double mode
    (line 47) and [pd.read_csv(csv_path, header=None, names=["question"])]
    in single mode (line 49).  The converter is proved against this
    interface: a reader maps the separator, the header option and the
    file's text to a frame or an exception, and its laws state what the
    converter uses: the frames it returns are well formed, and with
    [header=None, names=...] their columns are the given names.
    [CsvReader] implements the interface after pandas' C parser and
    discharges the laws. *)

From S2P Require Import Prelude Py Frame.
Import Frame.

(** [header='infer'] (the default) or [header=None, names=...]. *)
Inductive header_opt := HeaderInfer | HeaderNone (names : list string).

Class TableReader := read_csv : pyval -> header_opt -> string -> exn + frame.

Class TableReaderLaws `{TableReader} := {
  read_csv_wf : forall sep h s f, read_csv sep h s = inr f -> frame_wf f;
  read_csv_names : forall sep names s f,
    read_csv sep (HeaderNone names) s = inr f -> columns f = names
}.
