(* ===== verification/Dedup.v ===== *)
(** * Dedup: pandas' renaming of duplicate column labels

    When [pd.read_csv] takes the column labels from the header row (double
    mode, line 47), pandas renames repeated labels with
    [pandas.io.common.dedup_names]:

<<
    counts = defaultdict(int)
    for i, col in enumerate(names):
        cur_count = counts[col]
        while cur_count > 0:
            counts[col] = cur_count + 1
            col = f"{col}.{cur_count}"
            cur_count = counts[col]
        names[i] = col
        counts[col] = cur_count + 1
>>

    so a header [question,question] yields the columns [question] and
    [question.1].  The [while] loop is written with fuel; the fuel
    [size counts] is proved enough (the loop visits distinct keys of
    [counts], each longer than the last), the result is proved free of
    duplicates, and a header without duplicates is proved unchanged. *)

From S2P Require Import Prelude.

Module Dedup.

(** [f"{col}.{cur_count}"] *)
Definition mangle (col : string) (k : nat) : string := (col +:+ "." +:+ pretty k)%string.

(** [counts[k]] of a [defaultdict(int)] *)
Definition count_of (counts : gmap string nat) (k : string) : nat := default 0 (counts !! k).

(** The [while cur_count > 0] loop. *)
Fixpoint dedup_loop (fuel : nat) (counts : gmap string nat) (col : string) (cur : nat)
    : option (gmap string nat * string) :=
  match cur with
  | O => Some (counts, col)
  | S _ =>
      match fuel with
      | O => None
      | S fuel' =>
          let counts' := <[col := S cur]> counts in
          let col' := mangle col cur in
          dedup_loop fuel' counts' col' (count_of counts' col')
      end
  end.

(** The [for] loop; [size counts] bounds the iterations of the [while]. *)
Fixpoint dedup_go (counts : gmap string nat) (names : list string) : list string :=
  match names with
  | [] => []
  | col :: rest =>
      let '(counts1, col1) :=
        match dedup_loop (size counts) counts col (count_of counts col) with
        | Some r => r
        | None => (counts, col)
        end in
      col1 :: dedup_go (<[col1 := 1]> counts1) rest
  end.

(** [dedup_names(names, False)] *)
Definition dedup_names (names : list string) : list string := dedup_go ∅ names.

(** ** Termination of the [while] loop *)

(** The keys of [counts] at least as long as [col]. *)
Definition longer_keys (counts : gmap string nat) (col : string) : gset string :=
  filter (fun k => String.length col <= String.length k) (dom counts).

Lemma mangle_longer (col : string) (k : nat) :
  String.length col < String.length (mangle col k).
Proof. unfold mangle. rewrite str_length_append. simpl. lia. Qed.

Lemma count_of_pos_dom (counts : gmap string nat) (k : string) :
  0 < count_of counts k -> k ∈ dom counts.
Proof.
  unfold count_of. intros H. apply elem_of_dom.
  destruct (counts !! k); [eauto|simpl in H; lia].
Qed.

Lemma longer_keys_decrease (counts : gmap string nat) (col col' : string) :
  col ∈ dom counts -> String.length col < String.length col' ->
  size (longer_keys counts col') < size (longer_keys counts col).
Proof.
  intros Hin Hlen. apply subset_size. unfold longer_keys. split.
  - intros k. rewrite !elem_of_filter. intros [Hk Hd]. split; [lia|exact Hd].
  - intros Hsub. specialize (Hsub col). rewrite !elem_of_filter in Hsub.
    destruct Hsub as [Hc _]; [split; [lia|exact Hin]|lia].
Qed.

Lemma longer_keys_size (counts : gmap string nat) (col : string) :
  size (longer_keys counts col) <= size counts.
Proof.
  rewrite <- size_dom. apply subseteq_size. unfold longer_keys.
  intros k. rewrite elem_of_filter. tauto.
Qed.

(** With as much fuel as there are longer keys, the loop ends. *)
Lemma dedup_loop_enough (fuel : nat) (counts : gmap string nat) (col : string) :
  size (longer_keys counts col) <= fuel ->
  exists r, dedup_loop fuel counts col (count_of counts col) = Some r.
Proof.
  revert counts col. induction fuel as [|fuel IH]; intros counts col Hf;
    destruct (count_of counts col) as [|n] eqn:Ec; simpl; eauto.
  - exfalso. assert (Hin : col ∈ dom counts) by (apply count_of_pos_dom; lia).
    pose proof (longer_keys_decrease counts col (mangle col (S n)) Hin
                  (mangle_longer col (S n))). lia.
  - apply IH. assert (Hin : col ∈ dom counts) by (apply count_of_pos_dom; lia).
    assert (Hdom : dom (<[col:=S (S n)]> counts) = dom counts).
    { rewrite dom_insert_L. set_solver. }
    unfold longer_keys in *. rewrite Hdom.
    pose proof (longer_keys_decrease counts col (mangle col (S n)) Hin
                  (mangle_longer col (S n))) as Hd.
    unfold longer_keys in Hd. lia.
Qed.

(** The fuel [size counts] of [dedup_go] is always enough. *)
Theorem dedup_loop_terminates (counts : gmap string nat) (col : string) :
  exists r, dedup_loop (size counts) counts col (count_of counts col) = Some r.
Proof. apply dedup_loop_enough, longer_keys_size. Qed.

(** ** Results *)

Lemma dedup_loop_zero (fuel : nat) (counts : gmap string nat) (col : string) :
  dedup_loop fuel counts col 0 = Some (counts, col).
Proof. now destruct fuel. Qed.

Lemma count_of_insert (counts : gmap string nat) (k k' : string) (v : nat) :
  count_of (<[k := v]> counts) k' = if decide (k = k') then v else count_of counts k'.
Proof. unfold count_of. rewrite lookup_insert. now case_decide. Qed.

(** The loop ends on a label whose count is zero, and only raises counts. *)
Lemma dedup_loop_spec (fuel : nat) (counts counts1 : gmap string nat) (col col1 : string) :
  dedup_loop fuel counts col (count_of counts col) = Some (counts1, col1) ->
  count_of counts1 col1 = 0 /\ forall k, count_of counts k <= count_of counts1 k.
Proof.
  revert counts col. induction fuel as [|fuel IH]; intros counts col;
    destruct (count_of counts col) as [|n] eqn:Ec; simpl; try discriminate.
  - intros [= <- <-]. split; [exact Ec|reflexivity].
  - intros [= <- <-]. split; [exact Ec|reflexivity].
  - intros Hl. destruct (IH _ _ Hl) as [H0 Hmono]. split; [exact H0|].
    intros k. specialize (Hmono k). rewrite count_of_insert in Hmono.
    case_decide; subst; lia.
Qed.

Lemma dedup_go_spec (counts : gmap string nat) (names : list string) :
  NoDup (dedup_go counts names) /\
  Forall (fun x => count_of counts x = 0) (dedup_go counts names) /\
  length (dedup_go counts names) = length names.
Proof.
  revert counts. induction names as [|col rest IH]; intros counts; simpl.
  - repeat constructor.
  - destruct (dedup_loop_enough _ counts col (longer_keys_size counts col))
      as [[counts1 col1] Hl]. rewrite Hl.
    destruct (dedup_loop_spec _ _ _ _ _ Hl) as [H0 Hmono].
    destruct (IH (<[col1:=1]> counts1)) as (Hnd & Hall & Hlen).
    split; [|split].
    + constructor; [|exact Hnd]. intros Hin.
      rewrite List.Forall_forall in Hall. apply list_elem_of_In in Hin.
      specialize (Hall col1 Hin). rewrite count_of_insert in Hall. now case_decide.
    + constructor; [specialize (Hmono col1); lia|].
      eapply List.Forall_impl; [|exact Hall]. intros x Hx. simpl in Hx.
      rewrite count_of_insert in Hx. case_decide; [discriminate|].
      specialize (Hmono x). lia.
    + simpl. now rewrite Hlen.
Qed.

(** The renamed labels are pairwise distinct, and as many as the header's. *)
Lemma dedup_names_nodup (names : list string) :
  NoDup (dedup_names names) /\ length (dedup_names names) = length names.
Proof.
  destruct (dedup_go_spec ∅ names) as (Hnd & _ & Hlen). split; assumption.
Qed.

(** A header without repeated labels is left as it is. *)
Theorem dedup_names_id (names : list string) :
  NoDup names -> dedup_names names = names.
Proof.
  unfold dedup_names. assert (H0 : forall k, k ∈ names -> count_of ∅ k = 0) by reflexivity.
  revert H0. generalize (∅ : gmap string nat) as counts.
  induction names as [|col rest IH]; intros counts H0 Hnd; simpl; [reflexivity|].
  apply NoDup_cons in Hnd as [Hcol Hnd].
  rewrite (H0 col (list_elem_of_here _ _)), dedup_loop_zero. f_equal.
  apply IH; [|exact Hnd]. intros k Hk. rewrite count_of_insert.
  case_decide; [subst; contradiction|]. apply H0. now apply list_elem_of_further.
Qed.

(** ** Witnesses *)

Example dedup_names_id_example : dedup_names ["question"; "answer"] = ["question"; "answer"].
Proof. apply dedup_names_id. apply (bool_decide_unpack _). vm_compute. reflexivity. Qed.

(** A repeated header: [question,question,question.1]. *)
Example dedup_names_repeated :
  dedup_names ["question"; "question"; "question.1"] = ["question"; "question.1"; "question.1.1"].
Proof. vm_compute. reflexivity. Qed.

End Dedup.
