(* ===== verification/HeaderDedup.v ===== *)
(** * HeaderDedup: the C parser's renaming of the header labels

    With the default [header='infer'] (double mode, line 47), the labels
    come from the first record, and pandas' C parser
    ([pandas/_libs/parsers.pyx], [TextReader._get_header]) first names an
    empty label [Unnamed: i], then renames repeated labels, visiting the
    named columns before the unnamed ones:

<<
    col_loop_order = [i for i in range(len(this_header))
                      if i not in unnamed_col_indices] + unnamed_col_indices
    counts = {}
    for i in col_loop_order:
        col = this_header[i]
        old_col = col
        cur_count = counts.get(col, 0)
        if cur_count > 0:
            while cur_count > 0:
                counts[old_col] = cur_count + 1
                col = f"{old_col}.{cur_count}"
                if col in this_header:
                    cur_count += 1
                else:
                    cur_count = counts.get(col, 0)
        this_header[i] = col
        counts[col] = cur_count + 1
>>

    Unlike [pandas.io.common.dedup_names] (file [Dedup]), a mangled label
    that is already in the header is skipped, so [q,q,q.1] becomes
    [q,q.2,q.1].  The [while] loop is written with the fuel
    [len(this_header) + 1]; that fuel is proved enough, the result is
    proved free of duplicates, and on headers whose labels are non-empty
    and contain no dot the renaming is proved equal to [dedup_names]. *)

From S2P Require Import Prelude Dedup.

Module HeaderDedup.
Import Dedup.

(** ** The labels of the header row *)

Definition unnamed_label (i : nat) : string := "Unnamed: " +:+ pretty i.

(** [if name == '': name = f'Unnamed: {i}'] *)
Definition unnamed (raw : list string) : list string :=
  imap (fun i name => if String.eqb name EmptyString then unnamed_label i else name) raw.

(** [unnamed_col_indices] *)
Definition unnamed_indices (raw : list string) : list nat :=
  filter (fun i => raw !! i = Some EmptyString) (seq 0 (length raw)).

Definition col_loop_order (n : nat) (unnamed_idx : list nat) : list nat :=
  filter (fun i => i ∉ unnamed_idx) (seq 0 n) ++ unnamed_idx.

(** ** The renaming *)

(** The [while cur_count > 0] loop: [old] is [old_col], [hdr] the current
    [this_header]. *)
Fixpoint mangle_loop (fuel : nat) (hdr : list string) (counts : gmap string nat)
    (old col : string) (cur : nat) : option (gmap string nat * string) :=
  match cur with
  | O => Some (counts, col)
  | S _ =>
      match fuel with
      | O => None
      | S fuel' =>
          let counts' := <[old := S cur]> counts in
          let col' := mangle old cur in
          if bool_decide (col' ∈ hdr) then mangle_loop fuel' hdr counts' old col' (S cur)
          else mangle_loop fuel' hdr counts' old col' (count_of counts' col')
      end
  end.

(** The [for i in col_loop_order] loop; [None] when the fuel of the inner
    loop runs out, which [c_header_total] shows never happens. *)
Fixpoint header_go (order : list nat) (hdr : list string) (counts : gmap string nat)
    : option (list string) :=
  match order with
  | [] => Some hdr
  | i :: rest =>
      let col := default EmptyString (hdr !! i) in
      match mangle_loop (S (length hdr)) hdr counts col col (count_of counts col) with
      | None => None
      | Some (counts1, col1) => header_go rest (<[i := col1]> hdr) (<[col1 := 1]> counts1)
      end
  end.

(** The column labels of a header row. *)
Definition c_header (raw : list string) : option (list string) :=
  header_go (col_loop_order (length raw) (unnamed_indices raw)) (unnamed raw) ∅.

(** ** Lemmas on mangled labels *)

Lemma mangle_app (col : string) (k : nat) :
  mangle col k = (col +:+ String "." (pretty k))%string.
Proof. reflexivity. Qed.

Lemma mangle_inj_r (col : string) (j k : nat) : mangle col j = mangle col k -> j = k.
Proof.
  rewrite !mangle_app. intros H. apply (inj (pretty (A:=nat))).
  induction col as [|a col IH]; simpl in H; injection H; auto.
Qed.

Lemma mangle_neq (col : string) (k : nat) : mangle col k <> col.
Proof.
  intros H. pose proof (mangle_longer col k) as Hl. rewrite H in Hl. lia.
Qed.

Lemma count_of_insert_eq (counts : gmap string nat) (k : string) (v : nat) :
  count_of (<[k := v]> counts) k = v.
Proof. rewrite count_of_insert. now rewrite decide_True. Qed.

(** Distinct mangled labels of one label, all in [hdr], are at most as
    many as [hdr]'s entries. *)
Lemma mangle_run_bound (hdr : list string) (old : string) (cur n : nat) :
  Forall (fun j => mangle old j ∈ hdr) (seq cur n) -> n <= length hdr.
Proof.
  intros Hall. rewrite <- (length_seq n cur), <- (length_fmap (mangle old)).
  apply submseteq_length, NoDup_submseteq.
  - apply NoDup_fmap_2_strong; [|apply NoDup_seq].
    intros j k _ _. apply mangle_inj_r.
  - intros x Hx. apply list_elem_of_fmap in Hx as (j & -> & Hj).
    rewrite Forall_forall in Hall. apply Hall, Hj.
Qed.

(** ** The [while] loop *)

Section Loop.
Context (hdr : list string) (old : string).

(** The counts of the labels other than [old] are positive only on labels
    of the header. *)
Definition counts_in_hdr (counts : gmap string nat) : Prop :=
  forall k, k <> old -> 0 < count_of counts k -> k ∈ hdr.

Lemma counts_in_hdr_insert (counts : gmap string nat) (v : nat) :
  counts_in_hdr counts -> counts_in_hdr (<[old := v]> counts).
Proof.
  intros H k Hk. rewrite count_of_insert. case_decide; [congruence|]. apply H, Hk.
Qed.

(** Once a mangled label is not in the header, the loop stops. *)
Lemma mangle_loop_exit (fuel : nat) (counts : gmap string nat) (cur : nat) :
  counts_in_hdr counts -> mangle old cur ∉ hdr ->
  let counts' := <[old := S cur]> counts in
  mangle_loop fuel hdr counts' old (mangle old cur) (count_of counts' (mangle old cur))
  = Some (counts', mangle old cur).
Proof.
  intros Hc Hn. cbv zeta.
  assert (Hz : count_of (<[old := S cur]> counts) (mangle old cur) = 0).
  { destruct (count_of (<[old := S cur]> counts) (mangle old cur)) eqn:E; [reflexivity|].
    exfalso. apply Hn, (counts_in_hdr_insert _ (S cur) Hc); [apply mangle_neq|].
    rewrite E. lia. }
  rewrite Hz. now destruct fuel.
Qed.

Lemma mangle_loop_enough (fuel : nat) (counts : gmap string nat) (col : string) (cur : nat) :
  counts_in_hdr counts ->
  Exists (fun j => mangle old j ∉ hdr) (seq cur fuel) ->
  exists r, mangle_loop fuel hdr counts old col cur = Some r.
Proof.
  revert counts col cur. induction fuel as [|fuel IH]; intros counts col cur Hc Hex.
  - inversion Hex.
  - destruct cur as [|n]; [eexists; reflexivity|]. cbn [mangle_loop].
    case_bool_decide as Hin.
    + apply IH; [now apply counts_in_hdr_insert|].
      inversion Hex as [? ? Hj|? ? Hrest]; subst; [contradiction|exact Hrest].
    + rewrite mangle_loop_exit by assumption. eauto.
Qed.

(** The fuel [len(this_header) + 1] is enough. *)
Lemma mangle_loop_fuel (counts : gmap string nat) (col : string) (cur : nat) :
  counts_in_hdr counts ->
  exists r, mangle_loop (S (length hdr)) hdr counts old col cur = Some r.
Proof.
  intros Hc. apply mangle_loop_enough; [exact Hc|].
  destruct (decide (Exists (fun j => mangle old j ∉ hdr) (seq cur (S (length hdr)))))
    as [H|H]; [exact H|exfalso].
  apply not_Exists_Forall in H; [|intros j; apply _].
  assert (S (length hdr) <= length hdr); [|lia].
  apply (mangle_run_bound hdr old cur). eapply Forall_impl; [exact H|].
  intros j Hj. simpl in Hj. destruct (decide (mangle old j ∈ hdr)); tauto.
Qed.

(** What the loop returns: counts that only grow, are positive only where
    they were or at [old], and a label that is the one it started from
    when there was nothing to rename and is not in the header otherwise. *)
Lemma mangle_loop_spec (fuel : nat) (counts counts1 : gmap string nat) (col col1 : string) (cur : nat) :
  counts_in_hdr counts -> count_of counts old <= cur ->
  mangle_loop fuel hdr counts old col cur = Some (counts1, col1) ->
  (forall k, count_of counts k <= count_of counts1 k) /\
  (forall k, 0 < count_of counts1 k -> k = old \/ 0 < count_of counts k) /\
  (cur = 0 -> col1 = col /\ counts1 = counts) /\
  (0 < cur -> col1 ∉ hdr).
Proof.
  revert counts col cur. induction fuel as [|fuel IH]; intros counts col cur Hc Hold Hl.
  - destruct cur; simplify_eq/=. split_and!; auto with lia.
  - destruct cur as [|n]; cbn [mangle_loop] in Hl.
    { simplify_eq. split_and!; auto with lia. }
    assert (Hmono : forall k, count_of counts k <= count_of (<[old:=S (S n)]> counts) k).
    { intros k. rewrite count_of_insert. destruct (decide (old = k)); subst; lia. }
    assert (Hpos : forall k, 0 < count_of (<[old:=S (S n)]> counts) k ->
                             k = old \/ 0 < count_of counts k).
    { intros k. rewrite count_of_insert. destruct (decide (old = k)); auto. }
    case_bool_decide as Hin.
    + destruct (IH _ _ (S (S n)) (counts_in_hdr_insert counts (S (S n)) Hc) ltac:(rewrite count_of_insert_eq; lia) Hl) as (H1 & H2 & _ & H4).
      split_and!; [intros k; etrans; [apply Hmono|apply H1]| |discriminate|intros; apply H4; lia].
      intros k Hk. destruct (H2 k Hk) as [->|Hk']; [auto|apply Hpos, Hk'].
    + rewrite mangle_loop_exit in Hl by assumption. simplify_eq.
      split_and!; [exact Hmono|exact Hpos|discriminate|intros; exact Hin].
Qed.

End Loop.

#[export] Hint Resolve counts_in_hdr_insert : pydb.

(** ** The [for] loop *)

(** After the positions [done]: the labels with a positive count are
    those at [done], and the labels at [done] are pairwise distinct. *)
Definition header_inv (done : list nat) (hdr : list string) (counts : gmap string nat) : Prop :=
  (forall k, 0 < count_of counts k <-> exists j, j ∈ done /\ hdr !! j = Some k) /\
  (forall j1 j2 k, j1 ∈ done -> j2 ∈ done -> hdr !! j1 = Some k -> hdr !! j2 = Some k -> j1 = j2).

Lemma header_inv_nil (hdr : list string) : header_inv [] hdr ∅.
Proof.
  split.
  - intros k. unfold count_of. rewrite lookup_empty. simpl.
    split; [lia|]. intros (j & Hj & _). inversion Hj.
  - intros j1 j2 k Hj1. inversion Hj1.
Qed.

Lemma header_inv_counts_in_hdr (done : list nat) (hdr : list string)
    (counts : gmap string nat) (old : string) :
  header_inv done hdr counts -> counts_in_hdr hdr old counts.
Proof.
  intros [Ha _] k _ Hk. apply Ha in Hk as (j & _ & Hj). eapply list_elem_of_lookup_2, Hj.
Qed.

(** One iteration keeps the invariant. *)
Lemma header_inv_step (done : list nat) (hdr : list string) (counts counts1 : gmap string nat)
    (i : nat) (col col1 : string) :
  header_inv done hdr counts -> i ∉ done -> hdr !! i = Some col ->
  mangle_loop (S (length hdr)) hdr counts col col (count_of counts col) = Some (counts1, col1) ->
  header_inv (done ++ [i]) (<[i := col1]> hdr) (<[col1 := 1]> counts1).
Proof.
  intros [Ha Hb] Hi Hcol Hl.
  destruct (mangle_loop_spec hdr col _ _ _ _ _ _
              (header_inv_counts_in_hdr _ _ _ col (conj Ha Hb)) (Nat.le_refl _) Hl)
    as (Hmono & Hpos & Hzero & Hfresh).
  assert (Hnew : forall j, j ∈ done -> hdr !! j <> Some col1).
  { intros j Hj Hjc. destruct (count_of counts col) as [|n] eqn:Ec.
    - destruct (Hzero eq_refl) as [-> ->].
      assert (0 < count_of counts col) by (apply Ha; eauto). lia.
    - apply (Hfresh ltac:(lia)). eapply list_elem_of_lookup_2, Hjc. }
  assert (Hother : forall j, j ∈ done -> <[i:=col1]> hdr !! j = hdr !! j).
  { intros j Hj. rewrite list_lookup_insert_ne; [reflexivity|]. intros ->. contradiction. }
  assert (Hlen : i < length hdr) by (eapply lookup_lt_Some, Hcol).
  split.
  - intros k. rewrite count_of_insert. split.
    + case_decide as Hk.
      * intros _. subst k. exists i. rewrite list_lookup_insert_eq by exact Hlen.
        rewrite elem_of_app, list_elem_of_singleton. auto.
      * intros Hk'. destruct (Hpos k Hk') as [->|Hk''].
        -- destruct (count_of counts col) eqn:Ec.
           ++ destruct (Hzero eq_refl) as [-> ->]. congruence.
           ++ destruct (proj1 (Ha col) ltac:(lia)) as (j & Hj & Hjk).
              exists j. rewrite Hother by exact Hj. rewrite elem_of_app. auto.
        -- destruct (proj1 (Ha k) Hk'') as (j & Hj & Hjk).
           exists j. rewrite Hother by exact Hj. rewrite elem_of_app. auto.
    + intros (j & Hj & Hjk). case_decide; [lia|].
      apply elem_of_app in Hj as [Hj|Hj%list_elem_of_singleton].
      * rewrite Hother in Hjk by exact Hj.
        specialize (Hmono k). assert (0 < count_of counts k) by (apply Ha; eauto). lia.
      * subst j. rewrite list_lookup_insert_eq in Hjk by exact Hlen. congruence.
  - intros j1 j2 k Hj1 Hj2 H1 H2.
    apply elem_of_app in Hj1 as [Hj1|Hj1%list_elem_of_singleton];
    apply elem_of_app in Hj2 as [Hj2|Hj2%list_elem_of_singleton]; subst; [| | |reflexivity].
    + rewrite Hother in H1, H2 by assumption. eapply Hb; eauto.
    + rewrite Hother in H1 by assumption. rewrite list_lookup_insert_eq in H2 by exact Hlen.
      injection H2 as <-. exfalso. eapply Hnew; eauto.
    + rewrite Hother in H2 by assumption. rewrite list_lookup_insert_eq in H1 by exact Hlen.
      injection H1 as <-. exfalso. eapply Hnew; eauto.
Qed.

Lemma header_go_spec (order done : list nat) (hdr : list string) (counts : gmap string nat) :
  header_inv done hdr counts -> NoDup (done ++ order) ->
  (forall i, i ∈ order -> i < length hdr) ->
  exists names, header_go order hdr counts = Some names /\ length names = length hdr /\
    forall j1 j2 k, j1 ∈ done ++ order -> j2 ∈ done ++ order ->
      names !! j1 = Some k -> names !! j2 = Some k -> j1 = j2.
Proof.
  revert done hdr counts. induction order as [|i rest IH]; intros done hdr counts Hinv Hnd Hlt.
  - exists hdr. rewrite app_nil_r. split_and!; [reflexivity|reflexivity|apply Hinv].
  - destruct (lookup_lt_is_Some_2 hdr i (Hlt i (list_elem_of_here _ _))) as [col Hcol].
    destruct (mangle_loop_fuel hdr col counts col (count_of counts col)
                (header_inv_counts_in_hdr _ _ _ col Hinv)) as [[counts1 col1] Hl].
    cbn [header_go]. rewrite Hcol. change (default EmptyString (Some col)) with col. rewrite Hl.
    assert (Hi : i ∉ done).
    { apply NoDup_app in Hnd as (_ & Hd & _). intros Hi. apply (Hd i Hi), list_elem_of_here. }
    destruct (IH (done ++ [i]) (<[i := col1]> hdr) (<[col1 := 1]> counts1)) as (names & Hg & Hlen & Hinj).
    + eapply header_inv_step; [exact Hinv|exact Hi|exact Hcol|].
      exact Hl.
    + rewrite <- app_assoc. exact Hnd.
    + intros j Hj. rewrite length_insert. apply Hlt, list_elem_of_further, Hj.
    + exists names. rewrite length_insert in Hlen. rewrite <- app_assoc in Hinj.
      split_and!; assumption.
Qed.

(** The visiting order lists every column once. *)
Lemma col_loop_order_spec (raw : list string) :
  NoDup (col_loop_order (length raw) (unnamed_indices raw)) /\
  forall i, i ∈ col_loop_order (length raw) (unnamed_indices raw) <-> i < length raw.
Proof.
  unfold col_loop_order, unnamed_indices. split.
  - apply NoDup_app. split_and!.
    + apply NoDup_filter, NoDup_seq.
    + intros x. rewrite list_elem_of_filter. tauto.
    + apply NoDup_filter, NoDup_seq.
  - intros i. rewrite elem_of_app, list_elem_of_filter, elem_of_seq. split.
    + intros [[_ H]|H]; [lia|]. apply list_elem_of_filter in H as [_ H].
      apply elem_of_seq in H. lia.
    + intros H. destruct (decide (i ∈ filter (fun i => raw !! i = Some EmptyString)
                                      (seq 0 (length raw)))); [right; assumption|].
      left. split; [assumption|lia].
Qed.

Lemma length_unnamed (raw : list string) : length (unnamed raw) = length raw.
Proof. apply length_imap. Qed.

Lemma c_header_go (raw : list string) :
  exists names, c_header raw = Some names /\ length names = length raw /\
    forall j1 j2 k, names !! j1 = Some k -> names !! j2 = Some k -> j1 = j2.
Proof.
  destruct (col_loop_order_spec raw) as [Hnd Hall].
  destruct (header_go_spec (col_loop_order (length raw) (unnamed_indices raw)) []
              (unnamed raw) ∅ (header_inv_nil _) Hnd)
    as (names & Hg & Hlen & Hinj).
  { intros i Hi. rewrite length_unnamed. apply Hall, Hi. }
  exists names. rewrite length_unnamed in Hlen. split_and!; [exact Hg|exact Hlen|].
  intros j1 j2 k H1 H2. apply (Hinj j1 j2 k); [| |exact H1|exact H2]; simpl; apply Hall;
    rewrite <- Hlen; eapply lookup_lt_Some; eauto.
Qed.


(** ** Agreement with [dedup_names] on dot-free labels *)

(** A label without a dot cannot be confused with a mangled one. *)
Definition dot_free (s : string) : bool := negb (str_has "."%char s).

(** The number of earlier occurrences of a label. *)
Definition occ (p : list string) (x : string) : nat := length (filter (fun y => y = x) p).

(** The [c]-th repeat of a label [x] is called [x.c]. *)
Definition occ_name (p : list string) (x : string) : string :=
  match occ p x with O => x | c => mangle x c end.

Fixpoint occ_rename (p : list string) (l : list string) : list string :=
  match l with
  | [] => []
  | x :: l' => occ_name p x :: occ_rename (p ++ [x]) l'
  end.

Lemma occ_snoc (p : list string) (y x : string) :
  occ (p ++ [y]) x = occ p x + if decide (y = x) then 1 else 0.
Proof.
  unfold occ. rewrite filter_app, length_app. f_equal.
  rewrite filter_cons, filter_nil. now case_decide.
Qed.

Lemma occ_rename_app (p l1 l2 : list string) :
  occ_rename p (l1 ++ l2) = occ_rename p l1 ++ occ_rename (p ++ l1) l2.
Proof.
  revert p. induction l1 as [|x l1 IH]; intros p; simpl.
  - now rewrite app_nil_r.
  - rewrite IH, <- app_assoc. reflexivity.
Qed.

Lemma length_occ_rename (p l : list string) : length (occ_rename p l) = length l.
Proof. revert p. induction l; intros; simpl; auto. Qed.

Lemma mangle_not_dot_free (x : string) (j : nat) : dot_free (mangle x j) = false.
Proof.
  unfold dot_free. rewrite mangle_app, str_has_app, str_has_cons. simpl.
  now rewrite orb_true_r.
Qed.

Lemma mangle_neq_dot_free (x y : string) (j : nat) : dot_free y = true -> mangle x j <> y.
Proof. intros Hy E. rewrite <- E, mangle_not_dot_free in Hy. discriminate. Qed.

Lemma mangle_inj_dot_free (x y : string) (j k : nat) :
  dot_free x = true -> dot_free y = true -> mangle x j = mangle y k -> x = y /\ j = k.
Proof.
  rewrite !mangle_app. unfold dot_free.
  revert y. induction x as [|a x IH]; intros [|b y] Hx Hy H; simpl in H.
  - injection H as H. split; [reflexivity|]. now apply (inj (pretty (A:=nat))).
  - injection H as <- _. rewrite str_has_cons, Ascii.eqb_refl in Hy. discriminate.
  - injection H as -> _. rewrite str_has_cons, Ascii.eqb_refl in Hx. discriminate.
  - injection H as <- H. rewrite str_has_cons in Hx, Hy.
    apply negb_true_iff, orb_false_elim in Hx as [_ Hx].
    apply negb_true_iff, orb_false_elim in Hy as [_ Hy].
    destruct (IH y) as [-> ->]; auto using negb_true_iff.
    all: now apply negb_true_iff.
Qed.

(** The counts after a prefix [p] of dot-free labels: a label's count is
    its number of occurrences, and its mangled names [x.1 ... x.(c-1)]
    have count one. *)
Definition occ_counts (p : list string) (counts : gmap string nat) : Prop :=
  (forall x, dot_free x = true -> count_of counts x = occ p x) /\
  (forall x j, dot_free x = true ->
     count_of counts (mangle x j) = if bool_decide (1 <= j < occ p x) then 1 else 0).

(** What both [while] loops return on a dot-free label after [p], and
    the counts after the label is stored. *)
Definition occ_loop (p : list string) (counts : gmap string nat) (x : string)
    : gmap string nat * string :=
  match occ p x with
  | O => (counts, x)
  | c => (<[x := S c]> counts, mangle x c)
  end.

Definition occ_next (p : list string) (counts : gmap string nat) (x : string) : gmap string nat :=
  let '(counts1, col1) := occ_loop p counts x in <[col1 := 1]> counts1.

Lemma occ_counts_nil : occ_counts [] ∅.
Proof.
  split; intros; unfold count_of; rewrite lookup_empty; [reflexivity|].
  now rewrite bool_decide_false by (unfold occ; simpl; lia).
Qed.

Lemma occ_counts_step (p : list string) (counts : gmap string nat) (x : string) :
  dot_free x = true -> occ_counts p counts -> occ_counts (p ++ [x]) (occ_next p counts x).
Proof.
  intros Hx [Hl Hm]. unfold occ_next, occ_loop. split.
  - intros y Hy. rewrite occ_snoc, <- (Hl y Hy).
    destruct (occ p x) as [|c] eqn:Ec; cbn iota; rewrite !count_of_insert.
    + destruct (decide (x = y)) as [<-|]; [rewrite (Hl x Hx), Ec|]; lia.
    + rewrite decide_False by (apply mangle_neq_dot_free, Hy).
      destruct (decide (x = y)) as [<-|]; [rewrite (Hl x Hx), Ec|]; lia.
  - intros y j Hy. rewrite occ_snoc.
    destruct (occ p x) as [|c] eqn:Ec; cbn iota; rewrite !count_of_insert.
    + rewrite decide_False by (apply not_eq_sym, mangle_neq_dot_free, Hx).
      rewrite Hm by exact Hy. destruct (decide (x = y)); subst; [rewrite Ec|];
        repeat case_bool_decide; lia.
    + destruct (decide (mangle x (S c) = mangle y j)) as [E|E].
      * apply mangle_inj_dot_free in E as [<- <-]; [|exact Hx|exact Hy].
        rewrite decide_True, Ec by reflexivity. case_bool_decide; lia.
      * rewrite decide_False by (apply not_eq_sym, mangle_neq_dot_free, Hx).
        rewrite Hm by exact Hy. destruct (decide (x = y)); subst; [rewrite Ec|];
          repeat case_bool_decide; try lia.
        all: exfalso; apply E; f_equal; lia.
Qed.


Lemma occ_app (l1 l2 : list string) (x : string) : occ (l1 ++ l2) x = occ l1 x + occ l2 x.
Proof. unfold occ. now rewrite filter_app, length_app. Qed.

Lemma occ_cons_self (l : list string) (x : string) : occ (x :: l) x = S (occ l x).
Proof. unfold occ. rewrite filter_cons, decide_True by reflexivity. reflexivity. Qed.

Lemma occ_loop_name (p : list string) (counts counts1 : gmap string nat) (x col1 : string) :
  occ_loop p counts x = (counts1, col1) ->
  col1 = occ_name p x /\ <[col1 := 1]> counts1 = occ_next p counts x.
Proof.
  intros E. unfold occ_next. rewrite E. split; [|reflexivity].
  unfold occ_loop, occ_name in *. destruct (occ p x); congruence.
Qed.

(** [dedup_names]' loop on a dot-free label. *)
Lemma dedup_loop_occ (p : list string) (counts : gmap string nat) (x : string) :
  occ_counts p counts -> dot_free x = true ->
  dedup_loop (size counts) counts x (count_of counts x) = Some (occ_loop p counts x).
Proof.
  intros [Hl Hm] Hx. rewrite (Hl x Hx). unfold occ_loop.
  destruct (occ p x) as [|c] eqn:Ec; [apply dedup_loop_zero|].
  destruct (size counts) as [|f] eqn:Es.
  - apply map_size_empty_iff in Es. subst counts.
    specialize (Hl x Hx). unfold count_of in Hl. rewrite lookup_empty in Hl. simpl in Hl. lia.
  - cbn [dedup_loop]. rewrite count_of_insert, decide_False by apply not_eq_sym, mangle_neq.
    rewrite (Hm x (S c) Hx), Ec, bool_decide_false by lia. apply dedup_loop_zero.
Qed.

(** The C parser's loop on a dot-free label whose mangled name is not in
    the header. *)
Lemma mangle_loop_occ (p hdr : list string) (counts : gmap string nat) (x : string) (n : nat) :
  occ_counts p counts -> dot_free x = true ->
  (0 < occ p x -> mangle x (occ p x) ∉ hdr) ->
  mangle_loop (S n) hdr counts x x (count_of counts x) = Some (occ_loop p counts x).
Proof.
  intros [Hl Hm] Hx Hfresh. rewrite (Hl x Hx). unfold occ_loop.
  destruct (occ p x) as [|c] eqn:Ec; [reflexivity|].
  cbn [mangle_loop]. rewrite bool_decide_false by (apply Hfresh; lia).
  rewrite count_of_insert, decide_False by apply not_eq_sym, mangle_neq.
  rewrite (Hm x (S c) Hx), Ec, bool_decide_false by lia. now destruct n.
Qed.

(** The labels [occ_rename] gives are dot-free labels or names [y.j] with
    [j] below [y]'s occurrences. *)
Lemma occ_rename_elem (q l : list string) (z : string) :
  Forall (fun x => dot_free x = true) l -> z ∈ occ_rename q l ->
  dot_free z = true \/ exists y j, z = mangle y j /\ dot_free y = true /\ j < occ (q ++ l) y.
Proof.
  revert q. induction l as [|x l IH]; intros q Hf Hz; [inversion Hz|].
  apply Forall_cons in Hf as [Hx Hf]. simpl in Hz.
  apply elem_of_cons in Hz as [->|Hz].
  - unfold occ_name. destruct (occ q x) as [|c] eqn:Ec; [left; exact Hx|].
    right. exists x, (S c). split_and!; [reflexivity|exact Hx|].
    rewrite occ_app, occ_cons_self. lia.
  - destruct (IH (q ++ [x]) Hf Hz) as [H|(y & j & -> & Hy & Hj)]; [left; exact H|].
    right. exists y, j. rewrite <- app_assoc in Hj. auto.
Qed.

Lemma dedup_go_occ (p l : list string) (counts : gmap string nat) :
  occ_counts p counts -> Forall (fun x => dot_free x = true) l ->
  dedup_go counts l = occ_rename p l.
Proof.
  revert p counts. induction l as [|x l IH]; intros p counts Hc Hf; [reflexivity|].
  apply Forall_cons in Hf as [Hx Hf]. cbn [dedup_go occ_rename].
  rewrite (dedup_loop_occ p counts x Hc Hx).
  destruct (occ_loop p counts x) as [counts1 col1] eqn:E.
  destruct (occ_loop_name _ _ _ _ _ E) as [-> ->]. f_equal.
  apply IH; [apply occ_counts_step|]; assumption.
Qed.

Lemma header_go_occ (p s : list string) (counts : gmap string nat) :
  occ_counts p counts -> Forall (fun x => dot_free x = true) (p ++ s) ->
  header_go (seq (length p) (length s)) (occ_rename [] p ++ s) counts
  = Some (occ_rename [] (p ++ s)).
Proof.
  revert p counts. induction s as [|x s IH]; intros p counts Hc Hf.
  - rewrite !app_nil_r. reflexivity.
  - pose proof Hf as Hf'. apply Forall_app in Hf' as [Hp Hxs].
    apply Forall_cons in Hxs as [Hx Hs].
    cbn [length seq header_go].
    rewrite list_lookup_middle by (symmetry; apply length_occ_rename).
    change (default EmptyString (Some x)) with x.
    rewrite (mangle_loop_occ p); [|exact Hc|exact Hx|].
    + destruct (occ_loop p counts x) as [counts1 col1] eqn:E.
      destruct (occ_loop_name _ _ _ _ _ E) as [-> ->].
      rewrite insert_app_r_alt by (rewrite length_occ_rename; lia).
      rewrite length_occ_rename, Nat.sub_diag. cbn [insert list_insert].
      replace (S (length p)) with (length (p ++ [x])) by (rewrite length_app; simpl; lia).
      replace (occ_rename [] p ++ occ_name p x :: s) with (occ_rename [] (p ++ [x]) ++ s)
        by (rewrite occ_rename_app, <- app_assoc; reflexivity).
      replace (p ++ x :: s) with ((p ++ [x]) ++ s) by (rewrite <- app_assoc; reflexivity).
      apply IH; [apply occ_counts_step; assumption|rewrite <- app_assoc; exact Hf].
    + intros Hpos Hin. apply elem_of_app in Hin as [Hin|Hin].
      * destruct (occ_rename_elem [] p _ Hp Hin) as [H|(y & j & E & Hy & Hj)].
        -- now rewrite mangle_not_dot_free in H.
        -- apply mangle_inj_dot_free in E as [<- <-]; [|exact Hx|exact Hy]. simpl in Hj. lia.
      * assert (Hxs : Forall (fun x => dot_free x = true) (x :: s)) by (constructor; assumption).
        rewrite Forall_forall in Hxs. specialize (Hxs _ Hin).
        now rewrite mangle_not_dot_free in Hxs.
Qed.

Lemma unnamed_id (raw : list string) :
  Forall (fun x => x <> EmptyString) raw -> unnamed raw = raw.
Proof.
  intros Hf. unfold unnamed. apply list_eq. intros i. rewrite list_lookup_imap.
  destruct (raw !! i) as [x|] eqn:E; [|reflexivity]. simpl.
  rewrite Forall_lookup in Hf. specialize (Hf i x E).
  destruct (String.eqb_spec x EmptyString); congruence.
Qed.

Lemma unnamed_indices_nil (raw : list string) :
  Forall (fun x => x <> EmptyString) raw -> unnamed_indices raw = [].
Proof.
  intros Hf. unfold unnamed_indices. apply list_filter_none, Forall_forall.
  intros i _ Hi. rewrite Forall_lookup in Hf. exact (Hf i _ Hi eq_refl).
Qed.

(** ** Properties *)

(** The C parser's renaming of a header always returns: the fuel
    [len(this_header) + 1] of its [while] loop never runs out. *)
Lemma c_header_total (raw : list string) : exists names, c_header raw = Some names.
Proof. destruct (c_header_go raw) as (names & H & _). eauto. Qed.

(** The labels the C parser gives a header are pairwise distinct, one
    per field of the header row. *)
Lemma c_header_nodup (raw names : list string) :
  c_header raw = Some names -> NoDup names /\ length names = length raw.
Proof.
  destruct (c_header_go raw) as (names' & H & Hlen & Hinj). intros H'.
  rewrite H in H'. injection H' as <-. split; [|exact Hlen].
  apply NoDup_alt. intros j1 j2 k. apply Hinj.
Qed.


(** On a header whose labels are non-empty and contain no dot, the
    C parser's renaming and [pandas.io.common.dedup_names] give the same
    labels. *)
Lemma c_header_equiv (raw : list string) :
  Forall (fun x => x <> EmptyString /\ dot_free x = true) raw ->
  c_header raw = Some (dedup_names raw).
Proof.
  intros Hf. apply Forall_and in Hf as [Hne Hdot].
  unfold c_header, dedup_names. rewrite unnamed_id, unnamed_indices_nil by exact Hne.
  unfold col_loop_order. rewrite list_filter_all, app_nil_r
    by (apply Forall_forall; intros i _ Hi; inversion Hi).
  rewrite (dedup_go_occ [] raw ∅ occ_counts_nil Hdot).
  exact (header_go_occ [] raw ∅ occ_counts_nil Hdot).
Qed.

(** On dot-free labels [dedup_names] names the [c]-th repeat of a
    label [x] (counting from zero) [x.c] and keeps first occurrences. *)
Theorem dedup_names_occ (raw : list string) :
  Forall (fun x => dot_free x = true) raw -> dedup_names raw = occ_rename [] raw.
Proof. exact (dedup_go_occ [] raw ∅ occ_counts_nil). Qed.

(** ** Witnesses and examples *)

Example c_header_nodup_example :
  c_header ["q"; "q"; "q.1"] = Some ["q"; "q.2"; "q.1"] /\
  NoDup ["q"; "q.2"; "q.1"] /\ length ["q"; "q.2"; "q.1"] = length ["q"; "q"; "q.1"].
Proof.
  assert (H : c_header ["q"; "q"; "q.1"] = Some ["q"; "q.2"; "q.1"]) by (vm_compute; reflexivity).
  split; [exact H|]. exact (c_header_nodup _ _ H).
Qed.

Example c_header_equiv_example :
  c_header ["q"; "a"; "q"; "q"] = Some (dedup_names ["q"; "a"; "q"; "q"]).
Proof. apply c_header_equiv. repeat constructor; discriminate. Qed.

Example dedup_names_occ_example :
  dedup_names ["q"; "a"; "q"] = occ_rename [] ["q"; "a"; "q"].
Proof. apply dedup_names_occ. repeat constructor. Qed.

(** Where the two renamings differ: [dedup_names] gives [q.1.1] to the
    third label, the C parser skips [q.1], which the header has. *)
Example c_header_skips_existing :
  c_header ["q"; "q"; "q.1"] = Some ["q"; "q.2"; "q.1"] /\
  dedup_names ["q"; "q"; "q.1"] = ["q"; "q.1"; "q.1.1"].
Proof. vm_compute. split; reflexivity. Qed.

(** Unnamed columns are renamed after the named ones, so a given label
    [Unnamed: 1] keeps its name. *)
Example c_header_unnamed_last :
  c_header ["a"; EmptyString; "Unnamed: 1"] = Some ["a"; "Unnamed: 1.1"; "Unnamed: 1"].
Proof. vm_compute. reflexivity. Qed.

End HeaderDedup.
