(* ===== verification/CsvReader.v ===== *)
(** * CsvReader: [pandas.read_csv] with the C engine, as [csv2apkg] calls it

    The reader of lines 47 and 49, with pandas' defaults for every option
    the program does not pass: the double-quote character (ASCII 34), doubled quotes
    inside quoted fields, no escape character, blank lines skipped, and
    the default missing-value strings.  It has three stages.

    - [tokenize]: the state machine of pandas' C tokenizer
      ([pandas/_libs/src/parser/tokenizer.c], [tokenize_bytes],
      [end_line], [parser_handle_eof]) turns the text into records of
      fields, after skipping a UTF-8 byte-order mark at its start
      ([skip_bom], the [CHECK_FOR_BOM] of [tokenize_bytes]).  A line of blanks only is skipped like an empty one; LF, CR
      and CR LF end records; a record wider than the one before it is an
      error (except the first data record), a narrower one is padded with
      empty fields.
    - [build_frame]: the header row gives the labels, renamed by the C
      parser ([HeaderDedup.c_header]: [Unnamed: i] for an empty one,
      repeated labels mangled) and then by [dedup_names] ([Dedup]), which
      [pandas/io/parsers/c_parser_wrapper.py] applies to them again; with
      [header=None, names=...] the names are the labels.  When the first
      data record is wider than the labels, its leading fields form the
      row index (pandas' implicit [index_col]) and are dropped.
    - [convert_frame]: the fields of each column (a missing field is
      empty) are converted by [Infer.convert_column], pandas'
      [_convert_tokens]: [int64], [float64], [bool] or text, a field
      spelled as a missing value (the empty string among them) becoming
      [NaN]; the rows are rebuilt from the converted columns.

    The theorems: the reader is an instance of [TableReader] and
    discharges its laws; its text cells are never missing-value strings;
    the tokenizer reads back what Python's [csv] writer produced with
    every field quoted, so a double-mode file so written is read as its
    records ([read_csv_written]); every step of the tokenizer keeps the invariant
    [tok_inv] of the records it has read (their widths, and that a record
    once read is kept); and a record of unquoted fields is read as those
    fields, whence pandas' implicit index on a first data record one
    field too wide, the skipping of blank lines in single mode and the
    labels of a header [question,question].

    A table of text fields (fields that every other dtype rejects,
    [Infer.is_text]) is read as its fields ([convert_frame_text]); a
    [question,answer] file of unquoted records ([bare_table]) is read as
    those records ([read_csv_question_answer]) and, with integer answers,
    as a text column and an [int64] column ([frame_of_text_ints]); a
    byte-order mark at the start changes nothing ([read_csv_bom]).

    Not modelled: the exact line numbers of error
    messages, and the python engine (a separator that is not one
    character), which the model reports as [Unmodelled]. *)

From S2P Require Import Prelude Py Float64 Frame Infer TableReader Dedup HeaderDedup.
Import Float64 Frame Infer Dedup HeaderDedup.

Module CsvReader.

Definition LF : ascii := ascii_of_nat 10.
Definition CR : ascii := ascii_of_nat 13.
Definition QUOTE : ascii := ascii_of_nat 34.
Definition TAB : ascii := ascii_of_nat 9.

(** [IS_WHITESPACE] *)
Definition is_ws (c : ascii) : bool := Ascii.eqb c " "%char || Ascii.eqb c TAB.

(** ** The tokenizer *)

Inductive tstate :=
| StartRecord
| StartField
| InField
| InQuotedField
| QuoteInQuotedField
| WhitespaceLine (ws : string)  (* the blanks read on a line that may be blank *)
| EatCRNL                       (* after a CR that ended a record *)
| EatCRNLNop.                   (* after a CR that ended a blank line *)

Record tok := mk_tok {
  t_field : string;              (* the field being read *)
  t_row : list string;           (* the fields of the record being read *)
  t_rows : list (list string);   (* the records read *)
  t_prev : option nat            (* the width of the last record *)
}.

Record config := mk_config {
  c_delim : ascii;
  c_header : bool                (* the first record is a header row *)
}.

Definition tok0 : tok := mk_tok EmptyString [] [] None.

(** [PUSH_CHAR] *)
Definition push_char (c : ascii) (a : tok) : tok :=
  mk_tok (t_field a +:+ String c EmptyString) (t_row a) (t_rows a) (t_prev a).

(** [END_FIELD] *)
Definition end_field (a : tok) : tok :=
  mk_tok EmptyString (t_row a ++ [t_field a]) (t_rows a) (t_prev a).

(** [end_line]: the records before [header_end + 1] are not checked; a
    record wider than the previous one is an error, a narrower one is
    padded with empty fields. *)
Definition end_line (cfg : config) (a : tok) : exn + tok :=
  let fields := length (t_row a) in
  let lines := length (t_rows a) in
  let free := if c_header cfg then 2 else 1 in
  let pad_from := if c_header cfg then 1 else 0 in
  let push row := mk_tok EmptyString [] (t_rows a ++ [row]) (Some (length row)) in
  match t_prev a with
  | Some ex =>
      if (free <=? lines) && (ex <? fields) then
        inl (ParserError ("Expected " +:+ pretty ex +:+ " fields in line "
                          +:+ pretty (S lines) +:+ ", saw " +:+ pretty fields))
      else if (pad_from <=? lines) && (fields <? ex) then
        inr (push (t_row a ++ repeat EmptyString (ex - fields)))
      else inr (push (t_row a))
  | None => inr (push (t_row a))
  end.

Definition ok (st : tstate) (a : tok) : exn + (tstate * tok) := inr (st, a).

Definition then_state (st : tstate) (r : exn + tok) : exn + (tstate * tok) :=
  match r with inl e => inl e | inr a => inr (st, a) end.

(** [START_FIELD] *)
Definition start_field (cfg : config) (c : ascii) (a : tok) : exn + (tstate * tok) :=
  if Ascii.eqb c LF then then_state StartRecord (end_line cfg (end_field a))
  else if Ascii.eqb c CR then ok EatCRNL (end_field a)
  else if Ascii.eqb c QUOTE then ok InQuotedField a
  else if Ascii.eqb c (c_delim cfg) then ok StartField (end_field a)
  else ok InField (push_char c a).

(** [IN_FIELD] *)
Definition in_field (cfg : config) (c : ascii) (a : tok) : exn + (tstate * tok) :=
  if Ascii.eqb c LF then then_state StartRecord (end_line cfg (end_field a))
  else if Ascii.eqb c CR then ok EatCRNL (end_field a)
  else if Ascii.eqb c (c_delim cfg) then ok StartField (end_field a)
  else ok InField (push_char c a).

(** [START_RECORD] *)
Definition start_record (cfg : config) (c : ascii) (a : tok) : exn + (tstate * tok) :=
  if Ascii.eqb c LF then ok StartRecord a
  else if Ascii.eqb c CR then ok EatCRNLNop a
  else if is_ws c && negb (Ascii.eqb c (c_delim cfg)) then ok (WhitespaceLine (String c EmptyString)) a
  else start_field cfg c a.

(** One character. *)
Definition step (cfg : config) (st : tstate) (c : ascii) (a : tok) : exn + (tstate * tok) :=
  match st with
  | StartRecord => start_record cfg c a
  | StartField => start_field cfg c a
  | InField => in_field cfg c a
  | InQuotedField =>
      if Ascii.eqb c QUOTE then ok QuoteInQuotedField a else ok InQuotedField (push_char c a)
  | QuoteInQuotedField =>
      if Ascii.eqb c QUOTE then ok InQuotedField (push_char c a)
      else if Ascii.eqb c (c_delim cfg) then ok StartField (end_field a)
      else if Ascii.eqb c LF then then_state StartRecord (end_line cfg (end_field a))
      else if Ascii.eqb c CR then ok EatCRNL (end_field a)
      else ok InField (push_char c a)
  | WhitespaceLine ws =>
      if Ascii.eqb c LF then ok StartRecord a
      else if Ascii.eqb c CR then ok EatCRNLNop a
      else if is_ws c && negb (Ascii.eqb c (c_delim cfg)) then ok (WhitespaceLine (ws +:+ String c EmptyString)) a
      (* not blank: the line is read again from its start *)
      else in_field cfg c (mk_tok ws (t_row a) (t_rows a) (t_prev a))
  | EatCRNL =>
      if Ascii.eqb c LF then then_state StartRecord (end_line cfg a)
      else if Ascii.eqb c (c_delim cfg) then then_state StartField (end_line cfg a)
      else match end_line cfg a with
           | inl e => inl e
           | inr a' => start_record cfg c a'
           end
  | EatCRNLNop =>
      if Ascii.eqb c LF || Ascii.eqb c (c_delim cfg) then ok StartRecord a
      else start_record cfg c a
  end.

(** [parser_handle_eof] *)
Definition handle_eof (cfg : config) (st : tstate) (a : tok) : exn + tok :=
  match st with
  | StartRecord | WhitespaceLine _ | EatCRNLNop => inr a
  | InQuotedField => inl (ParserError "EOF inside string")
  | InField | StartField | QuoteInQuotedField => end_line cfg (end_field a)
  | EatCRNL => end_line cfg a
  end.

Fixpoint tokenize_go (cfg : config) (st : tstate) (a : tok) (s : string) : exn + tok :=
  match s with
  | EmptyString => handle_eof cfg st a
  | String c s' =>
      match step cfg st c a with
      | inl e => inl e
      | inr (st', a') => tokenize_go cfg st' a' s'
      end
  end.

(** The UTF-8 byte-order mark [EF BB BF]. *)
Definition BOM : string :=
  String (ascii_of_nat 239) (String (ascii_of_nat 187) (String (ascii_of_nat 191) EmptyString)).

(** [CHECK_FOR_BOM] of [tokenize_bytes]: a byte-order mark at the start of
    the file is skipped, once. *)
Definition skip_bom (s : string) : string :=
  match s with
  | String a (String b (String c rest)) =>
      if Nat.eqb (nat_of_ascii a) 239 && Nat.eqb (nat_of_ascii b) 187 && Nat.eqb (nat_of_ascii c) 191
      then rest else s
  | _ => s
  end.

(** The records of a text. *)
Definition tokenize (cfg : config) (s : string) : exn + list (list string) :=
  match tokenize_go cfg StartRecord tok0 (skip_bom s) with
  | inl e => inl e
  | inr a => inr (t_rows a)
  end.

(** ** From records to a frame *)

(** A data record under [width] labels, after [leading] index fields:
    a missing field is an empty one, which is a missing value. *)
Definition data_fields (leading width : nat) (r : list string) : list string :=
  let vals := take width (drop leading r) in
  vals ++ repeat EmptyString (width - length vals).

(** The implicit index: the first data record's extra leading fields. *)
Definition leading_cols (width : nat) (data : list (list string)) : nat :=
  match data with r0 :: _ => length r0 - width | [] => 0 end.

(** The fields of the [width] columns. *)
Definition columns_of (width : nat) (D : list (list string)) : list (list string) :=
  List.map (fun j => List.map (fun r => nth j r EmptyString) D) (seq 0 width).

(** The [n] rows of converted columns. *)
Definition rows_of (n : nat) (cols : list (list cell)) : list (list cell) :=
  List.map (fun i => List.map (fun col => nth i col CNaN) cols) (seq 0 n).

(** Each column converted by [_convert_tokens], the frame rebuilt. *)
Definition convert_frame (names : list string) (D : list (list string)) : exn + frame :=
  match convert_columns (columns_of (length names) D) with
  | inl e => inl e
  | inr cols => inr (mk_frame names (rows_of (length D) cols))
  end.

Definition frame_of (names : list string) (data : list (list string)) : exn + frame :=
  convert_frame names (List.map (data_fields (leading_cols (length names) data) (length names)) data).

Definition build_frame (h : header_opt) (recs : list (list string)) : exn + frame :=
  match h, recs with
  | HeaderInfer, [] => inl (EmptyDataError "No columns to parse from file")
  | HeaderInfer, hdr :: data =>
      match HeaderDedup.c_header hdr with
      | Some names => frame_of (dedup_names names) data
      | None => inl (Unmodelled "header renaming out of fuel")
      end
  | HeaderNone names, _ => frame_of names recs
  end.

Definition is_infer (h : header_opt) : bool :=
  match h with HeaderInfer => true | HeaderNone _ => false end.

(** [names] is validated before the file is read. *)
Definition check_names (h : header_opt) : exn + unit :=
  match h with
  | HeaderNone names =>
      if bool_decide (NoDup names) then inr tt
      else inl (ValueError "Duplicate names are not allowed.")
  | HeaderInfer => inr tt
  end.

(** [pd.read_csv(text, sep=sep, header=..., names=...)] *)
Definition read_csv_impl (sep : pyval) (h : header_opt) (s : string) : exn + frame :=
  match check_names h with
  | inl e => inl e
  | inr _ =>
      match sep with
      | PStr (String d EmptyString) =>
          match tokenize (mk_config d (is_infer h)) s with
          | inl e => inl e
          | inr recs => build_frame h recs
          end
      | PStr _ => inl (Unmodelled "a separator of other than one character (python engine)")
      | PNone => inl (Unmodelled "sep=None (python engine)")
      | _ => inl (TypeError "delimiter must be a string")
      end
  end.

#[export] Instance csv_reader : TableReader := read_csv_impl.

(** ** The laws of the interface *)

Lemma rows_of_width (n : nat) (cols : list (list cell)) :
  Forall (fun r => length r = length cols) (rows_of n cols).
Proof.
  apply List.Forall_map, List.Forall_forall. intros i _. apply List.length_map.
Qed.

Lemma length_columns_of (width : nat) (D : list (list string)) :
  length (columns_of width D) = width.
Proof. unfold columns_of. now rewrite List.length_map, length_seq. Qed.

Lemma convert_frame_names (names : list string) (D : list (list string)) (f : frame) :
  convert_frame names D = inr f -> exists cols,
    convert_columns (columns_of (length names) D) = inr cols /\ f = mk_frame names (rows_of (length D) cols).
Proof. unfold convert_frame. destruct (convert_columns _); [discriminate|]. intros [= <-]. eauto. Qed.

Lemma frame_of_wf (names : list string) (data : list (list string)) (f : frame) :
  NoDup names -> frame_of names data = inr f -> frame_wf f.
Proof.
  intros Hnd Hf. destruct (convert_frame_names _ _ _ Hf) as (cols & Hc & ->).
  split; [exact Hnd|]. simpl. eapply List.Forall_impl; [|apply rows_of_width]. intros r ->.
  apply convert_columns_spec, Forall2_length in Hc.
  rewrite <- Hc. apply length_columns_of.
Qed.

Lemma build_frame_wf (h : header_opt) (recs : list (list string)) (f : frame) :
  check_names h = inr tt -> build_frame h recs = inr f -> frame_wf f.
Proof.
  unfold check_names, build_frame. destruct h as [|names]; intros Hc Hb.
  - destruct recs as [|hdr data]; [discriminate|].
    destruct (HeaderDedup.c_header hdr); [|discriminate].
    exact (frame_of_wf _ _ _ (proj1 (dedup_go_spec ∅ _)) Hb).
  - destruct (bool_decide (NoDup names)) eqn:E; [|discriminate].
    exact (frame_of_wf _ _ _ (bool_decide_eq_true_1 _ E) Hb).
Qed.

Lemma build_frame_shape (h : header_opt) (recs : list (list string)) (f : frame) :
  build_frame h recs = inr f -> exists names data, frame_of names data = inr f.
Proof.
  unfold build_frame. destruct h as [|names]; [destruct recs as [|hdr data]; [discriminate|]|].
  - destruct (HeaderDedup.c_header hdr); [|discriminate]. eauto.
  - eauto.
Qed.

(** The shape of a successful read. *)
Lemma read_csv_impl_ok (sep : pyval) (h : header_opt) (s : string) (f : frame) :
  read_csv_impl sep h s = inr f ->
  check_names h = inr tt /\ exists d recs,
    sep = PStr (String d EmptyString) /\ tokenize (mk_config d (is_infer h)) s = inr recs /\
    build_frame h recs = inr f.
Proof.
  unfold read_csv_impl. destruct (check_names h) as [e|[]]; [discriminate|].
  intros Hr. split; [reflexivity|].
  destruct sep as [| | | |[|d [|]]]; try discriminate.
  destruct (tokenize _ s) as [e|recs] eqn:Et; [discriminate|]. eauto.
Qed.

#[export] Instance csv_reader_laws : TableReaderLaws.
Proof.
  split.
  - intros sep h s f Hr. destruct (read_csv_impl_ok sep h s f Hr) as (Hc & d & recs & _ & _ & Hb).
    exact (build_frame_wf h recs f Hc Hb).
  - intros sep names s f Hr. destruct (read_csv_impl_ok _ _ s f Hr) as (_ & d & recs & _ & _ & Hb).
    simpl in Hb. now destruct (convert_frame_names _ _ _ Hb) as (cols & _ & ->).
Qed.

(** ** Cells *)

Lemma rows_of_forall (P : cell -> Prop) (n : nat) (cols : list (list cell)) :
  P CNaN -> Forall (Forall P) cols -> Forall (Forall P) (rows_of n cols).
Proof.
  intros HN Hc. apply List.Forall_map, List.Forall_forall. intros i _.
  apply List.Forall_map, List.Forall_forall. intros col Hcol.
  rewrite List.Forall_forall in Hc. specialize (Hc col Hcol). rewrite List.Forall_forall in Hc.
  destruct (nth_in_or_default i col CNaN) as [Hin| ->]; [exact (Hc _ Hin)|exact HN].
Qed.

Lemma frame_of_not_na (names : list string) (data : list (list string)) (f : frame) :
  frame_of names data = inr f -> Forall (Forall cell_not_na) (rows f).
Proof.
  intros Hf. destruct (convert_frame_names _ _ _ Hf) as (cols & Hc & ->). simpl.
  apply rows_of_forall; [intros t; discriminate|].
  apply convert_columns_spec in Hc. clear Hf.
  induction Hc as [|col c cols' cs' [_ Hn] _ IH]; [apply List.Forall_nil|apply List.Forall_cons; [exact Hn|exact IH]].
Qed.

(** The [i]th fields of a table, [i] below its width, form its
    table again. *)
Lemma map_nth_seq {A B} (g : A -> B) (l : list A) (d : A) :
  List.map (fun i => g (nth i l d)) (seq 0 (length l)) = List.map g l.
Proof.
  induction l as [|x l IH]; [reflexivity|].
  cbn [length seq List.map nth]. rewrite <- seq_shift, List.map_map. now f_equal.
Qed.

(** Rebuilding rows from columns that are maps over one list
    transposes them. *)
Lemma rows_of_transpose {A} (hs : list (A -> cell)) (l : list A) :
  rows_of (length l) (List.map (fun h => List.map h l) hs) = List.map (fun x => List.map (fun h => h x) hs) l.
Proof.
  induction l as [|x l IH]; [reflexivity|]. unfold rows_of in *.
  cbn [length seq]. rewrite <- seq_shift. cbn [List.map]. rewrite (List.map_map S). f_equal.
  - rewrite List.map_map. reflexivity.
  - etrans; [|exact IH]. apply List.map_ext. intros i. rewrite !List.map_map. reflexivity.
Qed.

Lemma rows_of_columns (w : nat) (D : list (list string)) :
  Forall (fun r => length r = w) D ->
  rows_of (length D) (List.map (List.map CStr) (columns_of w D)) = List.map (List.map CStr) D.
Proof.
  intros HD. unfold columns_of.
  transitivity (rows_of (length D) (List.map (fun h => List.map h D)
                                     (List.map (fun j r => CStr (nth j r EmptyString)) (seq 0 w)))).
  { f_equal. rewrite !List.map_map. apply List.map_ext. intros j. now rewrite List.map_map. }
  rewrite rows_of_transpose. apply List.map_ext_in. intros r Hr.
  rewrite List.Forall_forall in HD. rewrite List.map_map, <- (HD r Hr).
  exact (map_nth_seq CStr r EmptyString).
Qed.

Lemma convert_columns_text (cols : list (list string)) :
  Forall (Forall (fun s => is_text s = true)) cols ->
  convert_columns cols = inr (List.map (List.map CStr) cols).
Proof.
  induction 1 as [|col cols Hc _ IH]; [reflexivity|]. simpl.
  now rewrite convert_column_text, IH.
Qed.

(** A table of text fields, as wide as the labels, is read as its
    fields. *)
Lemma convert_frame_text (names : list string) (D : list (list string)) :
  Forall (fun r => length r = length names) D -> Forall (Forall (fun s => is_text s = true)) D ->
  convert_frame names D = inr (mk_frame names (List.map (List.map CStr) D)).
Proof.
  intros Hw Ht. unfold convert_frame. rewrite convert_columns_text.
  - rewrite rows_of_columns by exact Hw. reflexivity.
  - unfold columns_of. apply List.Forall_map, List.Forall_forall. intros j Hj. apply in_seq in Hj.
    apply List.Forall_map. rewrite List.Forall_forall in Hw, Ht |- *. intros r Hr.
    specialize (Ht r Hr). rewrite List.Forall_forall in Ht. apply Ht, nth_In. rewrite (Hw r Hr). lia.
Qed.

(** Every text cell of a frame the reader returns is a field that is not
    one of pandas' missing-value strings; in particular it is never
    empty, since an empty field is read as [NaN]. *)
Lemma read_csv_cells_not_na (sep : pyval) (h : header_opt) (s : string) (f : frame) :
  read_csv_impl sep h s = inr f ->
  Forall (Forall (fun c => forall t, c = CStr t -> ((t ∉ na_values) /\ t <> EmptyString))) (rows f).
Proof.
  intros Hr. destruct (read_csv_impl_ok sep h s f Hr) as (_ & d & recs & _ & _ & Hb).
  destruct (build_frame_shape h recs f Hb) as (names & data & Hf).
  apply frame_of_not_na in Hf. eapply List.Forall_impl; [|exact Hf]. intros r Hrow.
  eapply List.Forall_impl; [|exact Hrow]. intros c Hc t Ht. split; [exact (Hc t Ht)|].
  intros ->. apply (Hc EmptyString Ht). now left.
Qed.

(** ** An example *)

Example read_csv_cells_not_na_example :
  Forall (Forall (fun c => forall t, c = CStr t -> ((t ∉ na_values) /\ t <> EmptyString)))
    (rows (mk_frame ["question"; "answer"] [[CStr "What is 2+2?"; CFloat (of_Z 4)]; [CStr "x"; CNaN]])).
Proof.
  apply (read_csv_cells_not_na (PStr ",") HeaderInfer
           ("question,answer" +:+ nl +:+ "What is 2+2?,4" +:+ nl +:+ "x,NA" +:+ nl)).
  vm_compute. reflexivity.
Qed.

(** ** The widths of the records *)

(** The records [end_line] lets through: each one is at least as wide as
    the one before it (a narrower one is padded), and from the record
    with index [free] on (the second data record with a header row, the
    second record without) it is exactly as wide. *)
Definition widths_ok (free : nat) (rows : list (list string)) : Prop :=
  forall i r r', rows !! i = Some r -> rows !! S i = Some r' ->
  length r <= length r' /\ (free <= S i -> length r' = length r).

Definition free_of (cfg : config) : nat := if c_header cfg then 2 else 1.

Lemma widths_ok_snoc (free : nat) (rows : list (list string)) (x : list string) :
  widths_ok free rows ->
  (forall l, last rows = Some l -> length l <= length x /\ (free <= length rows -> length x = length l)) ->
  widths_ok free (rows ++ [x]).
Proof.
  intros Hw Hx i r r' Hi Hi'.
  assert (Hlt : S i < S (length rows)).
  { apply lookup_lt_Some in Hi'. rewrite length_app in Hi'. simpl in Hi'. lia. }
  rewrite lookup_app_l in Hi by lia.
  destruct (decide (S i = length rows)) as [Heq|Hne].
  - rewrite lookup_app_r, Heq, Nat.sub_diag in Hi' by lia. injection Hi' as <-.
    rewrite Heq. apply Hx. rewrite last_lookup. replace (pred (length rows)) with i by lia. exact Hi.
  - rewrite lookup_app_l in Hi' by lia. exact (Hw i r r' Hi Hi').
Qed.

Create HintDb tokdb.

Section TokInv.
Context (cfg : config) (r0 : list (list string)).

(** The tokenizer's invariant: [t_prev] is the width of the last record,
    the records are [widths_ok], and they extend [r0]: a record once
    read is never changed. *)
Definition tok_inv (a : tok) : Prop :=
  t_prev a = option_map length (last (t_rows a)) /\ widths_ok (free_of cfg) (t_rows a) /\
  r0 `prefix_of` t_rows a.

Lemma tok_inv_keep (a a' : tok) :
  t_rows a' = t_rows a -> t_prev a' = t_prev a -> tok_inv a -> tok_inv a'.
Proof. unfold tok_inv. intros -> ->. exact id. Qed.

(** [end_line] adds one record, or fails. *)
Lemma end_line_rows (a a' : tok) :
  end_line cfg a = inr a' -> exists x, t_rows a' = t_rows a ++ [x] /\ t_prev a' = Some (length x).
Proof. unfold end_line. repeat case_match; intros; simplify_eq/=; eauto. Qed.

Lemma end_line_widths (a a' : tok) :
  t_prev a = option_map length (last (t_rows a)) -> widths_ok (free_of cfg) (t_rows a) ->
  end_line cfg a = inr a' -> widths_ok (free_of cfg) (t_rows a').
Proof.
  intros Hp Hw. unfold end_line. unfold free_of in Hw |- *.
  destruct (t_prev a) as [ex|] eqn:Ep.
  - destruct (last (t_rows a)) as [l|] eqn:El; [|discriminate]. injection Hp as Hex.
    assert (Hne : 1 <= length (t_rows a)).
    { destruct (t_rows a); [discriminate|simpl; lia]. }
    destruct (_ && _) eqn:E1; [discriminate|].
    destruct (((if c_header cfg then 1 else 0) <=? length (t_rows a)) && (length (t_row a) <? ex))
      eqn:E2; intros Ha; injection Ha as <-; simpl; apply widths_ok_snoc; try exact Hw;
      intros l' Hl'; rewrite El in Hl'; injection Hl' as <-; rewrite ?length_app, ?repeat_length;
      destruct (c_header cfg); nat_bools; lia.
  - assert (Er : t_rows a = []).
    { apply last_None. destruct (last (t_rows a)); [discriminate|reflexivity]. }
    intros [= <-]. simpl. rewrite Er. intros [|i] r r' Hi Hi'; discriminate.
Qed.

Lemma end_line_inv (a a' : tok) : tok_inv a -> end_line cfg a = inr a' -> tok_inv a'.
Proof.
  intros (Hp & Hw & Hpre) He. destruct (end_line_rows a a' He) as (x & Hx & Hpx).
  split; [|split; [exact (end_line_widths a a' Hp Hw He)|]].
  - rewrite Hx, Hpx, last_snoc. reflexivity.
  - rewrite Hx. now apply prefix_app_r.
Qed.

Lemma tok_inv_end_field (a : tok) : tok_inv a -> tok_inv (end_field a).
Proof. now apply tok_inv_keep. Qed.

Lemma tok_inv_push_char (c : ascii) (a : tok) : tok_inv a -> tok_inv (push_char c a).
Proof. now apply tok_inv_keep. Qed.

Lemma tok_inv_ws (ws : string) (a : tok) :
  tok_inv a -> tok_inv (mk_tok ws (t_row a) (t_rows a) (t_prev a)).
Proof. now apply tok_inv_keep. Qed.

Lemma end_line_inv_r (a a' : tok) : end_line cfg a = inr a' -> tok_inv a -> tok_inv a'.
Proof. eauto using end_line_inv. Qed.

#[local] Hint Resolve tok_inv_end_field tok_inv_push_char : tokdb.

(** The handlers of one character keep the invariant: only [end_line]
    adds a record. *)
Ltac tok_inv_cases :=
  unfold ok, then_state; intros Hi;
  repeat (case_match; simplify_eq/=); intros; simplify_eq/=; eauto with tokdb.

Lemma start_field_inv (c : ascii) (a a' : tok) (st' : tstate) :
  tok_inv a -> start_field cfg c a = inr (st', a') -> tok_inv a'.
Proof. unfold start_field. tok_inv_cases; eauto using end_line_inv_r with tokdb. Qed.

Lemma in_field_inv (c : ascii) (a a' : tok) (st' : tstate) :
  tok_inv a -> in_field cfg c a = inr (st', a') -> tok_inv a'.
Proof. unfold in_field. tok_inv_cases; eauto using end_line_inv_r with tokdb. Qed.

Lemma start_record_inv (c : ascii) (a a' : tok) (st' : tstate) :
  tok_inv a -> start_record cfg c a = inr (st', a') -> tok_inv a'.
Proof. unfold start_record. tok_inv_cases. eauto using start_field_inv. Qed.

Lemma step_inv (st st' : tstate) (c : ascii) (a a' : tok) :
  tok_inv a -> step cfg st c a = inr (st', a') -> tok_inv a'.
Proof.
  unfold step. destruct st; tok_inv_cases;
    eauto using tok_inv_ws, end_line_inv_r, start_field_inv, in_field_inv, start_record_inv with tokdb.
Qed.

Lemma tokenize_go_inv (st : tstate) (a a' : tok) (s : string) :
  tok_inv a -> tokenize_go cfg st a s = inr a' -> tok_inv a'.
Proof.
  revert st a. induction s as [|c s IH]; intros st a Hi; simpl.
  - unfold handle_eof. destruct st; intros; simplify_eq; eauto using end_line_inv_r with tokdb.
  - destruct (step cfg st c a) as [e|[st1 a1]] eqn:E; [discriminate|].
    apply IH. exact (step_inv _ _ _ _ _ Hi E).
Qed.

End TokInv.

(** ** Fields written without quotes *)

(** A character that does not end an unquoted field. *)
Definition field_char (d c : ascii) : bool :=
  negb (Ascii.eqb c d || Ascii.eqb c LF || Ascii.eqb c CR).

(** A field written as it is: not empty, not opening with a quote, and
    without the delimiter or a line break. *)
Definition bare_field (d : ascii) (t : string) : bool :=
  match t with
  | String c _ => negb (Ascii.eqb c QUOTE) && str_forall (field_char d) t
  | EmptyString => false
  end.

(** At the start of a record a blank first character opens a possibly
    blank line instead of a field. *)
Definition starts_ok (st : tstate) (t : string) : bool :=
  match st, t with
  | StartRecord, String c _ => negb (is_ws c)
  | _, _ => true
  end.

(** A text that does not open with the first byte of a byte-order mark. *)
Definition bom_free (t : string) : bool :=
  match t with String c _ => negb (Nat.eqb (nat_of_ascii c) 239) | EmptyString => true end.

Lemma skip_bom_cons (c : ascii) (t : string) :
  nat_of_ascii c <> 239 -> skip_bom (String c t) = String c t.
Proof.
  intros Hc. unfold skip_bom.
  destruct t as [|b [|c' r]]; try reflexivity; now rewrite (proj2 (Nat.eqb_neq _ _) Hc).
Qed.

Lemma skip_bom_free (t r : string) :
  bom_free t = true -> t <> EmptyString -> skip_bom (t +:+ r) = t +:+ r.
Proof.
  destruct t as [|c t]; [contradiction|]. intros Hb _. cbn [bom_free] in Hb.
  change (String c t +:+ r) with (String c (t +:+ r)). apply skip_bom_cons.
  now apply negb_true_iff, Nat.eqb_neq in Hb.
Qed.

(** A byte-order mark before a text that does not start with another one
    is not read. *)
Lemma tokenize_bom (cfg : config) (s : string) :
  skip_bom s = s -> tokenize cfg (BOM +:+ s) = tokenize cfg s.
Proof. intros Hs. unfold tokenize. change (skip_bom (BOM +:+ s)) with s. now rewrite Hs. Qed.

(** The reader skips one byte-order mark at the start of the text. *)
Lemma read_csv_bom (sep : pyval) (h : header_opt) (s : string) :
  skip_bom s = s -> read_csv_impl sep h (BOM +:+ s) = read_csv_impl sep h s.
Proof.
  intros Hs. unfold read_csv_impl. destruct (check_names h); [reflexivity|].
  destruct sep as [| | | |[|d [|]]]; try reflexivity. now rewrite tokenize_bom.
Qed.

Section Bare.
Context (cfg : config).
Hypothesis Hlf : c_delim cfg <> LF.
Hypothesis Hcr : c_delim cfg <> CR.

Lemma field_char_spec (c : ascii) :
  field_char (c_delim cfg) c = true ->
  Ascii.eqb c (c_delim cfg) = false /\ Ascii.eqb c LF = false /\ Ascii.eqb c CR = false.
Proof. unfold field_char. intros H. apply negb_true_iff, orb_false_iff in H as [[? ?]%orb_false_iff ?]. auto. Qed.

(** The characters of an unquoted field, inside it. *)
Lemma bare_run (t rest : string) (a : tok) :
  str_forall (field_char (c_delim cfg)) t = true ->
  tokenize_go cfg InField a (t +:+ rest)
  = tokenize_go cfg InField (mk_tok (t_field a +:+ t) (t_row a) (t_rows a) (t_prev a)) rest.
Proof.
  revert a. induction t as [|c t IH]; intros a Ht; cbn [String.append tokenize_go].
  - destruct a. cbn. now rewrite str_append_nil_r.
  - cbn [str_forall] in Ht. apply andb_true_iff in Ht as [Hc Ht].
    destruct (field_char_spec c Hc) as (Hd & Hl & Hr).
    cbn [step]. unfold in_field. rewrite Hl, Hr, Hd. cbn [ok]. rewrite IH by exact Ht.
    cbn. now rewrite <- str_append_assoc.
Qed.

(** The first character of an unquoted field. *)
Lemma bare_start (st : tstate) (c : ascii) (t : string) (a : tok) :
  st = StartRecord \/ st = StartField -> starts_ok st (String c t) = true ->
  Ascii.eqb c QUOTE = false -> field_char (c_delim cfg) c = true ->
  tokenize_go cfg st a (String c t) = tokenize_go cfg InField (push_char c a) t.
Proof.
  intros Hst Hs Hq Hc. destruct (field_char_spec c Hc) as (Hd & Hl & Hr).
  cbn [tokenize_go]. destruct Hst as [-> | ->]; cbn [step]; unfold start_record, start_field;
    rewrite ?Hl, ?Hr, ?Hq, ?Hd; [|reflexivity].
  cbn [starts_ok] in Hs. apply negb_true_iff in Hs. now rewrite ?Hs.
Qed.

(** A record of unquoted fields, up to its line feed. *)
Lemma bare_fields_run (fs : list string) (st : tstate) (a : tok) (rest : string) :
  fs <> [] -> Forall (fun f => bare_field (c_delim cfg) f = true) fs ->
  st = StartRecord \/ st = StartField -> starts_ok st (hd EmptyString fs) = true ->
  t_field a = EmptyString ->
  tokenize_go cfg st a (String.concat (String (c_delim cfg) EmptyString) fs +:+ String LF rest)
  = match end_line cfg (mk_tok EmptyString (t_row a ++ fs) (t_rows a) (t_prev a)) with
    | inl e => inl e
    | inr a' => tokenize_go cfg StartRecord a' rest
    end.
Proof.
  revert st a. induction fs as [|f fs IH]; intros st a Hne Hall Hst Hs Hf; [contradiction|].
  inversion Hall as [|? ? Hb Hall']; subst.
  destruct f as [|c t]; [discriminate|].
  cbn [bare_field str_forall] in Hb. apply andb_true_iff in Hb as [Hq [Hc Hfc]%andb_true_iff].
  apply negb_true_iff in Hq. cbn [hd] in Hs.
  assert (Hopen : forall u, tokenize_go cfg st a (String c t +:+ u)
                            = tokenize_go cfg InField (mk_tok (String c t) (t_row a) (t_rows a) (t_prev a)) u).
  { intros u. cbn [String.append]. rewrite bare_start by assumption. rewrite bare_run by exact Hfc.
    unfold push_char. cbn [t_field t_row t_rows t_prev]. now rewrite Hf. }
  destruct fs as [|f' fs'].
  - cbn [String.concat]. rewrite Hopen. cbn [tokenize_go step]. unfold in_field.
    replace (Ascii.eqb LF LF) with true by reflexivity.
    cbn [end_field t_field t_row t_rows t_prev]. now destruct (end_line _ _).
  - change (String.concat (String (c_delim cfg) EmptyString) (String c t :: f' :: fs'))
      with (String c t +:+ String (c_delim cfg) EmptyString
              +:+ String.concat (String (c_delim cfg) EmptyString) (f' :: fs')).
    rewrite <- !str_append_assoc, Hopen. cbn [String.append tokenize_go step]. unfold in_field.
    rewrite (proj2 (Ascii.eqb_neq (c_delim cfg) LF) Hlf).
    rewrite (proj2 (Ascii.eqb_neq (c_delim cfg) CR) Hcr), Ascii.eqb_refl.
    cbn [ok end_field t_field t_row t_rows t_prev].
    rewrite (IH StartField); [|discriminate|exact Hall'|auto|reflexivity|reflexivity].
    cbn [t_row t_rows t_prev]. cbn [end_field t_row t_rows t_prev t_field]. now rewrite <- app_assoc.
Qed.

End Bare.

(** pandas' implicit index: when the first data record of a
    [question,answer] file has three unquoted fields, the first one is
    taken as the row index and dropped, and the other two are read as
    the question and the answer. *)
Lemma read_csv_implicit_index (x y z : string) :
  bare_field "," x = true -> starts_ok StartRecord x = true ->
  bare_field "," y = true -> bare_field "," z = true -> is_text y = true -> is_text z = true ->
  read_csv_impl (PStr ",") HeaderInfer
    ("question,answer" +:+ nl +:+ x +:+ "," +:+ y +:+ "," +:+ z +:+ nl)
  = inr (mk_frame ["question"; "answer"] [[CStr y; CStr z]]).
Proof.
  intros Hx Hsx Hy Hz Hny Hnz. unfold read_csv_impl, tokenize. cbn [check_names is_infer].
  rewrite (skip_bom_free "question,answer") by (reflexivity || discriminate).
  assert (Hh : forall r, tokenize_go (mk_config "," true) StartRecord tok0 ("question,answer" +:+ nl +:+ r)
                       = tokenize_go (mk_config "," true) StartRecord
                           (mk_tok EmptyString [] [["question"; "answer"]] (Some 2)) r)
    by reflexivity.
  rewrite Hh.
  replace (x +:+ "," +:+ y +:+ "," +:+ z +:+ nl)
    with (String.concat (String (c_delim (mk_config "," true)) EmptyString) [x; y; z]
          +:+ String LF EmptyString)
    by (cbn [String.concat c_delim]; now rewrite <- !str_append_assoc).
  rewrite bare_fields_run; [|discriminate|discriminate|discriminate|repeat constructor; assumption
                           |left; reflexivity|exact Hsx|reflexivity].
  assert (He : end_line (mk_config "," true)
                 (mk_tok EmptyString ([] ++ [x; y; z]) [["question"; "answer"]] (Some 2))
               = inr (mk_tok EmptyString [] [["question"; "answer"]; [x; y; z]] (Some 3)))
    by reflexivity.
  assert (Hc : HeaderDedup.c_header ["question"; "answer"] = Some ["question"; "answer"])
    by (vm_compute; reflexivity).
  assert (Hd : dedup_names ["question"; "answer"] = ["question"; "answer"])
    by (vm_compute; reflexivity).
  cbn [t_row t_rows t_prev]. rewrite He. cbn [tokenize_go handle_eof t_rows build_frame].
  rewrite Hc, Hd. unfold frame_of, data_fields. cbn [length leading_cols List.map take drop minus repeat app].
  apply convert_frame_text; repeat constructor; assumption.
Qed.

(** The records read from a prefix of the text are the first records of
    the whole text. *)
Lemma tokenize_extends (cfg : config) (p s : string) (a1 : tok) (recs : list (list string)) :
  (forall r, tokenize_go cfg StartRecord tok0 (p +:+ r) = tokenize_go cfg StartRecord a1 r) ->
  skip_bom (p +:+ s) = p +:+ s ->
  tok_inv cfg (t_rows a1) a1 -> tokenize cfg (p +:+ s) = inr recs -> t_rows a1 `prefix_of` recs.
Proof.
  intros Hp Hb Hi. unfold tokenize. rewrite Hb, Hp.
  destruct (tokenize_go cfg StartRecord a1 s) as [e|a] eqn:E; [discriminate|]. intros [= <-].
  exact (proj2 (proj2 (tokenize_go_inv cfg _ StartRecord a1 a s Hi E))).
Qed.

(** A header row [question,question] is the first record. *)
Lemma tokenize_repeated_question (d : ascii) (s : string) (recs : list (list string)) :
  d = ","%char ->
  tokenize (mk_config d true) ("question,question" +:+ nl +:+ s) = inr recs ->
  exists data, recs = ["question"; "question"] :: data.
Proof.
  intros -> Ht.
  assert (Hpre : [["question"; "question"]] `prefix_of` recs).
  { refine (tokenize_extends (mk_config "," true) ("question,question" +:+ nl) s
              (mk_tok EmptyString [] [["question"; "question"]] (Some 2)) recs _ _ _ _).
    - intros r. rewrite <- str_append_assoc. reflexivity.
    - apply skip_bom_free; [reflexivity|discriminate].
    - split; [reflexivity|]. split; [intros [|[|i]] ? ? Hi Hi'; discriminate|reflexivity].
    - now rewrite <- str_append_assoc. }
  destruct Hpre as [data ->]. eauto.
Qed.

(** A double-mode header [question,question] gives the labels
    [question, question.1]. *)
Lemma read_csv_repeated_question (s : string) (f : frame) :
  read_csv_impl (PStr ",") HeaderInfer ("question,question" +:+ nl +:+ s) = inr f ->
  exists rs, f = mk_frame ["question"; "question.1"] rs.
Proof.
  intros Hf. destruct (read_csv_impl_ok _ _ _ _ Hf) as (_ & d & recs & Hsep & Ht & Hb).
  injection Hsep as <-.
  destruct (tokenize_repeated_question "," _ recs eq_refl Ht) as [data ->].
  assert (Hc : HeaderDedup.c_header ["question"; "question"] = Some ["question"; "question.1"])
    by (vm_compute; reflexivity).
  assert (Hd : dedup_names ["question"; "question.1"] = ["question"; "question.1"])
    by (vm_compute; reflexivity).
  unfold build_frame in Hb. rewrite Hc, Hd in Hb.
  destruct (convert_frame_names _ _ _ Hb) as (cols & _ & ->). eauto.
Qed.

(** Single mode: blank lines and lines of blanks are skipped, so two
    questions around an empty line and a line of one space give two
    rows. *)
Lemma read_csv_blank_lines (q1 q2 : string) :
  bare_field "," q1 = true -> starts_ok StartRecord q1 = true ->
  bare_field "," q2 = true -> starts_ok StartRecord q2 = true ->
  is_text q1 = true -> is_text q2 = true -> bom_free q1 = true ->
  read_csv_impl (PStr ",") (HeaderNone ["question"])
    (q1 +:+ nl +:+ nl +:+ " " +:+ nl +:+ q2 +:+ nl)
  = inr (mk_frame ["question"] [[CStr q1]; [CStr q2]]).
Proof.
  intros Hb1 Hs1 Hb2 Hs2 Hn1 Hn2 Hbom.
  change (check_names (HeaderNone ["question"])) with (@inr exn unit tt).
  unfold read_csv_impl, tokenize. cbn [is_infer].
  rewrite (skip_bom_free q1) by (assumption || (intros ->; discriminate Hb1)).
  set (cfg := mk_config "," false).
  assert (Hrec : forall q r, q +:+ nl +:+ r
                            = String.concat (String (c_delim cfg) EmptyString) [q] +:+ String LF r)
    by reflexivity.
  rewrite (Hrec q1), bare_fields_run; [|discriminate|discriminate|discriminate|repeat constructor; assumption
                                     |left; reflexivity|exact Hs1|reflexivity].
  assert (E1 : end_line cfg (mk_tok EmptyString ([] ++ [q1]) [] None)
               = inr (mk_tok EmptyString [] [[q1]] (Some 1))) by reflexivity.
  assert (Eb : tokenize_go cfg StartRecord (mk_tok EmptyString [] [[q1]] (Some 1))
                 (nl +:+ " " +:+ nl +:+ q2 +:+ nl)
               = tokenize_go cfg StartRecord (mk_tok EmptyString [] [[q1]] (Some 1)) (q2 +:+ nl))
    by reflexivity.
  assert (E2 : end_line cfg (mk_tok EmptyString ([] ++ [q2]) [[q1]] (Some 1))
               = inr (mk_tok EmptyString [] [[q1]; [q2]] (Some 1))) by reflexivity.
  cbn [t_row t_rows t_prev tok0]. rewrite E1, Eb.
  rewrite <- (str_append_nil_r nl), (Hrec q2), bare_fields_run;
    [|discriminate|discriminate|discriminate|repeat constructor; assumption
     |left; reflexivity|exact Hs2|reflexivity].
  cbn [t_row t_rows t_prev]. rewrite E2.
  cbn [tokenize_go handle_eof t_rows build_frame]. unfold frame_of, data_fields.
  cbn [length leading_cols List.map take drop minus repeat app].
  apply convert_frame_text; repeat constructor; assumption.
Qed.

(** The records the tokenizer returns are at least as wide as the one
    before them, since a narrower record is padded with empty fields,
    and from the second data record on (the second record without a
    header row) they all have the same width, since a wider one is an
    error; only the first data record may be wider than the header. *)
Lemma tokenize_widths (cfg : config) (s : string) (recs : list (list string)) :
  tokenize cfg s = inr recs ->
  forall i r r', recs !! i = Some r -> recs !! S i = Some r' ->
  length r <= length r' /\ ((if c_header cfg then 2 else 1) <= S i -> length r' = length r).
Proof.
  unfold tokenize. destruct (tokenize_go cfg StartRecord tok0 (skip_bom s)) as [e|a] eqn:E; [discriminate|].
  intros [= <-]. refine (proj1 (proj2 (tokenize_go_inv cfg [] StartRecord tok0 a (skip_bom s) _ E))).
  split; [reflexivity|]. split; [intros [|i] ? ? Hi; discriminate|apply prefix_nil].
Qed.

Example tokenize_widths_example :
  length ["x"; "y"; "z"] <= length ["1"; "2"; EmptyString] /\
  (2 <= 2 -> length ["1"; "2"; EmptyString] = length ["x"; "y"; "z"]).
Proof.
  apply (tokenize_widths (mk_config "," true) ("q,a" +:+ nl +:+ "x,y,z" +:+ nl +:+ "1,2" +:+ nl)
           [["q"; "a"]; ["x"; "y"; "z"]; ["1"; "2"; EmptyString]] ltac:(vm_compute; reflexivity) 1);
    reflexivity.
Qed.

(** ** Writing a table and reading it back *)

(** Python's [csv.writer(f, delimiter=d, quoting=csv.QUOTE_ALL,
    lineterminator='\n')]: every field in double quotes, a quote inside a
    field doubled. *)
Fixpoint escape_quotes (s : string) : string :=
  match s with
  | EmptyString => EmptyString
  | String c s' =>
      if Ascii.eqb c QUOTE then String QUOTE (String QUOTE (escape_quotes s'))
      else String c (escape_quotes s')
  end.

Definition write_field (f : string) : string :=
  String QUOTE (escape_quotes f +:+ String QUOTE EmptyString).

Fixpoint write_fields (d : ascii) (fs : list string) : string :=
  match fs with
  | [] => EmptyString
  | [f] => write_field f
  | f :: fs' => write_field f +:+ String d (write_fields d fs')
  end.

(** The text of records of unquoted fields, each ended by a line feed:
    what Python's [csv] writer produces when no field needs quotes. *)
Fixpoint bare_table (d : ascii) (rows : list (list string)) : string :=
  match rows with
  | [] => EmptyString
  | r :: rs => String.concat (String d EmptyString) r +:+ String LF (bare_table d rs)
  end.

Fixpoint write_table (d : ascii) (rows : list (list string)) : string :=
  match rows with
  | [] => EmptyString
  | r :: rs => write_fields d r +:+ String LF EmptyString +:+ write_table d rs
  end.

Lemma write_field_app (f t : string) :
  write_field f +:+ t = String QUOTE (escape_quotes f +:+ String QUOTE t).
Proof. unfold write_field. simpl. now rewrite <- str_append_assoc. Qed.

Section RoundTrip.
Context (cfg : config).
Hypothesis Hq : c_delim cfg <> QUOTE.
Hypothesis Hlf : c_delim cfg <> LF.

(** The characters of a quoted field, up to its closing quote. *)
Lemma quoted_run (f rest : string) (a : tok) :
  tokenize_go cfg InQuotedField a (escape_quotes f +:+ String QUOTE rest)
  = tokenize_go cfg QuoteInQuotedField
      (mk_tok (t_field a +:+ f) (t_row a) (t_rows a) (t_prev a)) rest.
Proof.
  revert a. induction f as [|c f IH]; intros a; simpl.
  - destruct a. simpl. now rewrite str_append_nil_r.
  - destruct (Ascii.eqb_spec c QUOTE) as [->|Hc]; simpl.
    + rewrite IH. simpl. now rewrite <- str_append_assoc.
    + apply Ascii.eqb_neq in Hc. rewrite Hc. simpl. rewrite IH. simpl.
      now rewrite <- str_append_assoc.
Qed.

(** A record's fields, from the start of a record or of a field, up to
    its line feed. *)
Lemma fields_run (fs : list string) (st : tstate) (a : tok) (rest : string) :
  fs <> [] -> st = StartRecord \/ st = StartField -> t_field a = EmptyString ->
  tokenize_go cfg st a (write_fields (c_delim cfg) fs +:+ String LF rest)
  = match end_line cfg (mk_tok EmptyString (t_row a ++ fs) (t_rows a) (t_prev a)) with
    | inl e => inl e
    | inr a' => tokenize_go cfg StartRecord a' rest
    end.
Proof.
  revert st a. induction fs as [|f fs IH]; intros st a Hne Hst Hf; [contradiction|].
  assert (Hopen : forall t, tokenize_go cfg st a (String QUOTE t)
                            = tokenize_go cfg InQuotedField a t).
  { intros t. destruct Hst as [-> | ->]; simpl; unfold start_record, start_field;
      rewrite ?(proj2 (Ascii.eqb_neq QUOTE (c_delim cfg)) (not_eq_sym Hq)); reflexivity. }
  assert (Hdq : Ascii.eqb (c_delim cfg) QUOTE = false) by now apply Ascii.eqb_neq.
  destruct fs as [|f' fs'].
  - cbn [write_fields]. rewrite write_field_app, Hopen, quoted_run.
    cbn [tokenize_go step]. rewrite Hf.
    replace (Ascii.eqb LF QUOTE) with false by reflexivity.
    rewrite (proj2 (Ascii.eqb_neq LF (c_delim cfg)) (not_eq_sym Hlf)), Ascii.eqb_refl.
    cbn [then_state end_field t_field t_row t_rows t_prev String.append].
    destruct (end_line _ _); reflexivity.
  - change (write_fields (c_delim cfg) (f :: f' :: fs'))
      with (write_field f +:+ String (c_delim cfg) (write_fields (c_delim cfg) (f' :: fs'))).
    rewrite <- str_append_assoc, write_field_app, Hopen, quoted_run.
    cbn [String.append tokenize_go step]. rewrite Hdq, Ascii.eqb_refl.
    cbn [ok end_field t_field t_row t_rows t_prev].
    rewrite (IH StartField); [|discriminate|auto|reflexivity].
    cbn [t_row t_rows t_prev]. rewrite Hf. cbn [String.append end_field t_row t_rows t_prev t_field]. now rewrite <- app_assoc.
Qed.

(** A record as wide as the ones before it is stored as it is. *)
Lemma end_line_same_width (a : tok) (r : list string) (w : nat) :
  length r = w -> t_prev a = None \/ t_prev a = Some w ->
  end_line cfg (mk_tok EmptyString r (t_rows a) (t_prev a))
  = inr (mk_tok EmptyString [] (t_rows a ++ [r]) (Some w)).
Proof.
  intros Hl [H|H]; unfold end_line; cbn [t_row t_rows t_prev]; rewrite H; [now rewrite Hl|].
  rewrite Hl, Nat.ltb_irrefl, !andb_false_r. reflexivity.
Qed.

(** The records of a table of one width, from the start of a record. *)
Lemma table_run (rows : list (list string)) (w : nat) (a : tok) :
  0 < w -> Forall (fun r => length r = w) rows ->
  t_field a = EmptyString -> t_row a = [] -> t_prev a = None \/ t_prev a = Some w ->
  tokenize_go cfg StartRecord a (write_table (c_delim cfg) rows)
  = inr (mk_tok EmptyString [] (t_rows a ++ rows)
           (match rows with [] => t_prev a | _ => Some w end)).
Proof.
  intros Hw Hall. revert a. induction Hall as [|r rs Hr _ IH]; intros a Hf Hrow Hprev.
  - destruct a; simpl in *. subst. now rewrite app_nil_r.
  - cbn [write_table]. cbn [String.append].
    rewrite fields_run by (auto || (intros ->; simpl in Hr; lia)).
    rewrite Hrow, app_nil_l, (end_line_same_width _ _ w) by assumption.
    rewrite IH by (cbn; auto). cbn [t_rows]. rewrite <- app_assoc.
    destruct rs; reflexivity.
Qed.

End RoundTrip.

(** The records of a table of unquoted fields of one width. *)
Lemma bare_table_run (cfg : config) (rows : list (list string)) (w : nat) (a : tok) :
  c_delim cfg <> LF -> c_delim cfg <> CR -> 0 < w ->
  Forall (fun r => length r = w /\ Forall (fun f => bare_field (c_delim cfg) f = true) r /\
                   starts_ok StartRecord (hd EmptyString r) = true) rows ->
  t_field a = EmptyString -> t_row a = [] -> t_prev a = None \/ t_prev a = Some w ->
  tokenize_go cfg StartRecord a (bare_table (c_delim cfg) rows)
  = inr (mk_tok EmptyString [] (t_rows a ++ rows) (match rows with [] => t_prev a | _ => Some w end)).
Proof.
  intros Hlf Hcr Hw Hall. revert a. induction Hall as [|r rs (Hr & Hb & Hs) _ IH]; intros a Hf Hrow Hprev.
  - destruct a; simpl in *. subst. now rewrite app_nil_r.
  - cbn [bare_table]. rewrite bare_fields_run by (auto || (intros ->; simpl in Hr; lia)).
    rewrite Hrow, app_nil_l, (end_line_same_width cfg _ _ w) by assumption.
    rewrite IH by (cbn; auto). cbn [t_rows]. rewrite <- app_assoc.
    destruct rs; reflexivity.
Qed.

Lemma str_forall_list (f : ascii -> bool) (s : string) :
  str_forall f s = forallb f (list_ascii_of_string s).
Proof. induction s as [|c s IH]; simpl; [reflexivity|now rewrite IH]. Qed.

Lemma digit_field_char (c : ascii) : isdigit_ascii c = true -> field_char "," c = true.
Proof. destruct c as [[] [] [] [] [] [] [] []]; (discriminate || reflexivity). Qed.

(** [str(z)] of an integer is an unquoted field. *)
Lemma int_str_bare (z : Z) : bare_field "," (int_str z) = true.
Proof.
  destruct z as [|p|p]; [reflexivity| |].
  all: destruct (pretty_pos_digits p) as (d & l & Hs & Hd & _).
  all: unfold int_str, pretty at 1, pretty_Z; change (pretty p) with (pretty (N.pos p)).
  all: assert (Hall : str_forall (field_char ",") (pretty (N.pos p)) = true)
         by (rewrite str_forall_list, Hs, forallb_forall; rewrite List.Forall_forall in Hd;
             intros c Hc; now apply digit_field_char, Hd).
  - rewrite <- (string_of_list_ascii_of_string (pretty (N.pos p))) in Hall |- *. rewrite Hs in Hall |- *.
    inversion Hd as [|? ? Hd0 _]; subst. cbn [string_of_list_ascii] in Hall |- *.
    cbn [bare_field]. rewrite Hall, andb_true_r.
    destruct d as [[] [] [] [] [] [] [] []]; (reflexivity || discriminate Hd0).
  - cbn [String.append bare_field str_forall]. now rewrite Hall.
Qed.

(** A double-mode file [question,answer] of unquoted records of two
    fields is read as the frame of those records. *)
Lemma read_csv_question_answer (rows : list (list string)) :
  Forall (fun r => length r = 2 /\ Forall (fun f => bare_field "," f = true) r /\
                   starts_ok StartRecord (hd EmptyString r) = true) rows ->
  read_csv_impl (PStr ",") HeaderInfer ("question,answer" +:+ nl +:+ bare_table "," rows)
  = frame_of ["question"; "answer"] rows.
Proof.
  intros Hall. unfold read_csv_impl, tokenize. cbn [check_names is_infer].
  rewrite (skip_bom_free "question,answer") by (reflexivity || discriminate).
  assert (Hh : forall r, tokenize_go (mk_config "," true) StartRecord tok0 ("question,answer" +:+ nl +:+ r)
                       = tokenize_go (mk_config "," true) StartRecord
                           (mk_tok EmptyString [] [["question"; "answer"]] (Some 2)) r)
    by reflexivity.
  rewrite Hh.
  rewrite (bare_table_run (mk_config "," true) rows 2); [|discriminate|discriminate|lia|exact Hall
                                                       |reflexivity|reflexivity|right; reflexivity].
  cbn [t_rows app build_frame].
  assert (Hc : HeaderDedup.c_header ["question"; "answer"] = Some ["question"; "answer"])
    by (vm_compute; reflexivity).
  assert (Hd : dedup_names ["question"; "answer"] = ["question"; "answer"])
    by (vm_compute; reflexivity).
  rewrite Hc, Hd. reflexivity.
Qed.

(** Records as wide as the labels are their own data fields. *)
Lemma data_fields_full (names : list string) (data : list (list string)) :
  Forall (fun r => length r = length names) data ->
  List.map (data_fields (leading_cols (length names) data) (length names)) data = data.
Proof.
  intros Hall. assert (Hl : leading_cols (length names) data = 0).
  { destruct data as [|r0 data]; [reflexivity|]. apply List.Forall_cons_iff in Hall as [H0 _].
    cbn [leading_cols]. lia. }
  rewrite Hl. rewrite <- (List.map_id data) at 2. apply List.map_ext_in. intros r Hr.
  rewrite List.Forall_forall in Hall. unfold data_fields. rewrite drop_0, take_ge by (rewrite (Hall r Hr); lia).
  rewrite (Hall r Hr), Nat.sub_diag, app_nil_r. reflexivity.
Qed.

(** A table of text questions is read as a column of texts beside the
    column the converter makes of the answers. *)
Lemma frame_of_text_column {A} (rs : list (string * A)) (g : A -> string) (h : A -> cell) :
  Forall (fun r => is_text r.1 = true) rs ->
  convert_column (List.map (fun r => g r.2) rs) = inr (List.map (fun r => h r.2) rs) ->
  frame_of ["question"; "answer"] (List.map (fun r => [r.1; g r.2]) rs)
  = inr (mk_frame ["question"; "answer"] (List.map (fun r => [CStr r.1; h r.2]) rs)).
Proof.
  intros Ht Hc. unfold frame_of. rewrite data_fields_full
    by (apply List.Forall_map, List.Forall_forall; intros; reflexivity).
  unfold convert_frame. cbn [length columns_of seq List.map]. rewrite !List.map_map. cbn [nth convert_columns].
  rewrite convert_column_text by (apply List.Forall_map; exact Ht).
  rewrite Hc. cbn -[rows_of]. f_equal. f_equal. rewrite List.length_map.
  rewrite !List.map_map.
  exact (rows_of_transpose [fun r => CStr r.1; fun r => h r.2] rs).
Qed.

(** A table of text questions and [int64] answers is read as a column of
    texts and a column of integers. *)
Lemma frame_of_text_ints (rs : list (string * Z)) :
  Forall (fun r => is_text r.1 = true /\ (INT64_MIN <= r.2 <= INT64_MAX)%Z) rs ->
  frame_of ["question"; "answer"] (List.map (fun r => [r.1; int_str r.2]) rs)
  = inr (mk_frame ["question"; "answer"] (List.map (fun r => [CStr r.1; CInt r.2]) rs)).
Proof.
  intros Hall. apply (frame_of_text_column rs int_str CInt).
  { eapply List.Forall_impl; [|exact Hall]. now intros r [H _]. }
  replace (List.map (fun r => int_str r.2) rs)
    with (List.map (fun o => match o with Some z => int_str z | None => EmptyString end)
                   (List.map (fun r => Some r.2) rs)) by (rewrite List.map_map; reflexivity).
  rewrite convert_column_ints
    by (apply List.Forall_map; eapply List.Forall_impl; [|exact Hall]; intros r [_ H]; exact H).
  rewrite (proj2 (forallb_forall _ _)).
  - rewrite List.map_map. reflexivity.
  - intros o (r & <- & _)%List.in_map_iff. reflexivity.
Qed.

(** A table of text questions and [int64] answers of which one at least
    is missing (an empty field) is read as a column of texts and a column
    of floats: each integer is converted to a [double] and the missing
    answers are [NaN]. *)
Lemma frame_of_text_missing_ints (rs : list (string * option Z)) :
  Forall (fun r => is_text r.1 = true /\
                   match r.2 with Some z => (INT64_MIN <= z <= INT64_MAX)%Z | None => True end) rs ->
  Exists (fun r => r.2 = None) rs ->
  frame_of ["question"; "answer"]
    (List.map (fun r => [r.1; match r.2 with Some z => int_str z | None => EmptyString end]) rs)
  = inr (mk_frame ["question"; "answer"]
           (List.map (fun r => [CStr r.1; match r.2 with Some z => CFloat (of_Z z) | None => CNaN end]) rs)).
Proof.
  intros Hall Hna.
  apply (frame_of_text_column rs (fun o => match o with Some z => int_str z | None => EmptyString end)
           (fun o => match o with Some z => CFloat (of_Z z) | None => CNaN end)).
  { eapply List.Forall_impl; [|exact Hall]. now intros r [H _]. }
  rewrite <- (List.map_map snd (fun o => match o with Some z => int_str z | None => EmptyString end)).
  rewrite convert_column_ints
    by (apply List.Forall_map; eapply List.Forall_impl; [|exact Hall]; intros r [_ H]; exact H).
  replace (forallb _ (List.map snd rs)) with false.
  - now rewrite List.map_map.
  - symmetry. apply not_true_iff_false. rewrite forallb_forall.
    apply List.Exists_exists in Hna as (r & Hr & Hn). intros Hf.
    specialize (Hf r.2 (List.in_map snd rs r Hr)). rewrite Hn in Hf. now apply bool_decide_eq_true in Hf.
Qed.

(** A written table opens with a quote, not with a byte-order mark. *)
Lemma skip_bom_write (d : ascii) (rows : list (list string)) (w : nat) :
  0 < w -> Forall (fun r => length r = w) rows -> skip_bom (write_table d rows) = write_table d rows.
Proof.
  intros Hw Hall. destruct rows as [|[|f [|f' fs]] rs]; [reflexivity| |apply skip_bom_cons; discriminate
                                                        |apply skip_bom_cons; discriminate].
  apply List.Forall_cons_iff in Hall as [Hr _]. simpl in Hr. lia.
Qed.

(** Reading back a table that Python's [csv] module wrote with every
    field quoted ([QUOTE_ALL]) gives its records exactly, whatever the
    fields hold (delimiters, quotes, line breaks, blanks): for any
    delimiter other than the double quote and the line feed, with or
    without a header row, and any table whose records all have the same
    number, at least one, of fields. *)
Lemma tokenize_write_roundtrip (d : ascii) (h : bool) (rows : list (list string)) (w : nat) :
  d <> QUOTE -> d <> LF -> 0 < w -> Forall (fun r => length r = w) rows ->
  tokenize (mk_config d h) (write_table d rows) = inr rows.
Proof.
  intros Hq Hlf Hw Hall. unfold tokenize. rewrite (skip_bom_write d rows w Hw Hall).
  change d with (c_delim (mk_config d h)) at 2.
  rewrite (table_run (mk_config d h) Hq Hlf rows w tok0 Hw Hall); auto.
Qed.

Example tokenize_write_roundtrip_example :
  tokenize (mk_config "," true)
    (write_table "," [["question"; "answer"]; ["a, b"; "one" +:+ nl +:+ "two"]])
  = inr [["question"; "answer"]; ["a, b"; "one" +:+ nl +:+ "two"]].
Proof.
  apply (tokenize_write_roundtrip "," true _ 2); [discriminate|discriminate|lia|].
  repeat constructor.
Qed.

(** A double-mode file that Python's [csv] module wrote with every field
    quoted, header [question,answer] and records of two fields, is read
    as the frame of those records. *)
Lemma read_csv_written (rows : list (list string)) :
  Forall (fun r => length r = 2) rows ->
  read_csv_impl (PStr ",") HeaderInfer (write_table "," (["question"; "answer"] :: rows))
  = frame_of ["question"; "answer"] rows.
Proof.
  intros Hall. unfold read_csv_impl. cbn [check_names is_infer].
  rewrite (tokenize_write_roundtrip "," true _ 2); [|discriminate|discriminate|lia|now constructor].
  cbn [build_frame].
  assert (Hc : HeaderDedup.c_header ["question"; "answer"] = Some ["question"; "answer"])
    by (vm_compute; reflexivity).
  assert (Hd : dedup_names ["question"; "answer"] = ["question"; "answer"])
    by (vm_compute; reflexivity).
  rewrite Hc, Hd. reflexivity.
Qed.

End CsvReader.
