(* ===== verification/Cli.v ===== *)
(** * Cli: the command line, [fire.Fire(csv2apkg)] (lines 85-90)

    [main] hands [sys.argv[1:]] to [fire.Fire], which binds the words to
    the parameters of [csv2apkg] and calls it.  [Module Fire] models the
    part of [fire] (0.5, [fire/core.py] and [fire/parser.py]) this program
    reaches:

    - [SeparateFlagArgs]: the words after the last [--] are [fire]'s own
      flags;
    - [_ParseKeywordArgs]: [--name value], [--name=value], [-n value] (a
      one-letter prefix of a single parameter), [--name] alone (the value
      [True]) and [--noname] alone ([False]); other words are positional;
    - [_ParseArgs]: each parameter takes its keyword value, else the next
      positional word, else its default, and a missing [filename] is a
      [FireError];
    - [DefaultParseValue]: a word is read as a Python literal with bare
      names read as strings, and kept as it is when it does not parse.

    [parse_value] decides the fragment of words whose reading is certain
    from the grammar of Python literals: [True], [False], [None], decimal
    integers and decimal fractions (with a sign), one-character words, a
    word in single or double quotes, and plain words (letters, digits and
    [_ . / -] and inner spaces, starting with a letter, [_] or [/]); any
    other word (a list, a tuple, an exponent, ...) is [Unmodelled].  Help
    ([-h], [--help]) and [fire]'s own flags are [Unmodelled]; so are words
    left over once the parameters are bound, which [fire] reports only
    after the call.

    [Module Cli] composes the binding with [Converter.csv2apkg] and gives
    the exit status: 0 after a normal return, 2 for a [FireError], 1 for an
    exception that ends the program with a traceback. *)

From S2P Require Import Prelude Py Paths Frame Genanki TableReader CsvReader Converter.
Import PurePosixPath Converter.

Module Fire.

(** ** Characters and words *)

Definition is_alpha (c : ascii) : bool :=
  let n := nat_of_ascii c in ((65 <=? n) && (n <=? 90)) || ((97 <=? n) && (n <=? 122)).

Definition is_digit (c : ascii) : bool :=
  let n := nat_of_ascii c in (48 <=? n) && (n <=? 57).

Definition SQUOTE : ascii := ascii_of_nat 39.
Definition DQUOTE : ascii := ascii_of_nat 34.
Definition BACKSLASH : ascii := ascii_of_nat 92.

(** [s[:-1], s[-1]] *)
Fixpoint str_split_last (s : string) : option (string * ascii) :=
  match s with
  | EmptyString => None
  | String c EmptyString => Some (EmptyString, c)
  | String c s' =>
      match str_split_last s' with
      | Some (b, l) => Some (String c b, l)
      | None => None
      end
  end.

(** [s.split(c, 1)] *)
Fixpoint str_split_once (c : ascii) (s : string) : string * option string :=
  match s with
  | EmptyString => (EmptyString, None)
  | String a s' =>
      if Ascii.eqb a c then (EmptyString, Some s')
      else let '(b, r) := str_split_once c s' in (String a b, r)
  end.

(** [key.replace('-', '_')] *)
Fixpoint dash_to_underscore (s : string) : string :=
  match s with
  | EmptyString => EmptyString
  | String a s' => String (if Ascii.eqb a "-"%char then "_"%char else a) (dash_to_underscore s')
  end.

(** ** [fire.core._IsFlag] *)

(** [argument.startswith('--') or re.match('^-[a-zA-Z]', argument)] *)
Definition is_flag (a : string) : bool :=
  match a with
  | String c1 (String c2 _) => Ascii.eqb c1 "-"%char && (Ascii.eqb c2 "-"%char || is_alpha c2)
  | _ => false
  end.

(** ** [fire.parser.DefaultParseValue] on the decided fragment *)

(** The value of a string of decimal digits. *)
Fixpoint digits_value (acc : Z) (s : string) : Z :=
  match s with
  | EmptyString => acc
  | String c s' => digits_value (10 * acc + (Z.of_nat (nat_of_ascii c) - 48)) s'
  end.

Definition all_digits (s : string) : bool :=
  negb (String.eqb s EmptyString) && str_forall is_digit s.

(** A decimal integer literal: no leading zero, unless all its digits are zero. *)
Definition dec_int_ok (s : string) : bool :=
  all_digits s &&
  match s with
  | String "0"%char _ => str_forall (fun c => Ascii.eqb c "0"%char) s
  | _ => true
  end.

(** [digits.digits] with at least one digit. *)
Definition point_float (s : string) : option (string * string) :=
  match str_split_once "."%char s with
  | (a, Some b) =>
      if str_forall is_digit a && str_forall is_digit b
         && negb (String.eqb (a +:+ b) EmptyString)
      then Some (a, b) else None
  | (_, None) => None
  end.

Definition plain_char (c : ascii) : bool :=
  is_alpha c || is_digit c || Ascii.eqb c "_"%char || Ascii.eqb c "."%char
  || Ascii.eqb c "/"%char || Ascii.eqb c "-"%char || Ascii.eqb c " "%char.

(** A word that Python reads as a name, an expression that is not a
    literal, or a syntax error, so that [fire] keeps it as a string. *)
Definition plain (s : string) : bool :=
  match s, str_split_last s with
  | String c _, Some (_, l) =>
      (is_alpha c || Ascii.eqb c "_"%char || Ascii.eqb c "/"%char)
      && str_forall plain_char s && negb (Ascii.eqb l " "%char)
      && negb (String.eqb s "True" || String.eqb s "False" || String.eqb s "None")
  | _, _ => false
  end.

(** The body of a one-line quoted string without escapes. *)
Definition quoted_body (s : string) : option string :=
  match s with
  | String q rest =>
      if Ascii.eqb q SQUOTE || Ascii.eqb q DQUOTE then
        match str_split_last rest with
        | Some (body, l) =>
            if Ascii.eqb l q
               && str_forall (fun c => negb (Ascii.eqb c q || Ascii.eqb c BACKSLASH
                                             || (nat_of_ascii c <? 32))) body
            then Some body else None
        | None => None
        end
      else None
  | EmptyString => None
  end.

Definition negate (neg : bool) (z : Z) : Z := if neg then Z.opp z else z.

(** A number with an optional minus sign: [-5] is [UnaryOp(USub, 5)]. *)
Definition parse_number (neg : bool) (s : string) : option pyval :=
  if all_digits s then
    if dec_int_ok s then Some (PInt (negate neg (digits_value 0 s)))
    else None
  else match point_float s with
       | Some (a, b) =>
           Some (PFloat (negate neg (digits_value 0 (a +:+ b))) (- Z.of_nat (String.length b)))
       | None => None
       end.

(** [DefaultParseValue(value)]: [_LiteralEval(value)], or [value] itself
    on a [SyntaxError] or [ValueError]. *)
Definition parse_value (s : string) : exn + pyval :=
  if String.eqb s "True" then inr (PBool true)
  else if String.eqb s "False" then inr (PBool false)
  else if String.eqb s "None" then inr PNone
  else match s with
  | String c EmptyString =>
      if is_digit c then inr (PInt (digits_value 0 s))
      else if nat_of_ascii c <? 128 then inr (PStr s)
      else inl (Unmodelled "a word outside the literal fragment")
  | _ =>
      match quoted_body s with
      | Some body => inr (PStr body)
      | None =>
          let '(neg, digits) :=
            match s with String "-"%char s' => (true, s') | _ => (false, s) end in
          if all_digits digits && negb (dec_int_ok digits) then
            (* leading zeros: a [SyntaxError], the word is kept *)
            inr (PStr s)
          else match parse_number neg digits with
               | Some v => inr v
               | None =>
                   if plain s then inr (PStr s)
                   else inl (Unmodelled "a word outside the literal fragment")
               end
      end
  end.

(** ** Binding the words to the parameters of [csv2apkg] *)

(** [fn_spec.args] of [csv2apkg] *)
Definition fn_args : list string := ["filename"; "title"; "sep"; "mode"].

(** [parser.SeparateFlagArgs]: the words before and after the last [--]. *)
Fixpoint split_last_sep (args : list string) : option (list string * list string) :=
  match args with
  | [] => None
  | a :: rest =>
      match split_last_sep rest with
      | Some (b, f) => Some (a :: b, f)
      | None => if String.eqb a "--" then Some ([], rest) else None
      end
  end.

Definition separate_flag_args (args : list string) : list string * list string :=
  match split_last_sep args with Some p => p | None => (args, []) end.

Definition starts_no (key : string) : bool :=
  match key with String "n"%char (String "o"%char _) => true | _ => false end.

(** The keyword a flag names: the parameter itself, [no] and a parameter
    in the boolean syntax, or the one parameter a one-letter key starts. *)
Definition keyword_of (argument key : string) (is_bool_syntax : bool) : exn + string :=
  if bool_decide (key ∈ fn_args)
     || (is_bool_syntax && starts_no key && bool_decide (str_drop 2 key ∈ fn_args))
  then inr key
  else match key with
       | String k EmptyString =>
           match List.filter (fun a => match a with String c _ => Ascii.eqb c k | _ => false end) fn_args with
           | [] => inr EmptyString
           | [a] => inr a
           | _ => inl (FireError ("The argument '" +:+ argument +:+ "' is ambiguous"))
           end
       | _ => inr EmptyString
       end.

(** What [_ParseKeywordArgs] collects: [kwargs], [remaining_kwargs],
    [remaining_args]. *)
Record kw_state := mk_kw {
  kwargs : gmap string string;
  remaining_kwargs : list string;
  remaining_args : list string
}.

Definition kw0 : kw_state := mk_kw ∅ [] [].

(** One flag: the keyword it names and its value, or [None] when it names
    none; [true] when it consumes the next word. *)
Definition flag_of (argument : string) (next : option string)
    : exn + (option (string * string) * bool) :=
  let contains_equals := str_has "="%char argument in
  let stripped := str_lstrip "-"%char argument in
  let '(key0, value0) :=
    if contains_equals then str_split_once "="%char stripped else (stripped, None) in
  let key := dash_to_underscore key0 in
  let is_bool_syntax :=
    negb contains_equals && match next with None => true | Some b => is_flag b end in
  let skip := negb contains_equals && negb is_bool_syntax in
  match keyword_of argument key is_bool_syntax with
  | inl e => inl e
  | inr keyword =>
      if String.eqb keyword EmptyString then inr (None, skip)
      else if contains_equals then inr (Some (keyword, default EmptyString value0), skip)
      else if is_bool_syntax then
        if bool_decide (keyword ∈ fn_args) then inr (Some (keyword, "True"), skip)
        else if starts_no keyword then inr (Some (str_drop 2 keyword, "False"), skip)
        else inr (Some (keyword, "True"), skip)
      else inr (Some (keyword, default EmptyString next), skip)
  end.

(** The loop of [_ParseKeywordArgs] over the words; [skip] is
    [skip_argument], set when a flag took the next word as its value. *)
Fixpoint parse_kw (args : list string) (skip : bool) (st : kw_state) : exn + kw_state :=
  match args with
  | [] => inr st
  | a :: rest =>
      if skip then parse_kw rest false st
      else if is_flag a then
        match flag_of a (head rest) with
        | inl e => inl e
        | inr (Some (k, v), skip') =>
            parse_kw rest skip'
              (mk_kw (<[k := v]> (kwargs st)) (remaining_kwargs st) (remaining_args st))
        | inr (None, skip') =>
            parse_kw rest skip'
              (mk_kw (kwargs st)
                 (remaining_kwargs st ++ a :: (if skip' then option_list (head rest) else []))
                 (remaining_args st))
        end
      else parse_kw rest false (mk_kw (kwargs st) (remaining_kwargs st) (remaining_args st ++ [a]))
  end.

(** The arguments of the call. *)
Record call := mk_call { c_filename : pyval; c_title : pyval; c_sep : pyval; c_mode : pyval }.

(** One parameter of [_ParseArgs]: its keyword value, else the next
    positional word, else its default; then [_ParseValue]. *)
Definition take_param (name : string) (dflt : option pyval) (kw : gmap string string)
    (rest : list string) : exn + (pyval * list string) :=
  match kw !! name with
  | Some v => match parse_value v with inl e => inl e | inr x => inr (x, rest) end
  | None =>
      match rest with
      | r :: rest' => match parse_value r with inl e => inl e | inr x => inr (x, rest') end
      | [] =>
          match dflt with
          | Some d => inr (d, [])
          | None => inl (FireError ("The function received no value for the required argument: " +:+ name))
          end
      end
  end.

(** [_ParseArgs] for the four parameters, then the check that every word
    was consumed. *)
Definition parse_args (st : kw_state) : exn + call :=
  match take_param "filename" None (kwargs st) (remaining_args st) with
  | inl e => inl e
  | inr (filename, r1) =>
  match take_param "title" (Some PNone) (kwargs st) r1 with
  | inl e => inl e
  | inr (title, r2) =>
  match take_param "sep" (Some (PStr ",")) (kwargs st) r2 with
  | inl e => inl e
  | inr (sep, r3) =>
  match take_param "mode" (Some (PStr "double")) (kwargs st) r3 with
  | inl e => inl e
  | inr (mode, r4) =>
      match r4 ++ remaining_kwargs st with
      | [] => inr (mk_call filename title sep mode)
      | _ :: _ => inl (Unmodelled "words fire cannot consume")
      end
  end end end end.

Definition is_help (args : list string) : bool :=
  match args with a :: _ => String.eqb a "-h" || String.eqb a "--help" | [] => false end.

(** [fire.Fire(csv2apkg)] on [sys.argv[1:]], up to the call. *)
Definition fire_bind (argv : list string) : exn + call :=
  let '(args, flag_args) := separate_flag_args argv in
  match flag_args with
  | _ :: _ => inl (Unmodelled "fire's own flags after --")
  | [] =>
      if is_help args then inl (Unmodelled "fire's help screen")
      else match parse_kw args false kw0 with
           | inl e => inl e
           | inr st => parse_args st
           end
  end.

(** ** Lemmas *)

Lemma is_flag_not_sep (a : string) : is_flag a = false -> String.eqb a "--" = false.
Proof. intros H. destruct (String.eqb_spec a "--") as [->|]; [discriminate|reflexivity]. Qed.

Lemma is_flag_not_help (a : string) :
  is_flag a = false -> String.eqb a "-h" || String.eqb a "--help" = false.
Proof.
  intros H. destruct (String.eqb_spec a "-h") as [->|]; [discriminate|].
  destruct (String.eqb_spec a "--help") as [->|]; [discriminate|reflexivity].
Qed.

Lemma split_last_sep_none (args : list string) :
  Forall (fun a => String.eqb a "--" = false) args -> split_last_sep args = None.
Proof. induction 1 as [|a l Ha _ IH]; [reflexivity|]. simpl. now rewrite IH, Ha. Qed.

(** Without a [--], every word is for [csv2apkg]. *)
Lemma separate_no_sep (args : list string) :
  Forall (fun a => String.eqb a "--" = false) args -> separate_flag_args args = (args, []).
Proof. intros H. unfold separate_flag_args. now rewrite split_last_sep_none. Qed.

Lemma fire_bind_no_sep (argv : list string) :
  Forall (fun a => String.eqb a "--" = false) argv -> is_help argv = false ->
  fire_bind argv = match parse_kw argv false kw0 with inl e => inl e | inr st => parse_args st end.
Proof. intros Hs Hh. unfold fire_bind. rewrite separate_no_sep by exact Hs. now rewrite Hh. Qed.

Lemma parse_kw_word (a : string) (rest : list string) (st : kw_state) :
  is_flag a = false ->
  parse_kw (a :: rest) false st
  = parse_kw rest false (mk_kw (kwargs st) (remaining_kwargs st) (remaining_args st ++ [a])).
Proof. intros H. simpl. now rewrite H. Qed.

Lemma str_split_last_snoc (s : string) (c : ascii) :
  str_split_last (s +:+ String c EmptyString) = Some (s, c).
Proof.
  induction s as [|a s IH]; [reflexivity|]. simpl.
  destruct (s +:+ String c EmptyString) eqn:E; [destruct s; discriminate|].
  rewrite IH.
  reflexivity.
Qed.

(** A string that a pair of single quotes delimits as one literal. *)
Definition sq_safe (s : string) : bool :=
  str_forall (fun c => negb (Ascii.eqb c SQUOTE || Ascii.eqb c BACKSLASH || (nat_of_ascii c <? 32))) s.

(** [repr]-style quoting: ['s'] *)
Definition quote (s : string) : string := String SQUOTE (s +:+ String SQUOTE EmptyString).

Lemma quoted_body_quote (s : string) : sq_safe s = true -> quoted_body (quote s) = Some s.
Proof.
  intros Hs. unfold quoted_body, quote. cbn [Ascii.eqb orb].
  rewrite str_split_last_snoc. simpl. unfold sq_safe in Hs. now rewrite Hs.
Qed.

Lemma parse_value_quote (s : string) : sq_safe s = true -> parse_value (quote s) = inr (PStr s).
Proof.
  intros Hs. unfold parse_value. rewrite quoted_body_quote by exact Hs.
  unfold quote. destruct s; reflexivity.
Qed.

Lemma is_flag_quote (s : string) : is_flag (quote s) = false.
Proof. destruct s; reflexivity. Qed.

(** The flag [--k=v] of a parameter [k]. *)
Lemma flag_of_eq (k v : string) (next : option string) :
  k = "filename" \/ k = "title" \/ k = "sep" \/ k = "mode" ->
  flag_of ("--" +:+ k +:+ "=" +:+ v) next = inr (Some (k, v), false).
Proof.
  intros Hk. unfold flag_of.
  destruct Hk as [-> | [-> | [-> | ->]]]; cbn - [str_has]; rewrite !str_has_cons; reflexivity.
Qed.

(** The flag [--k v] of a parameter [k], followed by a word that is not a flag. *)
Lemma flag_of_sp (k v : string) :
  k = "filename" \/ k = "title" \/ k = "sep" \/ k = "mode" -> is_flag v = false ->
  flag_of ("--" +:+ k) (Some v) = inr (Some (k, v), true).
Proof.
  intros Hk Hv. unfold flag_of. rewrite Hv.
  destruct Hk as [-> | [-> | [-> | ->]]]; reflexivity.
Qed.

Definition is_param (k : string) : Prop :=
  k = "filename" \/ k = "title" \/ k = "sep" \/ k = "mode".

(** [--k=v] *)
Definition as_flag (k v : string) : string := "--" +:+ k +:+ "=" +:+ v.

Lemma parse_kw_as_flag (k v : string) (rest : list string) (st : kw_state) :
  is_param k ->
  parse_kw (as_flag k v :: rest) false st
  = parse_kw rest false (mk_kw (<[k := v]> (kwargs st)) (remaining_kwargs st) (remaining_args st)).
Proof.
  intros Hk. unfold as_flag. cbn [parse_kw].
  replace (is_flag ("--" +:+ k +:+ "=" +:+ v)) with true by reflexivity.
  now rewrite flag_of_eq.
Qed.

Lemma parse_kw_sp_flag (k v : string) (rest : list string) (st : kw_state) :
  is_param k -> is_flag v = false ->
  parse_kw (("--" +:+ k) :: v :: rest) false st
  = parse_kw rest false (mk_kw (<[k := v]> (kwargs st)) (remaining_kwargs st) (remaining_args st)).
Proof.
  intros Hk Hv. cbn [parse_kw].
  replace (is_flag ("--" +:+ k)) with true by (destruct Hk as [-> | [-> | [-> | ->]]]; reflexivity).
  cbn [head]. now rewrite flag_of_sp.
Qed.

Ltac lookup_simpl :=
  repeat first [rewrite lookup_insert_eq | rewrite lookup_insert_ne by discriminate
               | rewrite lookup_empty].

(** The words [csv2apkg] receives when every value is quoted. *)
Definition render (f t sep mode : string) : list string :=
  [quote f; as_flag "title" (quote t); as_flag "sep" (quote sep); as_flag "mode" (quote mode)].


(** [-k]: the one-letter form of a parameter. *)
Definition short_flag (k : string) : string :=
  match k with String c _ => String "-"%char (String c EmptyString) | EmptyString => "-" end.

Lemma parse_kw_short (k v : string) (rest : list string) (st : kw_state) :
  is_param k -> is_flag v = false ->
  parse_kw (short_flag k :: v :: rest) false st
  = parse_kw rest false (mk_kw (<[k := v]> (kwargs st)) (remaining_kwargs st) (remaining_args st)).
Proof.
  intros Hk Hv. destruct Hk as [-> | [-> | [-> | ->]]]; cbn [parse_kw short_flag head];
    unfold flag_of; rewrite Hv; reflexivity.
Qed.

(** ** Decimal numerals *)

Lemma digits_value_app (acc : Z) (s t : string) :
  digits_value acc (s +:+ t) = digits_value (digits_value acc s) t.
Proof. revert acc. induction s as [|c s IH]; intros acc; simpl; auto. Qed.

Lemma pretty_N_char_digit (y : N) :
  (y < 10)%N -> is_digit (pretty_N_char y) = true /\
  (Z.of_nat (nat_of_ascii (pretty_N_char y)) - 48 = Z.of_N y)%Z.
Proof.
  intros Hy. destruct (pretty_N_char_code y Hy) as [Hr Hv]. split; [|exact Hv].
  unfold is_digit. cbv zeta. apply andb_true_iff; split; apply Nat.leb_le; lia.
Qed.

Definition head_nonzero (d : string) : bool :=
  match d with String c _ => negb (Ascii.eqb c "0"%char) | EmptyString => false end.

Lemma dec_int_ok_nonzero (d : string) :
  all_digits d = true -> head_nonzero d = true -> dec_int_ok d = true.
Proof.
  intros Ha Hh. unfold dec_int_ok. rewrite Ha.
  destruct d as [|c d]; [discriminate|].
  destruct c as [[] [] [] [] [] [] [] []]; try reflexivity; discriminate.
Qed.

(** [pretty_N_go x s] puts the decimal digits of [x] before [s], the
    first one not zero. *)
Lemma pretty_N_go_digits (x : N) (s : string) :
  (0 < x)%N -> exists d, pretty_N_go x s = d +:+ s /\ all_digits d = true /\
    head_nonzero d = true /\ (digits_value 0 d = Z.of_N x)%Z.
Proof.
  revert s. induction (N.lt_wf_0 x) as [x _ IH]; intros s Hx.
  rewrite pretty_N_go_step by exact Hx.
  destruct (pretty_N_char_digit (x `mod` 10)%N ltac:(apply N.mod_lt; lia)) as [Hd Hv].
  destruct (decide (x `div` 10 = 0)%N) as [E|E].
  - rewrite E, pretty_N_go_0. exists (String (pretty_N_char (x `mod` 10)) EmptyString).
    assert (Hm : (x `mod` 10 = x)%N) by (apply N.mod_small; apply N.div_small_iff in E; lia).
    rewrite Hm in Hd, Hv |- *. unfold all_digits. cbn. rewrite Hd.
    split_and!; [reflexivity|reflexivity| |lia].
    destruct (Ascii.eqb_spec (pretty_N_char x) "0"%char) as [Ec|]; [|reflexivity].
    exfalso. apply (f_equal nat_of_ascii) in Ec. rewrite Ec in Hv. change (nat_of_ascii "0"%char) with 48 in Hv. lia.
  - assert (Hlt : (x `div` 10 < x)%N) by (apply N.div_lt; lia).
    assert (Hpos : (0 < x `div` 10)%N) by (apply N.neq_0_lt_0; exact E).
    destruct (IH (x `div` 10)%N Hlt (String (pretty_N_char (x `mod` 10)) s) Hpos)
      as (d & Hg & Had & Hnz & Hval).
    rewrite Hg. exists (d +:+ String (pretty_N_char (x `mod` 10)) EmptyString).
    rewrite <- str_append_assoc. split; [reflexivity|].
    destruct d as [|c d]; [discriminate|].
    unfold all_digits in *. simpl in *. rewrite str_forall_app.
    rewrite andb_assoc, Had. simpl. rewrite Hd.
    split_and!; [reflexivity|exact Hnz|].
    rewrite digits_value_app, Hval. simpl. rewrite Hv.
    rewrite (N.div_mod x 10) at 3 by lia. lia.
Qed.

(** [fire] reads a decimal numeral as the integer it writes. *)
Lemma parse_value_pretty (n : nat) : parse_value (pretty n) = inr (PInt (Z.of_nat n)).
Proof.
  change (pretty n) with
    (if decide (N.of_nat n = 0%N) then "0" else pretty_N_go (N.of_nat n) EmptyString).
  case_decide as Hn.
  { assert (n = 0) as -> by lia. reflexivity. }
  destruct (pretty_N_go_digits (N.of_nat n) EmptyString ltac:(lia)) as (d & Hg & Had & Hnz & Hval).
  rewrite Hg, str_append_nil_r. rewrite nat_N_Z in Hval.
  pose proof (dec_int_ok_nonzero d Had Hnz) as Hok.
  destruct d as [|c d']; [discriminate|].
  pose proof Had as Hall. unfold all_digits in Had.
  cbn [String.eqb negb andb str_forall] in Had. apply andb_prop in Had as [Hc _].
  unfold parse_value, parse_number.
  destruct c as [[] [] [] [] [] [] [] []]; try discriminate Hc;
    (destruct d' as [|c' d'']; [rewrite <- Hval; reflexivity|]);
    cbn [String.eqb Ascii.eqb Bool.eqb andb orb quoted_body SQUOTE DQUOTE];
    rewrite Hall, Hok; cbn [andb negb]; rewrite Hval; reflexivity.
Qed.

Lemma is_flag_pretty (n : nat) : is_flag (pretty n) = false.
Proof.
  change (pretty n) with
    (if decide (N.of_nat n = 0%N) then "0" else pretty_N_go (N.of_nat n) EmptyString).
  case_decide; [reflexivity|].
  destruct (pretty_N_go_digits (N.of_nat n) EmptyString ltac:(lia)) as (d & -> & Had & _ & _).
  rewrite str_append_nil_r. destruct d as [|c [|c' d]]; [reflexivity|reflexivity|].
  unfold all_digits in Had. simpl in Had. apply andb_prop in Had as [Hc _].
  simpl. destruct (Ascii.eqb_spec c "-"%char) as [->|]; [discriminate|reflexivity].
Qed.

Lemma point_float_cons (c : ascii) (t : string) :
  is_digit c = false -> Ascii.eqb c "."%char = false -> point_float (String c t) = None.
Proof.
  intros Hd Hdot. unfold point_float. simpl. rewrite Hdot.
  destruct (str_split_once "."%char t) as [b [r|]]; simpl; [rewrite Hd|]; reflexivity.
Qed.

Lemma plain_spec (s : string) :
  plain s = true ->
  exists c rest, s = String c rest /\
    (is_alpha c || Ascii.eqb c "_"%char || Ascii.eqb c "/"%char) = true /\
    String.eqb s "True" = false /\ String.eqb s "False" = false /\ String.eqb s "None" = false.
Proof.
  unfold plain. destruct s as [|c rest]; [discriminate|].
  destruct (str_split_last (String c rest)) as [[b l]|]; [|discriminate].
  intros H. repeat (apply andb_prop in H as [H ?]).
  exists c, rest. split_and!; [reflexivity|assumption|..];
    repeat match goal with
    | H : negb _ = true |- _ => apply negb_true_iff in H
    | H : _ || _ = false |- _ => apply orb_false_elim in H as [? ?]
    end; assumption.
Qed.

(** ** Properties *)

(** C15: Quoting is how a caller passes strings through [fire]: for any
    file name, title, separator and mode without a single quote, a
    backslash or a control character, the words
    ['f' --title='t' --sep='s' --mode='m'] give [csv2apkg] exactly these
    four strings. *)
Theorem fire_roundtrip (f t sep mode : string) :
  sq_safe f = true -> sq_safe t = true -> sq_safe sep = true -> sq_safe mode = true ->
  fire_bind (render f t sep mode) = inr (mk_call (PStr f) (PStr t) (PStr sep) (PStr mode)).
Proof.
  intros Hf Ht Hs Hm. unfold render.
  rewrite fire_bind_no_sep.
  2: { constructor; [destruct f; reflexivity|]. repeat constructor. }
  2: { destruct f; reflexivity. }
  rewrite parse_kw_word by apply is_flag_quote.
  rewrite !parse_kw_as_flag by (unfold is_param; auto).
  cbn [parse_kw kwargs remaining_kwargs remaining_args kw0 app].
  unfold parse_args, take_param. cbn [kwargs remaining_args remaining_kwargs].
  lookup_simpl. rewrite !parse_value_quote by assumption. reflexivity.
Qed.

(** C16: The three spellings of a flag, [--k v], [--k=v] and [-k v] (its
    first letter), bind the same value to the parameter [k]. *)
Theorem fire_kw_forms (k f v : string) :
  is_param k -> is_flag f = false -> is_flag v = false ->
  fire_bind [f; "--" +:+ k; v] = fire_bind [f; as_flag k v] /\
  fire_bind [f; short_flag k; v] = fire_bind [f; as_flag k v].
Proof.
  intros Hk Hf Hv.
  assert (Hsep : forall x, x = "--" +:+ k \/ x = as_flag k v \/ x = short_flag k ->
                           String.eqb x "--" = false).
  { intros x Hx. destruct Hk as [-> | [-> | [-> | ->]]];
      destruct Hx as [-> | [-> | ->]]; reflexivity. }
  rewrite !fire_bind_no_sep;
    try (repeat constructor; first [apply is_flag_not_sep; assumption | apply Hsep; auto]);
    try (apply is_flag_not_help; exact Hf).
  rewrite !(fun rest => parse_kw_word f rest kw0 Hf).
  rewrite parse_kw_sp_flag, parse_kw_as_flag, parse_kw_short by assumption.
  split; reflexivity.
Qed.

(** Plain words ([cards.csv], [data/cards.csv], [My Deck]) reach
    [csv2apkg] as the [str] they spell. *)
Theorem parse_value_plain (s : string) : plain s = true -> parse_value s = inr (PStr s).
Proof.
  intros Hp. destruct (plain_spec s Hp) as (c & rest & -> & Hc & Ht & Hf & Hn).
  unfold parse_value. rewrite Ht, Hf, Hn.
  destruct c as [[] [] [] [] [] [] [] []]; try discriminate Hc;
    (destruct rest as [|c' r]; [reflexivity|]);
    cbn [quoted_body Ascii.eqb Bool.eqb andb orb SQUOTE DQUOTE all_digits String.eqb negb
         str_forall is_digit];
    unfold parse_number, all_digits; cbn [String.eqb negb str_forall andb];
    rewrite point_float_cons by reflexivity; rewrite Hp; reflexivity.
Qed.

(** C17: A title of digits ([--title 2024]) reaches [csv2apkg] as an
    [int], not a [str], so the deck is named as if no title were given. *)
Theorem fire_numeric_title (f : string) (n : nat) :
  parse_value f = inr (PStr f) -> is_flag f = false ->
  fire_bind [f; "--title"; pretty n]
    = inr (mk_call (PStr f) (PInt (Z.of_nat n)) (PStr ",") (PStr "double")) /\
  derive_title (PInt (Z.of_nat n)) (parse_path f) = derive_title PNone (parse_path f).
Proof.
  intros Hpf Hf. split; [|unfold derive_title; cbn [is_str]; now rewrite andb_false_r].
  rewrite fire_bind_no_sep.
  2: { repeat constructor; apply is_flag_not_sep; [exact Hf|apply is_flag_pretty]. }
  2: { apply is_flag_not_help, Hf. }
  rewrite parse_kw_word by exact Hf.
  change "--title" with ("--" +:+ "title").
  rewrite parse_kw_sp_flag by (unfold is_param; auto || apply is_flag_pretty).
  cbn [parse_kw kwargs remaining_args remaining_kwargs kw0 app].
  unfold parse_args, take_param. cbn [kwargs remaining_args remaining_kwargs].
  lookup_simpl. rewrite Hpf, parse_value_pretty. reflexivity.
Qed.

(** ** Witnesses *)

Lemma fire_roundtrip_witness :
  fire_bind (render "cards.csv" "Basic, Vol. 1" ";" "single")
  = inr (mk_call (PStr "cards.csv") (PStr "Basic, Vol. 1") (PStr ";") (PStr "single")).
Proof. apply fire_roundtrip; reflexivity. Defined.

Lemma fire_kw_forms_witness :
  fire_bind ["cards.csv"; "--sep"; ";"] = fire_bind ["cards.csv"; as_flag "sep" ";"] /\
  fire_bind ["cards.csv"; short_flag "sep"; ";"] = fire_bind ["cards.csv"; as_flag "sep" ";"].
Proof. apply (fire_kw_forms "sep"); [unfold is_param; auto|reflexivity|reflexivity]. Defined.

Lemma parse_value_plain_witness : parse_value "data/My Deck.csv" = inr (PStr "data/My Deck.csv").
Proof. apply parse_value_plain. reflexivity. Defined.

Lemma fire_numeric_title_witness :
  fire_bind ["cards.csv"; "--title"; pretty 2024]
    = inr (mk_call (PStr "cards.csv") (PInt (Z.of_nat 2024)) (PStr ",") (PStr "double")) /\
  derive_title (PInt (Z.of_nat 2024)) (parse_path "cards.csv") = derive_title PNone (parse_path "cards.csv").
Proof. apply fire_numeric_title; reflexivity. Defined.

End Fire.

Module Cli.
Import Fire.
Local Open Scope py_scope.

Section Main.
Context `{TableReader}.

(** [main()]: [fire.Fire(csv2apkg)] *)
Definition main (argv : list string) : PyM world unit :=
  c <- py_lift (fire_bind argv) ;;
  csv2apkg (c_filename c) (c_title c) (c_sep c) (c_mode c).

End Main.

(** The exit status of [python csv2apkg.py ...]: [fire] turns a
    [FireError] into [FireExit(2)]; any other exception ends the program
    with a traceback and status 1. *)
Definition exit_status (r : exn + unit) : nat :=
  match r with
  | inr _ => 0
  | inl (FireError _) => 2
  | inl _ => 1
  end.

(** ** Properties *)

Section Theorems.
Context `{TableReader}.

(** C18: Without a file name, [fire] reports the missing argument before
    [csv2apkg] runs: nothing changes and the exit status is 2. *)
Theorem main_missing_filename (k v : string) (w : world) :
  is_param k -> k <> "filename" -> is_flag v = false ->
  main ["--" +:+ k; v] w =
    (inl (FireError "The function received no value for the required argument: filename"), w) /\
  exit_status (fst (main ["--" +:+ k; v] w)) = 2.
Proof.
  intros Hk Hkf Hv.
  assert (Hb : fire_bind ["--" +:+ k; v] =
    inl (FireError "The function received no value for the required argument: filename")).
  { rewrite fire_bind_no_sep.
    2: { repeat constructor; [destruct Hk as [-> | [-> | [-> | ->]]]; reflexivity|].
         apply is_flag_not_sep, Hv. }
    2: { destruct Hk as [-> | [-> | [-> | ->]]]; reflexivity. }
    rewrite parse_kw_sp_flag by assumption.
    unfold parse_args, take_param. cbn [parse_kw kwargs remaining_args kw0].
    rewrite lookup_insert_ne by congruence. reflexivity. }
  unfold main. rewrite Hb. split; reflexivity.
Qed.

End Theorems.

Lemma main_missing_filename_witness :
  @main CsvReader.csv_reader ["--" +:+ "title"; "Vocabulary"] (mk_world ∅ 0 []) =
    (inl (FireError "The function received no value for the required argument: filename"),
     mk_world ∅ 0 []) /\
  exit_status (fst (@main CsvReader.csv_reader ["--" +:+ "title"; "Vocabulary"]
                      (mk_world ∅ 0 []))) = 2.
Proof.
  apply (@main_missing_filename CsvReader.csv_reader); [unfold is_param; auto|discriminate|reflexivity].
Defined.

End Cli.
